(** * Feature-store workshop: synthetic data generator and feature transformer

    Shallow embedding of the notebook code that generates the synthetic
    grocery data set (customers, orders), transforms it into model-ready
    features (age buckets, label encoding, min-max scaling), reorders the
    training table and checks the result of the bulk ingestion.

    Python floats are IEEE-754 binary64 numbers; they are modelled with the
    executable specification [SpecFloat] of the standard library.  The random
    generators of [random] and [faker] are an interface ([RandomSource]); the
    wall clock read by [datetime.now()] is a function from the number of the
    reading to the instant read. *)

From Stdlib Require Import ZArith QArith Qfield SpecFloat DecimalString DecimalNat.
From stdpp Require Import base tactics option list strings sorting gmap.

Local Open Scope Z_scope.

(** ** Python exceptions and the result of a computation *)

Inductive exn : Type :=
  | IndexError
  | KeyError
  | ValueError
  | AssertionError.

Inductive result (A : Type) : Type :=
  | Ok (a : A)
  | Raise (e : exn).
Arguments Ok {A} a.
Arguments Raise {A} e.

(** ** binary64 arithmetic *)

Module B64.
Definition prec : Z := 53.
Definition emax : Z := 1024.

Definition t : Type := spec_float.

Definition of_Z (z : Z) : t := binary_normalize prec emax z 0 false.
Definition add : t -> t -> t := SFadd prec emax.
Definition sub : t -> t -> t := SFsub prec emax.
Definition mul : t -> t -> t := SFmul prec emax.
Definition div : t -> t -> t := SFdiv prec emax.
Definition eqb : t -> t -> bool := SFeqb.
Definition leb : t -> t -> bool := SFleb.
Definition ltb : t -> t -> bool := SFltb.

Definition zero : t := of_Z 0.
Definition one : t := of_Z 1.

(** Nearest integer to [p/q] for [0 < q], ties to the even integer. *)
Definition round_half_even (p q : Z) : Z :=
  let d := p / q in
  let r := p mod q in
  match 2 * r ?= q with
  | Lt => d
  | Gt => d + 1
  | Eq => if Z.even d then d else d + 1
  end.

(** The number of hundredths nearest to the exact value of a finite
    double. *)
Definition nearest_hundredths (x : t) : Z :=
  match x with
  | S754_finite s m e =>
      let n := match e with
               | Z.neg k => round_half_even (100 * Z.pos m) (2 ^ Z.pos k)
               | _ => 100 * Z.pos m * 2 ^ e
               end in
      if s then - n else n
  | _ => 0
  end.

(** Python's [round(x, 2)]: the exact value of [x] is rounded to two
    decimal places (ties to even) and the decimal result is converted back
    to the nearest double. Infinities and NaN are returned unchanged. *)
Definition round2 (x : t) : t :=
  match x with
  | S754_finite _ _ _ => div (of_Z (nearest_hundredths x)) (of_Z 100)
  | _ => x
  end.

(** A double has at most two digits after the decimal point when it is the
    double of a two-decimal literal, that is when [round(x, 2) == x]. *)
Definition two_decimals (x : t) : bool := eqb (round2 x) x.
End B64.

(** ** The entities of the data set *)

Module Customer.
Record t : Type := mk {
  customer_id : string;
  name : string;
  sex : string;
  state : string;
  age : Z;
  is_married : bool;
  active_since : string;
  event_time : Z
}.
End Customer.

Module Product.
(** A row of [product_category_mapping.csv]. *)
Record t : Type := mk {
  product_id : string;
  product_name : string;
  product_category : string
}.
End Product.

Module Order.
Record t : Type := mk {
  order_id : string;
  customer_id : string;
  product_id : string;
  purchase_amount : B64.t;
  is_reordered : Z;
  purchased_on : string;
  event_time : Z
}.
End Order.

(** ** The random generators

    [random.seed], [faker.seed_instance] and the drawing functions of the two
    libraries, as functions of the generator state.  [randbelow n] is
    CPython's [Random._randbelow(n)], the primitive of [random.randint] and
    [random.choice]: an index below [n].  [random53] is the numerator [k] of
    the double [k / 2^53] returned by [random.random()].  The faker calls
    return the fields the notebook reads: [faker_profile] the name and the
    sex of [faker.profile()]. *)

Class RandomSource : Type := {
  mt_state : Type;
  fk_state : Type;
  random_seed : Z -> mt_state;
  seed_instance : Z -> fk_state;
  randbelow : nat -> mt_state -> nat * mt_state;
  randbelow_lt : forall n g, (0 < n)%nat -> (fst (randbelow n g) < n)%nat;
  random53 : mt_state -> Z * mt_state;
  random53_range : forall g, 0 <= fst (random53 g) < 2 ^ 53;
  faker_profile : fk_state -> (string * string) * fk_state;
  faker_state : fk_state -> string * fk_state;
  faker_boolean : fk_state -> bool * fk_state;
  faker_date_time_between : string -> string -> fk_state -> string * fk_state
}.

(** [f'C{i}'], [f'O{i}'] *)
Definition fmt_id (prefix : string) (i : nat) : string :=
  prefix +:+ NilEmpty.string_of_uint (Nat.to_uint i).

(** [str.lower] on ASCII letters. *)
Definition lower_ascii (c : Ascii.ascii) : Ascii.ascii :=
  let n := Ascii.nat_of_ascii c in
  if (65 <=? n)%nat && (n <=? 90)%nat then Ascii.ascii_of_nat (n + 32) else c.

Fixpoint lower (s : string) : string :=
  match s with
  | EmptyString => EmptyString
  | String c s' => String (lower_ascii c) (lower s')
  end.

(** The three equally likely outcomes of the reorder flag. *)
Definition reorder_choices : list Z := [1; 1; 0].

Section Notebook.
Context `{RS : RandomSource}.

(** [wall k] is the instant (UTC, milliseconds) read by the [k]-th call of
    [datetime.now()]. *)
Variable wall : nat -> Z.

(** The global variables of the notebook. *)
Record World : Type := mkWorld {
  mt : mt_state;
  fk : fk_state;
  ticks : nat;
  customers : list Customer.t;
  customer_ids : list string;
  product_ids : list string;
  orders : list Order.t
}.

Definition M (A : Type) : Type := World -> result (A * World).

Definition ret {A} (a : A) : M A := fun w => Ok (a, w).

Definition bind {A B} (m : M A) (k : A -> M B) : M B :=
  fun w => match m w with
           | Ok (a, w') => k a w'
           | Raise e => Raise e
           end.

Definition raise {A} (e : exn) : M A := fun _ => Raise e.

(** Reading and updating the global variables. *)
Definition gets {A} (f : World -> A) : M A := fun w => Ok (f w, w).
Definition modify (f : World -> World) : M unit := fun w => Ok (tt, f w).

Notation "x <- m ;; k" := (bind m (fun x => k))
  (at level 90, m at next level, right associativity).
Notation "m ;;; k" := (bind m (fun _ => k))
  (at level 90, right associativity).

Definition with_mt (g : mt_state) (w : World) : World :=
  mkWorld g (fk w) (ticks w) (customers w) (customer_ids w) (product_ids w) (orders w).
Definition with_fk (g : fk_state) (w : World) : World :=
  mkWorld (mt w) g (ticks w) (customers w) (customer_ids w) (product_ids w) (orders w).
Definition with_ticks (n : nat) (w : World) : World :=
  mkWorld (mt w) (fk w) n (customers w) (customer_ids w) (product_ids w) (orders w).
Definition with_customers (cs : list Customer.t) (ids : list string) (w : World) : World :=
  mkWorld (mt w) (fk w) (ticks w) cs ids (product_ids w) (orders w).
Definition with_product_ids (ids : list string) (w : World) : World :=
  mkWorld (mt w) (fk w) (ticks w) (customers w) (customer_ids w) ids (orders w).
Definition with_orders (os : list Order.t) (w : World) : World :=
  mkWorld (mt w) (fk w) (ticks w) (customers w) (customer_ids w) (product_ids w) os.

(** A draw from the module-level generator of [random]. *)
Definition draw_mt {A} (f : mt_state -> A * mt_state) : M A :=
  fun w => let (a, g) := f (mt w) in Ok (a, with_mt g w).

(** A draw from the generator of the [faker] instance. *)
Definition draw_fk {A} (f : fk_state -> A * fk_state) : M A :=
  fun w => let (a, g) := f (fk w) in Ok (a, with_fk g w).

(** [random.randint(a, b)] is [randrange(a, b + 1)], that is
    [a + _randbelow(b + 1 - a)]. *)
Definition randint (a b : Z) : M Z :=
  k <- draw_mt (randbelow (Z.to_nat (b - a + 1))) ;;
  ret (a + Z.of_nat k).

(** [random.choice(seq)] is [seq[_randbelow(len(seq))]]; it raises
    [IndexError] on an empty sequence. *)
Definition choice {A} (seq : list A) : M A :=
  match seq with
  | [] => raise IndexError
  | _ :: _ =>
      i <- draw_mt (randbelow (length seq)) ;;
      match seq !! i with
      | Some x => ret x
      | None => raise IndexError
      end
  end.

(** [round(random.random(), 2)]: [random.random()] is [k / 2^53]; its
    exact value is rounded to hundredths and converted to a double. *)
Definition random_round2 : M B64.t :=
  k <- draw_mt random53 ;;
  ret (B64.div (B64.of_Z (B64.round_half_even (100 * k) (2 ^ 53))) (B64.of_Z 100)).

Definition generate_timestamp (start stop : string) : M string :=
  draw_fk (faker_date_time_between start stop).

Definition generate_event_timestamp : M Z :=
  fun w => Ok (wall (ticks w), with_ticks (S (ticks w)) w).

Definition generate_customer (i : nat) : M Customer.t :=
  profile <- draw_fk faker_profile ;;
  let customer_id := fmt_id "C" i in
  let name := lower (fst profile) in
  let sex := snd profile in
  st <- draw_fk faker_state ;;
  age <- randint 18 91 ;;
  is_married <- draw_fk faker_boolean ;;
  active_since <- generate_timestamp "2016-01-01 00:00:00" "2020-01-01 00:00:01" ;;
  event_time <- generate_event_timestamp ;;
  ret (Customer.mk customer_id name sex (lower st) age is_married active_since event_time).

Definition generate_order (i : nat) : M Order.t :=
  let order_id := fmt_id "O" i in
  ids <- gets customer_ids ;;
  customer_id <- choice ids ;;
  pids <- gets product_ids ;;
  product_id <- choice pids ;;
  n <- randint 1 101 ;;
  frac <- random_round2 ;;
  let purchase_amount := B64.add (B64.of_Z n) frac in
  is_reordered <- choice reorder_choices ;;
  purchased_on <- generate_timestamp "2020-01-01 00:01:01" "2021-06-01 00:00:01" ;;
  event_time <- generate_event_timestamp ;;
  ret (Order.mk order_id customer_id product_id purchase_amount is_reordered
         purchased_on event_time).

(** The index that [random.choice([1, 1, 0])] draws in [generate_order]:
    the fifth draw from the generator of [random], after the draws for the
    customer, the product, the integer part and the fraction of the
    amount. *)
Definition reorder_index (w : World) : nat :=
  let g1 := snd (randbelow (length (customer_ids w)) (mt w)) in
  let g2 := snd (randbelow (length (product_ids w)) g1) in
  let g3 := snd (randbelow (Z.to_nat (101 - 1 + 1)) g2) in
  let g4 := snd (random53 g3) in
  fst (randbelow (length reorder_choices) g4).

(** [for i in range(n): body(i)] *)
Fixpoint for_range (body : nat -> M unit) (i n : nat) : M unit :=
  match n with
  | O => ret tt
  | S n' => body i ;;; for_range body (S i) n'
  end.

(** [random.seed(SEED); faker.seed_instance(SEED)] *)
Definition cell_seed (seed : Z) : M unit :=
  modify (fun w => with_fk (seed_instance seed) (with_mt (random_seed seed) w)).

(** [customers = []; customer_ids = []; for i in range(n): ...] *)
Definition append_customer (i : nat) : M unit :=
  customer <- generate_customer (i + 1) ;;
  modify (fun w => with_customers (customers w ++ [customer])
                     (customer_ids w ++ [Customer.customer_id customer]) w).

Definition cell_customers (n : nat) : M unit :=
  modify (with_customers [] []) ;;;
  for_range append_customer 0 n.

(** The products cell: one event timestamp per row of the mapping file,
    then [product_ids = products_df['product_id'].tolist()]. *)
Definition cell_products (file : list Product.t) : M unit :=
  for_range (fun _ => generate_event_timestamp ;;; ret tt) 0 (length file) ;;;
  modify (with_product_ids (map Product.product_id file)).

Definition append_order (i : nat) : M unit :=
  order <- generate_order (i + 1) ;;
  modify (fun w => with_orders (orders w ++ [order]) w).

Definition cell_orders (n : nat) : M unit :=
  modify (with_orders []) ;;;
  for_range append_order 0 n.

(** A generation run: the cells of the notebook in order, with the two
    sample calls [generate_customer(1)] and [generate_order(1)] that
    precede the loops. *)
Definition generation_run (seed : Z) (n m : nat) (file : list Product.t) : M unit :=
  cell_seed seed ;;;
  generate_customer 1 ;;;
  cell_customers n ;;;
  cell_products file ;;;
  generate_order 1 ;;;
  cell_orders m.

Definition initial_world : World :=
  mkWorld (random_seed 0) (seed_instance 0) 0 [] [] [] [].

(** The two tables a run writes to [customers.csv] and [orders.csv]. *)
Definition generate (seed : Z) (n m : nat) (file : list Product.t)
  : result (list Customer.t * list Order.t) :=
  match generation_run seed n m file initial_world with
  | Ok (_, w) => Ok (customers w, orders w)
  | Raise e => Raise e
  end.
End Notebook.

(** The attributes of a record other than its event time. *)
Definition customer_attrs (c : Customer.t) :=
  (Customer.customer_id c, Customer.name c, Customer.sex c, Customer.state c,
   Customer.age c, Customer.is_married c, Customer.active_since c).

Definition order_attrs (o : Order.t) :=
  (Order.order_id o, Order.customer_id o, Order.product_id o,
   Order.purchase_amount o, Order.is_reordered o, Order.purchased_on o).

(** The tables a run has rebuilt so far.  The states in which two runs
    start are arbitrary: whatever earlier cells left in the generators and
    in the tables. *)
Record rebuilt : Type := mkRebuilt {
  rb_customers : bool;
  rb_products : bool;
  rb_orders : bool
}.

(** Two states of the notebook that agree on the two generators and on the
    tables rebuilt so far, up to the clock and the event times, and two
    results that do. *)
Section Agreement.
Context `{RS : RandomSource}.

Definition sim_world (s : rebuilt) (w1 w2 : World) : Prop :=
  mt w1 = mt w2 /\ fk w1 = fk w2
  /\ (rb_customers s = true ->
      map customer_attrs (customers w1) = map customer_attrs (customers w2)
      /\ customer_ids w1 = customer_ids w2)
  /\ (rb_products s = true -> product_ids w1 = product_ids w2)
  /\ (rb_orders s = true ->
      map order_attrs (orders w1) = map order_attrs (orders w2)).

Definition sim_result {A} (R : A -> A -> Prop) (s : rebuilt)
           (r1 r2 : result (A * World)) : Prop :=
  match r1, r2 with
  | Ok (a1, w1), Ok (a2, w2) => R a1 a2 /\ sim_world s w1 w2
  | Raise e1, Raise e2 => e1 = e2
  | _, _ => False
  end.

(** From states that agree at stage [s] the two computations give results
    that agree at stage [s']. *)
Definition sim_M {A} (R : A -> A -> Prop) (s s' : rebuilt) (m1 m2 : M A) : Prop :=
  forall w1 w2, sim_world s w1 w2 -> sim_result R s' (m1 w1) (m2 w2).

(** The tables of the notebook are the same in two states. *)
Definition same_tables (w w' : World) : Prop :=
  customers w' = customers w /\ customer_ids w' = customer_ids w
  /\ product_ids w' = product_ids w /\ orders w' = orders w.

(** The computation returns, and its value and final state satisfy [Q]. *)
Definition succeeds {A} (m : M A) (w : World) (Q : A -> World -> Prop) : Prop :=
  exists a w', m w = Ok (a, w') /\ Q a w'.
End Agreement.

(** The check of one purchase amount [n + h/100] computed on doubles: the
    fraction is a two-decimal double and the sum lies between 1 and 102. *)
Definition amount_ok (n h : Z) : bool :=
  let frac := B64.div (B64.of_Z h) (B64.of_Z 100) in
  let amount := B64.add (B64.of_Z n) frac in
  B64.two_decimals frac && B64.leb (B64.of_Z 1) amount && B64.leb amount (B64.of_Z 102).

(** The probability that [random.choice(seq)] returns [v]: the index is
    uniform on [0, len(seq)), so it is the share of the positions of [seq]
    that hold [v]. *)
Definition favourable (pool : list Z) (v : Z) : list nat :=
  filter (fun i => pool !! i = Some v) (seq 0 (length pool)).

Definition choice_prob (pool : list Z) (v : Z) : Q :=
  Z.of_nat (length (favourable pool v)) # Pos.of_nat (length pool).

(** ** A scripted random source

    Both generators read their raw draws from a tape chosen by the seed; an
    exhausted tape yields zeros.  It makes the notebook executable. *)

Definition tape_next (t : list Z) : Z * list Z :=
  match t with
  | [] => (0, [])
  | x :: t' => (x, t')
  end.

Definition tape_randbelow (n : nat) (t : list Z) : nat * list Z :=
  let (x, t') := tape_next t in (Z.to_nat (x mod Z.of_nat n), t').

Definition tape_random53 (t : list Z) : Z * list Z :=
  let (x, t') := tape_next t in (x mod 2 ^ 53, t').

Definition tape_pick (names : list string) (t : list Z) : string * list Z :=
  let (x, t') := tape_next t in (default ""%string (names !! Z.to_nat x), t').

Lemma tape_randbelow_lt n t : (0 < n)%nat -> (fst (tape_randbelow n t) < n)%nat.
Proof.
  intros Hn. unfold tape_randbelow. destruct (tape_next t) as [x t']. simpl.
  pose proof (Z.mod_pos_bound x (Z.of_nat n)). lia.
Qed.

Lemma tape_random53_range t : 0 <= fst (tape_random53 t) < 2 ^ 53.
Proof.
  unfold tape_random53. destruct (tape_next t) as [x t']. simpl.
  apply Z.mod_pos_bound. reflexivity.
Qed.

Definition tape_source (mt_tape fk_tape : Z -> list Z) : RandomSource := {|
  mt_state := list Z;
  fk_state := list Z;
  random_seed := mt_tape;
  seed_instance := fk_tape;
  randbelow := tape_randbelow;
  randbelow_lt := tape_randbelow_lt;
  random53 := tape_random53;
  random53_range := tape_random53_range;
  faker_profile := fun t =>
    let (n, t1) := tape_pick ["Ann Lee"; "Bob Ray"; "Eve Fox"]%string t in
    let (s, t2) := tape_pick ["F"; "M"]%string t1 in ((n, s), t2);
  faker_state := tape_pick ["Ohio"; "Utah"; "Iowa"]%string;
  faker_boolean := fun t => let (x, t') := tape_next t in (Z.odd x, t');
  faker_date_time_between := fun _ _ =>
    tape_pick ["2017-03-04 10:00:00"; "2020-05-06 12:30:00"]%string
|}.

(** A demonstration script: the tape does not depend on the seed. *)
Definition demo_source : RandomSource :=
  tape_source (fun _ => [12; 30; 73; 0; 1; 0; 1261007895663739; 0; 1; 2; 50; 4503599627370496; 2])
              (fun _ => [0; 0; 1; 1; 0; 1; 1; 2; 0; 1; 2; 1; 0; 0; 1; 0]).

Definition demo_file : list Product.t :=
  [Product.mk "P1" "milk" "dairy"; Product.mk "P2" "kale" "produce"].

Definition demo_wall (k : nat) : Z := 1000 * Z.of_nat k.

Definition demo_customers : list Customer.t :=
  [Customer.mk "C1" "bob ray" "M" "iowa" 48 false "2020-05-06 12:30:00" 1000;
   Customer.mk "C2" "eve fox" "M" "ohio" 91 false "2020-05-06 12:30:00" 2000].

Definition demo_order1 : Order.t :=
  Order.mk "O1" "C2" "P1" (S754_finite false 7247980650299392 (-47)) 0
           "2017-03-04 10:00:00" 6000.

Definition demo_order2 : Order.t :=
  Order.mk "O2" "C1" "P1" (S754_finite false 4503599627370496 (-52)) 1
           "2017-03-04 10:00:00" 7000.

(** A state whose pools hold one customer and one product and whose tape
    makes [generate_order] draw the integer 1 and the fraction 0.14. *)
Definition skew_source : RandomSource :=
  tape_source (fun _ => []) (fun _ => []).

Definition skew_world : @World skew_source :=
  @mkWorld skew_source [0; 0; 0; 1261007895663739; 0] [] 0 []
           ["C1"%string] ["P1"%string] [].

(** The same state with the raw draw [x] for the reorder flag. *)
Definition flag_world (x : Z) : @World skew_source :=
  @mkWorld skew_source [0; 0; 0; 1261007895663739; x] [] 0 []
           ["C1"%string] ["P1"%string] [].

(** A state left by earlier cells: used generators, a clock that has been
    read and tables of an earlier run. *)
Definition used_world : @World demo_source :=
  @mkWorld demo_source [5; 6] [1] 40 demo_customers ["C7"%string] ["P9"%string]
           [demo_order2].

Definition skew_order : Order.t :=
  Order.mk "O1" "C1" "P1" (S754_finite false 5134103575202366 (-52)) 1
           "2017-03-04 10:00:00" 0.

(** ** Transformer: age buckets

    [pd.cut(age, bins, labels=labels, include_lowest=True)] followed by
    [pd.get_dummies(..., prefix='age')]. *)

Definition bins : list Z := [18; 30; 40; 50; 60; 70; 90].

Definition labels : list string :=
  ["18-29"; "30-39"; "40-49"; "50-59"; "60-69"; "70-plus"]%string.

(** [a.searchsorted(v, side='left')] on a sorted array: the first index
    [i] with [v <= a[i]], the length of [a] when there is none. *)
Fixpoint searchsorted_left (a : list Z) (v : Z) : nat :=
  match a with
  | [] => O
  | x :: a' => if x <? v then S (searchsorted_left a' v) else O
  end.

(** [pd.cut] with the default [right=True], as pandas computes it:
    [ids = bins.searchsorted(x, side='left')], then
    [ids[x == bins[0]] = 1] under [include_lowest], and the value is NaN
    where [ids == len(bins)] or [ids == 0], the category [ids - 1]
    elsewhere.  The result is the category code of [x], or [None] for NaN. *)
Definition pd_cut (bins : list Z) (include_lowest : bool) (x : Z) : option nat :=
  let ids := searchsorted_left bins x in
  let ids := if include_lowest && bool_decide (Some x = head bins) then 1%nat else ids in
  if bool_decide (ids = length bins) || bool_decide (ids = O) then None
  else Some (ids - 1)%nat.

(** [pd.get_dummies] of one cell of a categorical column: one indicator
    column [prefix_category] per category, all of them zero for NaN. *)
Definition get_dummies (prefix : string) (categories : list string) (cell : option nat)
  : list (string * Z) :=
  imap (fun j lab => (prefix +:+ "_" +:+ lab,
                      if bool_decide (cell = Some j) then 1 else 0)) categories.

(** The six [age_*] columns of a transformed customer row. *)
Definition age_columns (age : Z) : list (string * Z) :=
  get_dummies "age" labels (pd_cut bins true age).

(** The label [pd.cut] assigns to an age, and the sum of the bucket
    columns. *)
Definition age_range (age : Z) : option string :=
  pd_cut bins true age ≫= fun j => labels !! j.

Definition bucket_sum (cols : list (string * Z)) : Z :=
  foldr (fun c acc => snd c + acc) 0 cols.

(** The bucket the specification assigns to an age: half-open bins with a
    closed last bin. *)
Definition spec_bucket (age : Z) : option nat :=
  if (age <? 18) || (91 <? age) then None
  else if age <? 30 then Some 0%nat
  else if age <? 40 then Some 1%nat
  else if age <? 50 then Some 2%nat
  else if age <? 60 then Some 3%nat
  else if age <? 70 then Some 4%nat
  else Some 5%nat.

(** ** Transformer: label encoding

    [LabelEncoder.fit_transform(y)] is
    [self.classes_, y = np.unique(y, return_inverse=True)]: [classes_]
    becomes the sorted distinct values and each value is replaced by its
    index in [classes_].  The notebook reuses one encoder object for three
    columns; every fit overwrites [classes_].  The order [R] is the order of
    the values of the column: strings, booleans or integers. *)

Section LabelEncoder.
Context {A : Type} (R : relation A) `{!RelDecision R} `{!EqDecision A}.

Record LabelEncoder : Type := mkLabelEncoder { classes_ : list A }.

Definition np_unique (y : list A) : list A := merge_sort R (remove_dups y).

Fixpoint index_of (x : A) (classes : list A) : nat :=
  match classes with
  | [] => O
  | c :: classes' => if decide (c = x) then O else S (index_of x classes')
  end.

Definition fit (enc : LabelEncoder) (y : list A) : LabelEncoder :=
  mkLabelEncoder (np_unique y).

Definition transform (enc : LabelEncoder) (y : list A) : list nat :=
  map (fun x => index_of x (classes_ enc)) y.

Definition fit_transform (enc : LabelEncoder) (y : list A)
  : list nat * LabelEncoder :=
  let enc' := fit enc y in (transform enc' y, enc').
End LabelEncoder.

Arguments classes_ {A} _.
Arguments mkLabelEncoder {A} _.

(** Python orders [False] before [True]. *)
Definition bool_le (a b : bool) : Prop := implb a b = true.

Global Instance bool_le_dec : RelDecision bool_le.
Proof. intros a b. unfold bool_le. apply _. Defined.

(** ** Transformer: min-max scaling

    [MinMaxScaler().fit_transform(X)] on a single column, as scikit-learn
    computes it.  Fitting sets
    [data_range = data_max - data_min],
    [scale_ = (1 - 0) / _handle_zeros_in_scale(data_range)] and
    [min_ = 0 - data_min * scale_]; transforming is [X *= scale_] followed
    by [X += min_], without clipping.  The arithmetic is a parameter: the
    code runs it on doubles ([B64]); the exact rationals give the value the
    formula denotes. *)

Class Arith (A : Type) : Type := {
  a_zero : A;
  a_one : A;
  a_add : A -> A -> A;
  a_sub : A -> A -> A;
  a_mul : A -> A -> A;
  a_div : A -> A -> A;
  a_eqb : A -> A -> bool;
  a_ltb : A -> A -> bool
}.

Global Instance B64_arith : Arith B64.t := {|
  a_zero := B64.zero; a_one := B64.one;
  a_add := B64.add; a_sub := B64.sub; a_mul := B64.mul; a_div := B64.div;
  a_eqb := B64.eqb; a_ltb := B64.ltb
|}.

Definition Qltb (x y : Q) : bool := negb (Qle_bool y x).

Global Instance Q_arith : Arith Q := {|
  a_zero := 0%Q; a_one := 1%Q;
  a_add := Qplus; a_sub := Qminus; a_mul := Qmult; a_div := Qdiv;
  a_eqb := Qeq_bool; a_ltb := Qltb
|}.

Module MinMaxScaler.
Section Scaler.
Context {A : Type} `{Ar : Arith A}.

Record t : Type := mk {
  data_min_ : A;
  data_max_ : A;
  data_range_ : A;
  scale_ : A;
  min_ : A
}.

(** [np.nanmin], [np.nanmax] over the column. *)
Definition nanmin (x : A) (l : list A) : A :=
  foldl (fun m y => if a_ltb y m then y else m) x l.
Definition nanmax (x : A) (l : list A) : A :=
  foldl (fun m y => if a_ltb m y then y else m) x l.

(** [_handle_zeros_in_scale]: [scale[scale == 0.0] = 1.0]. *)
Definition handle_zeros_in_scale (scale : A) : A :=
  if a_eqb scale a_zero then a_one else scale.

(** [fit] with the default [feature_range = (0, 1)]; an empty column is
    rejected with a [ValueError]. *)
Definition fit (X : list A) : result t :=
  match X with
  | [] => Raise ValueError
  | x :: l =>
      let data_min := nanmin x l in
      let data_max := nanmax x l in
      let data_range := a_sub data_max data_min in
      let scale := a_div (a_sub a_one a_zero) (handle_zeros_in_scale data_range) in
      let min := a_sub a_zero (a_mul data_min scale) in
      Ok (mk data_min data_max data_range scale min)
  end.

(** [X *= scale_; X += min_] *)
Definition transform (sc : t) (X : list A) : list A :=
  map (fun x => a_add (a_mul x (scale_ sc)) (min_ sc)) X.

Definition fit_transform (X : list A) : result (list A) :=
  match fit X with
  | Ok sc => Ok (transform sc X)
  | Raise e => Raise e
  end.
End Scaler.
Arguments t A : clear implicits.
End MinMaxScaler.

(** The minimum and the maximum of a column. *)
Definition col_min {A} `{Arith A} (X : list A) : A :=
  match X with
  | [] => a_zero
  | x :: l => MinMaxScaler.nanmin x l
  end.

Definition col_max {A} `{Arith A} (X : list A) : A :=
  match X with
  | [] => a_zero
  | x :: l => MinMaxScaler.nanmax x l
  end.

Definition is_finite (x : B64.t) : bool :=
  match x with
  | S754_zero _ | S754_finite _ _ _ => true
  | _ => false
  end.

(** ** Model training: the target column first

    [first_column = df.pop('is_reordered'); df.insert(0, 'is_reordered',
    first_column)] on a frame given as the list of its named columns. *)

Module DataFrame.
Abbreviation column V := (list V) (only parsing).
Abbreviation t V := (list (string * list V)) (only parsing).

Section Frame.
Context {V : Type}.

Definition columns (df : t V) : list string := map fst df.

(** [df.pop(item)]: the column, and the frame without it; [KeyError] when
    there is no such column. *)
Fixpoint pop (item : string) (df : t V) : result (column V * t V) :=
  match df with
  | [] => Raise KeyError
  | (name, col) :: df' =>
      if decide (name = item) then Ok (col, df')
      else match pop item df' with
           | Ok (c, rest) => Ok (c, (name, col) :: rest)
           | Raise e => Raise e
           end
  end.

(** [df.insert(loc, column, value)]: [ValueError] when the name exists
    already, [IndexError] when [loc] is beyond the last column. *)
Definition insert (loc : nat) (name : string) (value : column V) (df : t V)
  : result (t V) :=
  if decide (name ∈ columns df) then Raise ValueError
  else if decide (loc ≤ length df)%nat
       then Ok (take loc df ++ (name, value) :: drop loc df)
       else Raise IndexError.

Definition move_target_first (df : t V) : result (t V) :=
  match pop "is_reordered" df with
  | Ok (first_column, df') => insert 0 "is_reordered" first_column df'
  | Raise e => Raise e
  end.
End Frame.
End DataFrame.

(** ** Batch ingestion *)

Module Ingestion.
(** The response of [FeatureGroup.ingest]: the indices of the rows that
    failed. *)
Record IngestionManagerPandas : Type := mkResponse { failed_rows : list nat }.

Definition py_assert (b : bool) : result unit :=
  if b then Ok tt else Raise AssertionError.

Section Sklearn.
Context {Row : Type}.
Variable fg_ingest : list Row -> IngestionManagerPandas.

(** [ingest_data], from the ingest call on: the frame is ingested and the
    number of failed rows asserted to be zero. *)
Definition ingest_data (df : list Row) : result unit :=
  let response := fg_ingest df in
  py_assert (bool_decide (length (failed_rows response) = O)).

(** The script: log, ingest, log.  The second component is the log. *)
Definition main (df : list Row) : result unit * list string :=
  let log := ["BATCH INGESTION - STARTED"%string] in
  match ingest_data df with
  | Ok tt => (Ok tt, log ++ ["BATCH INGESTION - COMPLETED"%string])
  | Raise e => (Raise e, log)
  end.
End Sklearn.

Section PySpark.
Context {Row : Type}.
(** The HTTP status of [put_record] for a row. *)
Variable put_record : Row -> Z.

(** [ingest_to_feature_store]: every row is put and its status asserted to
    be 200; the rows before a failing one stay written.  The second
    component lists the rows written. *)
Fixpoint ingest_to_feature_store (rows : list Row) : result unit * list Row :=
  match rows with
  | [] => (Ok tt, [])
  | row :: rows' =>
      match py_assert (bool_decide (put_record row = 200)) with
      | Ok tt => let (r, written) := ingest_to_feature_store rows' in
                 (r, row :: written)
      | Raise e => (Raise e, [])
      end
  end.
End PySpark.
End Ingestion.

(** ** Waiting for the platform

    The notebooks wait in loops of the form "observe; while not done:
    sleep; observe".  [observe k] is what the platform answers to the
    [k]-th observation; [poll] returns the first answer that ends the loop
    and the number of sleeps before it, or [None] when [fuel] sleeps were
    not enough. *)

Fixpoint poll {X : Type} (observe : nat -> X) (finished : X -> bool)
         (fuel k : nat) : option (X * nat) :=
  let x := observe k in
  if finished x then Some (x, k)
  else match fuel with
       | O => None
       | S fuel' => poll observe finished fuel' (S k)
       end.

Inductive wait_result : Type :=
  | Returned
  | SystemExit (status : string).

(** [wait_for_feature_group_creation_complete]: the status is read, and
    read again after a sleep of five seconds for as long as it is
    ['Creating']; any final status other than ['Created'] exits. *)
Definition wait_for_feature_group_creation_complete
           (describe : nat -> string) (fuel : nat) : option (wait_result * nat) :=
  match poll describe (fun status => bool_decide (status <> "Creating"%string)) fuel 0 with
  | None => None
  | Some (status, sleeps) =>
      if bool_decide (status <> "Created"%string)
      then Some (SystemExit status, sleeps)
      else Some (Returned, sleeps)
  end.

(** The wait for the pipeline execution: the loop runs while the status
    is ['Executing'] and the notebook goes on whatever the final status
    is. *)
Definition wait_for_pipeline_execution
           (describe : nat -> string) (fuel : nat) : option (string * nat) :=
  poll describe (fun status => bool_decide (status <> "Executing"%string)) fuel 0.

(** The wait for the offline store: the three record counts are read
    until each has reached the number of ingested rows;
    [offline_store_contents] is then the count of the orders. *)
Definition offline_store_ready (customers_count products_count orders_count : Z)
           (counts : Z * Z * Z) : bool :=
  let '(c, p, o) := counts in
  (customers_count <=? c) && (products_count <=? p) && (orders_count <=? o).

Definition wait_for_offline_store (customers_count products_count orders_count : Z)
           (get_counts : nat -> Z * Z * Z) (fuel : nat) : option (Z * nat) :=
  match poll get_counts (offline_store_ready customers_count products_count orders_count)
             fuel 0 with
  | None => None
  | Some ((_, _, o), sleeps) => Some (o, sleeps)
  end.

(** ** The feature set of module 2 and the inference payload of module 3 *)

Module Frame.
Section Ops.
Context {V : Type}.

(** [df.drop(labels, axis=1)]: [KeyError] when a label is not a column,
    otherwise the frame without the columns named. *)
Definition drop_columns (labels : list string) (df : DataFrame.t V)
  : result (DataFrame.t V) :=
  if decide (Forall (fun l => l ∈ DataFrame.columns df) labels)
  then Ok (filter (fun c => c.1 ∉ labels) df)
  else Raise KeyError.

(** [record.values[0]]: the values of row [i], column by column. *)
Definition record_values (df : DataFrame.t V) (i : nat) : list (option V) :=
  map (fun c => c.2 !! i) df.

(** [payload = X[1:]] *)
Definition payload (X : list (option V)) : list (option V) := drop 1 X.
End Ops.
End Frame.

(** The columns module 2 drops from the joined frame before it writes
    [transformed.csv]. *)
Definition dropped_columns : list string :=
  ["order_id"; "customer_id"; "product_id"; "event_time"; "write_time";
   "api_invocation_time"; "is_deleted"; "product_id.1"; "event_time.1";
   "write_time.1"; "api_invocation_time.1"; "is_deleted.1"; "customer_id.1";
   "purchase_amount"; "event_time.2"; "n_days_since_last_purchase";
   "write_time.2"; "api_invocation_time.2"; "is_deleted.2"]%string.

(** Module 2 then module 3: the columns are dropped, and the target is
    moved to the front of what is left. *)
Definition training_table {V} (joined_df : DataFrame.t V) : result (DataFrame.t V) :=
  match Frame.drop_columns dropped_columns joined_df with
  | Ok model_df => DataFrame.move_target_first model_df
  | Raise e => Raise e
  end.

(** ** The split into train, validation and test sets

    [np.split(df.sample(frac=1, random_state=123),
              [int(.7*len(df)), int(.9*len(df))])] on the rows of a frame. *)

(** [int(x)] of a double: truncation towards zero; infinities and NaN have
    no integer. *)
Definition int_of_float (x : B64.t) : option Z :=
  match x with
  | S754_zero _ => Some 0
  | S754_finite s m e =>
      let n := match e with
               | Z.neg k => Z.pos m / 2 ^ Z.pos k
               | _ => Z.pos m * 2 ^ e
               end in
      Some (if s then - n else n)
  | _ => None
  end.

(** The literals [.7] and [.9]. *)
Definition f07 : B64.t := Eval vm_compute in B64.div (B64.of_Z 7) (B64.of_Z 10).
Definition f09 : B64.t := Eval vm_compute in B64.div (B64.of_Z 9) (B64.of_Z 10).

Definition split_points (n : Z) : option (Z * Z) :=
  match int_of_float (B64.mul f07 (B64.of_Z n)),
        int_of_float (B64.mul f09 (B64.of_Z n)) with
  | Some i1, Some i2 => Some (i1, i2)
  | _, _ => None
  end.

(** [l[a:b]] for indices that are not negative. *)
Definition py_slice {A} (a b : nat) (l : list A) : list A := take (b - a) (drop a l).

(** [np.split(l, [i1, i2])]: the pieces [l[:i1]], [l[i1:i2]], [l[i2:]]. *)
Definition np_split {A} (l : list A) (i1 i2 : nat) : list A * list A * list A :=
  (py_slice 0 i1 l, py_slice i1 i2 l, py_slice i2 (length l) l).

(** [df.sample(frac=1, random_state=123)]: the rows in an order that
    depends on the random state only, each row once. *)
Class Sampler : Type := {
  sample : forall A : Type, list A -> list A;
  sample_perm : forall (A : Type) (l : list A), sample A l ≡ₚ l
}.

Definition train_validation_test `{Sampler} {A} (df : list A)
  : option (list A * list A * list A) :=
  match split_points (Z.of_nat (length df)) with
  | Some (i1, i2) => Some (np_split (sample A df) (Z.to_nat i1) (Z.to_nat i2))
  | None => None
  end.

(** The check of the split points of a frame of [n] rows. *)
Definition split_points_ok (n : Z) : bool :=
  match split_points n with
  | Some (i1, i2) =>
      (0 <=? i1) && (i1 <=? i2) && (i2 <=? n) && (i2 =? 9 * n / 10)
      && ((i1 =? 7 * n / 10) || (i1 + 1 =? 7 * n / 10))
  | None => false
  end.

(** [f] holds for the [k] integers from [n] on. *)
Fixpoint forallb_from (f : Z -> bool) (k : nat) (n : Z) : bool :=
  match k with
  | O => true
  | S k' => f n && forallb_from f k' (n + 1)
  end.

(** The largest frame the check is run for: the number of orders the
    generator is set to. *)
Definition max_rows : Z := 100000.

Definition reverse_sampler : Sampler := {|
  sample := fun A l => reverse l;
  sample_perm := fun A l => reverse_Permutation l
|}.

(** ** The partitions of the orders by month

    The partition notebook adds the column [year_month], groups the orders
    by it and writes each group, without that column, to
    [data/partitions/<year_month>/partition.csv]. *)

(** [str(n)] of an integer that is not negative. *)
Definition py_str (n : nat) : string := NilEmpty.string_of_uint (Nat.to_uint n).

(** ['-'.join([str(year), str(month)])] *)
Definition year_month_name (year month : nat) : string :=
  py_str year +:+ "-" +:+ py_str month.

(** The directory [data/partitions]: the files of each of its
    sub-directories. *)
Abbreviation partitions_dir Row := (gmap string (gmap string (list Row))).

Section Partitions.
Context {Row : Type}.

(** The year and the month of [pd.to_datetime(row.purchased_on)]. *)
Variable purchased_in : Row -> nat * nat.

Definition year_month (row : Row) : string :=
  year_month_name (purchased_in row).1 (purchased_in row).2.

(** [df.groupby(key)], iterated: the keys in sorted order, each with the
    rows that have it, in the order of the frame. *)
Definition groupby (key : Row -> string) (df : list Row) : list (string * list Row) :=
  map (fun k => (k, filter (fun row => key row = k) df))
      (np_unique String.le (map key df)).


(** One turn of the loop: the directory of the group is removed if it
    exists, created, and the group written to [partition.csv] in it. *)
Definition write_partition (fs : partitions_dir Row) (g : string * list Row) :
  partitions_dir Row :=
  let partition_dir := g.1 in
  let fs1 := if decide (is_Some (fs !! partition_dir)) then delete partition_dir fs else fs in
  let fs2 := <[partition_dir := ∅]> fs1 in
  <[partition_dir := <["partition.csv"%string := g.2]> (default ∅ (fs2 !! partition_dir))]> fs2.

Definition write_partitions (fs : partitions_dir Row) (df : list Row) : partitions_dir Row :=
  foldl write_partition fs (groupby year_month df).
End Partitions.

(** ** The input files of the ingestion script *)

(** A directory: its files and its sub-directories, as [os.scandir] lists
    them. *)
#[local] Set Warnings "-register-all".
Inductive tree : Type :=
  | Tree (files : list string) (dirs : list (string * tree)).

(** [s.endswith(suffix)], [s.startswith(prefix)] *)
Fixpoint ends_with (suffix s : string) : bool :=
  bool_decide (s = suffix)
  || match s with
     | EmptyString => false
     | String _ s' => ends_with suffix s'
     end.

Definition starts_with (prefix s : string) : bool := String.prefix prefix s.

(** [os.path.join(a, b)] on POSIX. *)
Definition path_join (a b : string) : string :=
  if starts_with "/" b then b
  else if bool_decide (a = ""%string) || ends_with "/" a then a +:+ b
  else a +:+ "/" +:+ b.

(** [os.walk(top)]: the directory, then its sub-directories in turn, each
    entry with the names of its sub-directories and of its files. *)
Fixpoint walk (top : string) (t : tree) : list (string * list string * list string) :=
  match t with
  | Tree files dirs =>
      (top, map fst dirs, files)
        :: (fix walk_dirs (ds : list (string * tree)) :=
              match ds with
              | [] => []
              | (name, sub) :: ds' => walk (path_join top name) sub ++ walk_dirs ds'
              end) dirs
  end.

(** [get_file_paths]: the paths of the files whose name ends with
    [.csv]. *)
Definition csv_paths (entry : string * list string * list string) : list string :=
  let '(root, _, files) := entry in
  map (path_join root) (filter (fun file_name => ends_with ".csv" file_name = true) files).

Definition get_file_paths (directory : string) (t : tree) : list string :=
  flat_map csv_paths (walk directory t).

(** ** The number of days since a date

    [get_delta_in_days] returns [(date.today() - date_time.date()).days].
    A date is its day number ([date.toordinal()]), a [datetime] a date
    with the seconds of the day; [date.today()] is read at every call. *)

Record datetime : Type := mkDatetime { date : Z; seconds : Z }.

Definition get_delta_in_days (today : Z) (date_time : datetime) : Z :=
  today - date date_time.

(** [df[col].apply(lambda x: get_delta_in_days(x))]: the call for the row
    at position [i] reads the date [today i]. *)
Definition n_days (today : nat -> Z) (col : list datetime) : list Z :=
  imap (fun i x => get_delta_in_days (today i) x) col.

(** The column [n_days_since_last_purchase] (and [n_days_active]) after
    [min_max_scaler.fit_transform]; [of_int] turns the integer column into
    the numbers of the arithmetic. *)
Definition n_days_scaled {A} `{Arith A} (of_int : Z -> A) (today : nat -> Z)
           (col : list datetime) : result (list A) :=
  MinMaxScaler.fit_transform (map of_int (n_days today col)).

(** ** PySpark: ordinal encoding

    [StringIndexer(inputCol, outputCol).fit(df).transform(df)] with the
    default [stringOrderType = 'frequencyDesc']: the labels are ordered by
    frequency, the most frequent first, labels of equal frequency in
    alphabetical order; each value is replaced by the index of its label.
    The column is read from the CSV files without a schema, so that its
    values are strings. *)

Definition count_of (x : string) (y : list string) : nat :=
  length (filter (eq x) y).

Definition frequency_desc (y : list string) (a b : string) : Prop :=
  (count_of b y < count_of a y)%nat
  \/ (count_of a y = count_of b y /\ String.le a b).

Global Instance frequency_desc_dec (y : list string) : RelDecision (frequency_desc y).
Proof. intros a b. unfold frequency_desc. apply _. Defined.

Definition string_indexer_fit (y : list string) : list string :=
  np_unique (frequency_desc y) y.

Definition ordinal_encode_col (y : list string) : list nat :=
  map (fun x => index_of x (string_indexer_fit y)) y.

(** ** PySpark: min-max scaling

    [scale_col]: Spark's [MinMaxScaler] with its default range [0, 1],
    then [round(float(x), 2)].  The model of the scaler computes, for the
    column minimum [originalMin] and maximum [originalMax],
    [raw = (x - originalMin) / originalRange] if the range is not zero and
    [0.5] otherwise, and returns [raw * scale + min] with [scale = 1 - 0]
    and [min = 0].  The column holds at least one row. *)

Definition b64_half : B64.t := Eval vm_compute in B64.div B64.one (B64.of_Z 2).

Definition spark_min_max_scaler (x0 : B64.t) (l : list B64.t) : list B64.t :=
  let originalMin := col_min (x0 :: l) in
  let originalMax := col_max (x0 :: l) in
  let originalRange := B64.sub originalMax originalMin in
  let scale := B64.sub B64.one B64.zero in
  map (fun x =>
         let raw := if negb (B64.eqb originalRange B64.zero)
                    then B64.div (B64.sub x originalMin) originalRange
                    else b64_half in
         B64.add (B64.mul raw scale) B64.zero)
      (x0 :: l).

Definition scale_col (x0 : B64.t) (l : list B64.t) : list B64.t :=
  map B64.round2 (spark_min_max_scaler x0 l).

(** An input directory with two partitions, a nested directory and files
    of other kinds. *)
Definition demo_tree : tree :=
  Tree ["notes.txt"]
       [("2021-5", Tree ["partition.csv"; "partition.csv.bak"] []);
        ("2021-6", Tree ["partition.csv"] [("old", Tree ["a.CSV"; "b.csv"] [])])]%string.

(** A joined frame with the columns module 2 drops, the target and one
    feature. *)
Definition demo_joined : DataFrame.t Z :=
  map (fun l => (l, [0])) dropped_columns
  ++ [("age_18-29", [0]); ("is_reordered", [1]); ("sex", [1])]%string.

(** A feature group that is reported ['Creating'] twice and ['Created']
    then, and one whose creation fails. *)
Definition demo_describe (last : string) (j : nat) : string :=
  if (j <? 2)%nat then "Creating"%string else last.

(** A pipeline execution that fails after three readings. *)
Definition demo_execution (j : nat) : string :=
  if (j <? 3)%nat then "Executing"%string else "Failed"%string.

(** An offline store that receives five records of each feature group
    between two readings. *)
Definition demo_counts (j : nat) : Z * Z * Z :=
  (5 * Z.of_nat j, 5 * Z.of_nat j, 5 * Z.of_nat j).

(** Three purchase dates. *)
Definition demo_dates : list datetime :=
  [mkDatetime 737000 0; mkDatetime 737003 3600; mkDatetime 737007 86399].

(** * Auxiliary facts *)

Example b64_one_plus_14 :
  B64.add (B64.of_Z 1) (B64.div (B64.of_Z 14) (B64.of_Z 100))
  = S754_finite false 5134103575202366 (-52).
Proof. vm_compute. reflexivity. Qed.

Example b64_114 :
  B64.div (B64.of_Z 114) (B64.of_Z 100) = S754_finite false 5134103575202365 (-52).
Proof. vm_compute. reflexivity. Qed.

Example b64_round2_114 :
  B64.round2 (S754_finite false 5134103575202366 (-52))
  = S754_finite false 5134103575202365 (-52).
Proof. vm_compute. reflexivity. Qed.

Lemma map_fmap {A B} (f : A -> B) (l : list A) : map f l = f <$> l.
Proof. reflexivity. Qed.

Lemma filter_none {A} (P : A -> Prop) `{!forall x, Decision (P x)} (l : list A) :
  (forall z, z ∈ l -> ~ P z) -> filter P l = [].
Proof.
  induction l as [|c l IH]; intros Hnone; [reflexivity|].
  rewrite filter_cons_False by (apply Hnone; left).
  apply IH. intros z Hz. apply Hnone. right. exact Hz.
Qed.

Lemma filter_all {A} (P : A -> Prop) `{!forall x, Decision (P x)} (l : list A) :
  (forall z, z ∈ l -> P z) -> filter P l = l.
Proof.
  induction l as [|c l IH]; intros Hall; [reflexivity|].
  rewrite filter_cons_True by (apply Hall; left).
  f_equal. apply IH. intros z Hz. apply Hall. right. exact Hz.
Qed.

(** * Properties of the age buckets *)

(** What [pd.cut] computes on the ages the generator produces: the bins are
    closed on the right, the first one also on the left, and nothing above
    90 has a bin. *)
Lemma pd_cut_age (age : Z) :
  18 <= age <= 91 ->
  pd_cut bins true age =
    if age <=? 30 then Some 0%nat
    else if age <=? 40 then Some 1%nat
    else if age <=? 50 then Some 2%nat
    else if age <=? 60 then Some 3%nat
    else if age <=? 70 then Some 4%nat
    else if age <=? 90 then Some 5%nat
    else None.
Proof.
  intros Hage. destruct (decide (age = 18)) as [->|Hlow]; [reflexivity|].
  unfold pd_cut, bins. cbn [searchsorted_left head length andb].
  rewrite (bool_decide_eq_false_2 (Some age = Some 18)) by congruence.
  repeat match goal with
         | |- context [?a <? ?b] => destruct (Z.ltb_spec a b); try lia
         | |- context [?a <=? ?b] => destruct (Z.leb_spec a b); try lia
         end; reflexivity.
Qed.

(** Away from the bin edges and below 91 the code and the half-open bins of
    the specification agree, and exactly one bucket column is set. *)
Lemma age_columns_off_edges (age : Z) :
  18 <= age <= 90 ->
  age ∉ [30; 40; 50; 60; 70] ->
  pd_cut bins true age = spec_bucket age /\ bucket_sum (age_columns age) = 1.
Proof.
  intros Hage Hedge.
  rewrite !not_elem_of_cons in Hedge. destruct Hedge as (? & ? & ? & ? & ? & _).
  unfold age_columns. rewrite pd_cut_age by lia. unfold spec_bucket.
  repeat match goal with
         | |- context [?a <? ?b] => destruct (Z.ltb_spec a b); try lia
         | |- context [?a <=? ?b] => destruct (Z.leb_spec a b); try lia
         end; split; reflexivity.
Qed.

(** C1 (the code at the ages where it leaves the bins of the claim): age 30
    is labelled 18-29 although the claim's bin [30,40) is labelled 30-39,
    and age 91, which the generator produces, gets no bucket at all: its six
    bucket columns sum to 0, not 1. *)
Theorem age_buckets_at_30_and_91 :
  age_range 30 = Some "18-29"%string
  /\ pd_cut bins true 30 = Some 0%nat /\ spec_bucket 30 = Some 1%nat
  /\ age_columns 30 = [("age_18-29", 1); ("age_30-39", 0); ("age_40-49", 0);
                       ("age_50-59", 0); ("age_60-69", 0); ("age_70-plus", 0)]%string
  /\ age_range 91 = None /\ spec_bucket 91 = Some 5%nat
  /\ age_columns 91 = [("age_18-29", 0); ("age_30-39", 0); ("age_40-49", 0);
                       ("age_50-59", 0); ("age_60-69", 0); ("age_70-plus", 0)]%string
  /\ bucket_sum (age_columns 91) = 0.
Proof. repeat split; vm_compute; reflexivity. Qed.

(** * Properties of the generator *)

Section GeneratorFacts.
Context `{RS : RandomSource}.

(** ** Runs with the same seed *)

Lemma sim_ret {A} (R : A -> A -> Prop) s a1 a2 :
  R a1 a2 -> sim_M R s s (ret a1) (ret a2).
Proof. intros Ha w1 w2 Hw. split; assumption. Qed.

Lemma sim_raise {A} (R : A -> A -> Prop) s s' e : sim_M R s s' (raise e) (raise e).
Proof. intros w1 w2 _. reflexivity. Qed.

Lemma sim_bind {A B} (RA : A -> A -> Prop) (RB : B -> B -> Prop) s s1 s2
      (m1 m2 : M A) (k1 k2 : A -> M B) :
  sim_M RA s s1 m1 m2 ->
  (forall a1 a2, RA a1 a2 -> sim_M RB s1 s2 (k1 a1) (k2 a2)) ->
  sim_M RB s s2 (bind m1 k1) (bind m2 k2).
Proof.
  intros Hm Hk w1 w2 Hw. specialize (Hm w1 w2 Hw). unfold bind, sim_result in *.
  destruct (m1 w1) as [[a1 w1']|e1], (m2 w2) as [[a2 w2']|e2]; try done.
  destruct Hm as [Ha Hw']. exact (Hk a1 a2 Ha w1' w2' Hw').
Qed.

Lemma sim_draw_mt {A} s (f : mt_state -> A * mt_state) :
  sim_M eq s s (draw_mt f) (draw_mt f).
Proof.
  intros w1 w2 (Hmt & Hfk & Hc & Hp & Ho). unfold draw_mt. rewrite Hmt.
  destruct (f (mt w2)) as [a g]. split; [reflexivity|].
  exact (conj eq_refl (conj Hfk (conj Hc (conj Hp Ho)))).
Qed.

Lemma sim_draw_fk {A} s (f : fk_state -> A * fk_state) :
  sim_M eq s s (draw_fk f) (draw_fk f).
Proof.
  intros w1 w2 (Hmt & Hfk & Hc & Hp & Ho). unfold draw_fk. rewrite Hfk.
  destruct (f (fk w2)) as [a g]. split; [reflexivity|].
  exact (conj Hmt (conj eq_refl (conj Hc (conj Hp Ho)))).
Qed.

Lemma sim_event_timestamp wall1 wall2 s :
  sim_M (fun _ _ => True) s s (generate_event_timestamp wall1)
        (generate_event_timestamp wall2).
Proof.
  intros w1 w2 (Hmt & Hfk & Hc & Hp & Ho). split; [exact I|].
  exact (conj Hmt (conj Hfk (conj Hc (conj Hp Ho)))).
Qed.

Lemma sim_randint s a b : sim_M eq s s (randint a b) (randint a b).
Proof.
  unfold randint. eapply sim_bind; [apply sim_draw_mt|].
  intros k1 k2 ->. apply sim_ret. reflexivity.
Qed.

Lemma sim_choice {A} s (pool : list A) : sim_M eq s s (choice pool) (choice pool).
Proof.
  unfold choice. destruct pool as [|x pool]; [apply sim_raise|].
  eapply sim_bind; [apply sim_draw_mt|]. intros i1 i2 ->.
  destruct ((x :: pool) !! i2); [apply sim_ret; reflexivity | apply sim_raise].
Qed.

Lemma sim_random_round2 s : sim_M eq s s random_round2 random_round2.
Proof.
  unfold random_round2. eapply sim_bind; [apply sim_draw_mt|].
  intros k1 k2 ->. apply sim_ret. reflexivity.
Qed.

(** The pools are read once the run has rebuilt them. *)
Lemma sim_customer_ids s :
  rb_customers s = true -> sim_M eq s s (gets customer_ids) (gets customer_ids).
Proof.
  intros Hs w1 w2 Hw. split; [|exact Hw].
  destruct Hw as (_ & _ & Hc & _). exact (proj2 (Hc Hs)).
Qed.

Lemma sim_product_ids s :
  rb_products s = true -> sim_M eq s s (gets product_ids) (gets product_ids).
Proof.
  intros Hs w1 w2 Hw. split; [|exact Hw].
  destruct Hw as (_ & _ & _ & Hp & _). exact (Hp Hs).
Qed.

Lemma sim_generate_customer wall1 wall2 i s :
  sim_M (fun c1 c2 => customer_attrs c1 = customer_attrs c2) s s
        (generate_customer wall1 i) (generate_customer wall2 i).
Proof.
  unfold generate_customer, generate_timestamp.
  eapply sim_bind; [apply sim_draw_fk|]. intros p1 p2 ->.
  eapply sim_bind; [apply sim_draw_fk|]. intros s1 s2 ->.
  eapply sim_bind; [apply sim_randint|]. intros a1 a2 ->.
  eapply sim_bind; [apply sim_draw_fk|]. intros b1 b2 ->.
  eapply sim_bind; [apply sim_draw_fk|]. intros t1 t2 ->.
  eapply sim_bind; [apply sim_event_timestamp|]. intros e1 e2 _.
  apply sim_ret. reflexivity.
Qed.

Lemma sim_generate_order wall1 wall2 i s :
  rb_customers s = true -> rb_products s = true ->
  sim_M (fun o1 o2 => order_attrs o1 = order_attrs o2) s s
        (generate_order wall1 i) (generate_order wall2 i).
Proof.
  intros Hc Hp. unfold generate_order, generate_timestamp.
  eapply sim_bind; [apply sim_customer_ids, Hc|]. intros ids1 ids2 ->.
  eapply sim_bind; [apply sim_choice|]. intros c1 c2 ->.
  eapply sim_bind; [apply sim_product_ids, Hp|]. intros pids1 pids2 ->.
  eapply sim_bind; [apply sim_choice|]. intros p1 p2 ->.
  eapply sim_bind; [apply sim_randint|]. intros n1 n2 ->.
  eapply sim_bind; [apply sim_random_round2|]. intros f1 f2 ->.
  eapply sim_bind; [apply sim_choice|]. intros r1 r2 ->.
  eapply sim_bind; [apply sim_draw_fk|]. intros t1 t2 ->.
  eapply sim_bind; [apply sim_event_timestamp|]. intros e1 e2 _.
  apply sim_ret. reflexivity.
Qed.

Lemma sim_for_range (b1 b2 : nat -> M unit) n s :
  (forall i, sim_M eq s s (b1 i) (b2 i)) ->
  forall i, sim_M eq s s (for_range b1 i n) (for_range b2 i n).
Proof.
  intros Hb. induction n as [|n IH]; intros i; simpl.
  - apply sim_ret. reflexivity.
  - eapply sim_bind; [apply Hb|]. intros _ _ _. apply IH.
Qed.

Lemma sim_append_customer wall1 wall2 i s :
  rb_customers s = true ->
  sim_M eq s s (append_customer wall1 i) (append_customer wall2 i).
Proof.
  intros Hs. unfold append_customer.
  eapply sim_bind; [apply sim_generate_customer|]. intros c1 c2 Hc.
  intros w1 w2 (Hmt & Hfk & Hcs & Hp & Ho). split; [reflexivity|].
  destruct (Hcs Hs) as [Hattrs Hids].
  refine (conj Hmt (conj Hfk (conj (fun _ => _) (conj Hp Ho)))). simpl. split.
  - rewrite !map_app, Hattrs. simpl. rewrite Hc. reflexivity.
  - rewrite Hids. unfold customer_attrs in Hc. congruence.
Qed.

Lemma sim_append_order wall1 wall2 i s :
  rb_customers s = true -> rb_products s = true ->
  sim_M eq s s (append_order wall1 i) (append_order wall2 i).
Proof.
  intros Hc Hp. unfold append_order.
  eapply sim_bind; [apply sim_generate_order; assumption|]. intros o1 o2 Hoo.
  intros w1 w2 (Hmt & Hfk & Hcs & Hps & Ho). split; [reflexivity|].
  refine (conj Hmt (conj Hfk (conj Hcs (conj Hps (fun Hs => _))))). simpl.
  rewrite !map_app, (Ho Hs). simpl. rewrite Hoo. reflexivity.
Qed.

(** Seeding makes the generators of two runs agree, whatever they were. *)
Lemma sim_cell_seed seed (w1 w2 : World) :
  sim_world (mkRebuilt false false false)
    (with_fk (seed_instance seed) (with_mt (random_seed seed) w1))
    (with_fk (seed_instance seed) (with_mt (random_seed seed) w2)).
Proof.
  refine (conj eq_refl (conj eq_refl (conj _ (conj _ _)))); simpl; discriminate.
Qed.

(** Each table is emptied or assigned before the run reads it. *)
Lemma sim_reset_customers s :
  sim_M eq s (mkRebuilt true (rb_products s) (rb_orders s))
        (modify (with_customers [] [])) (modify (with_customers [] [])).
Proof.
  intros w1 w2 (Hmt & Hfk & _ & Hp & Ho). split; [reflexivity|].
  exact (conj Hmt (conj Hfk (conj (fun _ => conj eq_refl eq_refl) (conj Hp Ho)))).
Qed.

Lemma sim_set_product_ids s ids :
  sim_M eq s (mkRebuilt (rb_customers s) true (rb_orders s))
        (modify (with_product_ids ids)) (modify (with_product_ids ids)).
Proof.
  intros w1 w2 (Hmt & Hfk & Hc & _ & Ho). split; [reflexivity|].
  exact (conj Hmt (conj Hfk (conj Hc (conj (fun _ => eq_refl) Ho)))).
Qed.

Lemma sim_reset_orders s :
  sim_M eq s (mkRebuilt (rb_customers s) (rb_products s) true)
        (modify (with_orders [])) (modify (with_orders [])).
Proof.
  intros w1 w2 (Hmt & Hfk & Hc & Hp & _). split; [reflexivity|].
  exact (conj Hmt (conj Hfk (conj Hc (conj Hp (fun _ => eq_refl))))).
Qed.

(** The cells after the seeding, from seeded generators. *)
Lemma sim_cells wall1 wall2 n m file :
  sim_M eq (mkRebuilt false false false) (mkRebuilt true true true)
    (bind (generate_customer wall1 1) (fun _ =>
     bind (cell_customers wall1 n) (fun _ =>
     bind (cell_products wall1 file) (fun _ =>
     bind (generate_order wall1 1) (fun _ => cell_orders wall1 m)))))
    (bind (generate_customer wall2 1) (fun _ =>
     bind (cell_customers wall2 n) (fun _ =>
     bind (cell_products wall2 file) (fun _ =>
     bind (generate_order wall2 1) (fun _ => cell_orders wall2 m))))).
Proof.
  unfold cell_customers, cell_products, cell_orders.
  eapply sim_bind; [apply sim_generate_customer|]. intros _ _ _.
  eapply sim_bind.
  { eapply sim_bind; [apply sim_reset_customers|].
    intros _ _ _. apply sim_for_range. intros i.
    apply sim_append_customer. reflexivity. }
  intros _ _ _. eapply sim_bind.
  { eapply sim_bind.
    - apply sim_for_range. intros i.
      eapply sim_bind; [apply sim_event_timestamp|]. intros _ _ _.
      apply sim_ret. reflexivity.
    - intros _ _ _. apply sim_set_product_ids. }
  intros _ _ _. eapply sim_bind; [apply sim_generate_order; reflexivity|].
  intros _ _ _. eapply sim_bind; [apply sim_reset_orders|].
  intros _ _ _. apply sim_for_range. intros i.
  apply sim_append_order; reflexivity.
Qed.

Lemma sim_generation_run wall1 wall2 seed n m file (w1 w2 : World) :
  sim_result eq (mkRebuilt true true true)
    (generation_run wall1 seed n m file w1) (generation_run wall2 seed n m file w2).
Proof.
  exact (sim_cells wall1 wall2 n m file _ _ (sim_cell_seed seed w1 w2)).
Qed.

(** C2: two generation runs with the same seed, the same counts and the
    same product file give the same customer and order attributes,
    whatever the states of the generators and of the tables in which the
    two runs start and whatever their clock readings are: the seeding
    overwrites the generators, every table is rebuilt before it is read,
    and only the event times may differ.  A run that raises does so in
    both.  In particular the tables [generate] returns are the same. *)
Theorem generation_deterministic (wall1 wall2 : nat -> Z) (seed : Z) (n m : nat)
        (file : list Product.t) (w1 w2 : World) :
  match generation_run wall1 seed n m file w1, generation_run wall2 seed n m file w2 with
  | Ok (_, w1'), Ok (_, w2') =>
      map customer_attrs (customers w1') = map customer_attrs (customers w2')
      /\ map order_attrs (orders w1') = map order_attrs (orders w2')
  | Raise e1, Raise e2 => e1 = e2
  | _, _ => False
  end
  /\ match generate wall1 seed n m file, generate wall2 seed n m file with
     | Ok (cs1, os1), Ok (cs2, os2) =>
         map customer_attrs cs1 = map customer_attrs cs2
         /\ map order_attrs os1 = map order_attrs os2
     | Raise e1, Raise e2 => e1 = e2
     | _, _ => False
     end.
Proof.
  split.
  - pose proof (sim_generation_run wall1 wall2 seed n m file w1 w2) as H.
    unfold sim_result in H.
    destruct (generation_run wall1 seed n m file w1) as [[[] w1']|e1],
             (generation_run wall2 seed n m file w2) as [[[] w2']|e2];
      try done.
    destruct H as [_ (_ & _ & Hcs & _ & Hos)].
    split; [exact (proj1 (Hcs eq_refl)) | exact (Hos eq_refl)].
  - unfold generate.
    pose proof (sim_generation_run wall1 wall2 seed n m file
                  initial_world initial_world) as H.
    unfold sim_result in H.
    destruct (generation_run wall1 seed n m file initial_world) as [[[] w1']|e1],
             (generation_run wall2 seed n m file initial_world) as [[[] w2']|e2];
      try done.
    destruct H as [_ (_ & _ & Hcs & _ & Hos)].
    split; [exact (proj1 (Hcs eq_refl)) | exact (Hos eq_refl)].
Qed.

(** ** What a successful step leaves behind *)

Lemma same_tables_refl (w : World) : same_tables w w.
Proof. repeat split. Qed.

Lemma same_tables_trans (w1 w2 w3 : World) :
  same_tables w1 w2 -> same_tables w2 w3 -> same_tables w1 w3.
Proof. unfold same_tables. intros (-> & -> & -> & ->) (-> & -> & -> & ->). done. Qed.

Lemma bind_Ok {A B} (m : M A) (k : A -> M B) w b w' :
  bind m k w = Ok (b, w') ->
  exists a w1, m w = Ok (a, w1) /\ k a w1 = Ok (b, w').
Proof.
  unfold bind. destruct (m w) as [[a w1]|e]; [|discriminate].
  intros H. exists a, w1. split; [reflexivity | exact H].
Qed.

Lemma draw_mt_Ok {A} (f : mt_state -> A * mt_state) w a w' :
  draw_mt f w = Ok (a, w') -> a = fst (f (mt w)) /\ same_tables w w'.
Proof.
  unfold draw_mt. destruct (f (mt w)) as [a0 g]. intros [= <- <-].
  split; [reflexivity | repeat split].
Qed.

Lemma draw_fk_Ok {A} (f : fk_state -> A * fk_state) w a w' :
  draw_fk f w = Ok (a, w') -> same_tables w w'.
Proof.
  unfold draw_fk. destruct (f (fk w)) as [a0 g]. intros [= <- <-]. repeat split.
Qed.

Lemma event_timestamp_Ok wall w a w' :
  generate_event_timestamp wall w = Ok (a, w') -> same_tables w w'.
Proof. intros [= <- <-]. repeat split. Qed.

Lemma randint_Ok (a b : Z) w x w' :
  a <= b -> randint a b w = Ok (x, w') -> a <= x <= b /\ same_tables w w'.
Proof.
  intros Hab H. apply bind_Ok in H as (k & w1 & Hk & [= <- <-]).
  apply draw_mt_Ok in Hk as [-> Hw]. split; [|exact Hw].
  pose proof (randbelow_lt (Z.to_nat (b - a + 1)) (mt w)). lia.
Qed.

Lemma choice_Ok {A} (pool : list A) w x w' :
  choice pool w = Ok (x, w') -> x ∈ pool /\ same_tables w w'.
Proof.
  unfold choice. destruct pool as [|y pool]; [discriminate|].
  intros H. apply bind_Ok in H as (i & w1 & Hi & H).
  apply draw_mt_Ok in Hi as [_ Hw].
  destruct ((y :: pool) !! i) as [z|] eqn:Hz; [|discriminate].
  injection H as <- <-. split; [|exact Hw].
  eapply list_elem_of_lookup_2, Hz.
Qed.

(** [random.choice] succeeds on every pool that is not empty. *)
Lemma choice_total {A} (pool : list A) w :
  pool <> [] -> exists x w', choice pool w = Ok (x, w').
Proof.
  intros Hne. destruct pool as [|y pool]; [done|].
  unfold choice, bind, draw_mt.
  pose proof (randbelow_lt (length (y :: pool)) (mt w)) as Hlt.
  destruct (randbelow (length (y :: pool)) (mt w)) as [i g]. simpl in Hlt.
  destruct (lookup_lt_is_Some_2 (y :: pool) i) as [z Hz]; [simpl; lia|].
  rewrite Hz. eauto.
Qed.

Lemma round_half_even_unit (k : Z) :
  0 <= k < 2 ^ 53 -> 0 <= B64.round_half_even (100 * k) (2 ^ 53) <= 100.
Proof.
  intros Hk. unfold B64.round_half_even.
  assert (Hq : 0 < 2 ^ 53) by reflexivity.
  pose proof (Z.mod_pos_bound (100 * k) (2 ^ 53) Hq) as Hr.
  pose proof (Z.div_mod (100 * k) (2 ^ 53) ltac:(lia)) as Hdm.
  assert (Hd0 : 0 <= 100 * k / 2 ^ 53) by (apply Z.div_pos; lia).
  assert (Hd1 : 100 * k / 2 ^ 53 < 100) by (apply Z.div_lt_upper_bound; lia).
  destruct (2 * ((100 * k) mod 2 ^ 53) ?= 2 ^ 53); [destruct (Z.even _)|..]; lia.
Qed.

Lemma random_round2_Ok w x w' :
  random_round2 w = Ok (x, w') ->
  (exists h, 0 <= h <= 100 /\ x = B64.div (B64.of_Z h) (B64.of_Z 100))
  /\ same_tables w w'.
Proof.
  intros H. apply bind_Ok in H as (k & w1 & Hk & [= <- <-]).
  apply draw_mt_Ok in Hk as [-> Hw]. split; [|exact Hw].
  eexists. split; [|reflexivity].
  apply round_half_even_unit, random53_range.
Qed.

(** Every field of a generated order, traced back to the draw it comes
    from. *)
Lemma generate_order_Ok wall i w o w' :
  generate_order wall i w = Ok (o, w') ->
  same_tables w w'
  /\ Order.order_id o = fmt_id "O" i
  /\ Order.customer_id o ∈ customer_ids w
  /\ Order.product_id o ∈ product_ids w
  /\ (exists n h, 1 <= n <= 101 /\ 0 <= h <= 100
        /\ Order.purchase_amount o
           = B64.add (B64.of_Z n) (B64.div (B64.of_Z h) (B64.of_Z 100)))
  /\ Order.is_reordered o ∈ reorder_choices.
Proof.
  intros H. unfold generate_order in H.
  apply bind_Ok in H as (ids & w1 & [= <- <-] & H).
  apply bind_Ok in H as (cid & w2 & Hc & H). apply choice_Ok in Hc as [Hcid Hw2].
  apply bind_Ok in H as (pids & w3 & [= <- <-] & H).
  apply bind_Ok in H as (pid & w4 & Hp & H). apply choice_Ok in Hp as [Hpid Hw4].
  apply bind_Ok in H as (n & w5 & Hn & H).
  apply randint_Ok in Hn as [Hn Hw5]; [|lia].
  apply bind_Ok in H as (frac & w6 & Hf & H).
  apply random_round2_Ok in Hf as [(h & Hh & ->) Hw6].
  apply bind_Ok in H as (r & w7 & Hr & H). apply choice_Ok in Hr as [Hr Hw7].
  apply bind_Ok in H as (t & w8 & Ht & H). apply draw_fk_Ok in Ht as Hw8.
  apply bind_Ok in H as (e & w9 & He & H). apply event_timestamp_Ok in He as Hw9.
  injection H as <- <-. simpl.
  assert (Hw : same_tables w w9) by eauto 10 using same_tables_trans.
  split; [exact Hw|]. split; [reflexivity|].
  destruct Hw2 as (_ & _ & Hpids & _).
  split; [exact Hcid|]. split; [rewrite <- Hpids; exact Hpid|].
  split; [exists n, h; done | exact Hr].
Qed.

Lemma generate_customer_Ok wall i w c w' :
  generate_customer wall i w = Ok (c, w') ->
  same_tables w w' /\ Customer.customer_id c = fmt_id "C" i
  /\ 18 <= Customer.age c <= 91.
Proof.
  intros H. unfold generate_customer, generate_timestamp in H.
  apply bind_Ok in H as (p & w1 & Hp & H). apply draw_fk_Ok in Hp as Hw1.
  apply bind_Ok in H as (s & w2 & Hs & H). apply draw_fk_Ok in Hs as Hw2.
  apply bind_Ok in H as (a & w3 & Ha & H). apply randint_Ok in Ha as [Ha Hw3]; [|lia].
  apply bind_Ok in H as (b & w4 & Hb & H). apply draw_fk_Ok in Hb as Hw4.
  apply bind_Ok in H as (t & w5 & Ht & H). apply draw_fk_Ok in Ht as Hw5.
  apply bind_Ok in H as (e & w6 & He & H). apply event_timestamp_Ok in He as Hw6.
  injection H as <- <-. simpl.
  split; [eauto 10 using same_tables_trans | done].
Qed.

(** ** The loops of a run *)

Lemma for_range_append_customer wall n : forall i w u w',
  for_range (append_customer wall) i n w = Ok (u, w') ->
  exists new, customers w' = customers w ++ new
    /\ customer_ids w' = customer_ids w ++ map Customer.customer_id new
    /\ length new = n
    /\ product_ids w' = product_ids w /\ orders w' = orders w.
Proof.
  induction n as [|n IH]; intros i w u w' H; simpl in H.
  - injection H as <- <-. exists []. rewrite !app_nil_r. done.
  - apply bind_Ok in H as ([] & w1 & Hb & H).
    unfold append_customer in Hb.
    apply bind_Ok in Hb as (c & w0 & Hc & [= <-]).
    apply generate_customer_Ok in Hc as ((Hcs & Hids & Hp & Ho) & _).
    apply IH in H as (new & Hcs' & Hids' & Hlen & Hp' & Ho'). simpl in *.
    exists (c :: new). rewrite Hcs', Hids', Hp', Ho', Hcs, Hids, Hp, Ho.
    rewrite <- !app_assoc. simpl. rewrite Hlen. done.
Qed.

Lemma for_range_append_order wall n : forall i w u w',
  for_range (append_order wall) i n w = Ok (u, w') ->
  exists new, orders w' = orders w ++ new
    /\ length new = n
    /\ customers w' = customers w /\ customer_ids w' = customer_ids w
    /\ product_ids w' = product_ids w
    /\ forall o, o ∈ new ->
         Order.customer_id o ∈ customer_ids w /\ Order.product_id o ∈ product_ids w.
Proof.
  induction n as [|n IH]; intros i w u w' H; simpl in H.
  - injection H as <- <-. exists []. rewrite !app_nil_r.
    repeat split; try done;
      match goal with H : _ ∈ [] |- _ => inversion H end.
  - apply bind_Ok in H as ([] & w1 & Hb & H).
    unfold append_order in Hb.
    apply bind_Ok in Hb as (o1 & w0 & Hg & [= <-]).
    apply generate_order_Ok in Hg as ((Hcs & Hids & Hp & Ho) & _ & Hcid & Hpid & _).
    apply IH in H as (new & Ho' & Hlen & Hcs' & Hids' & Hp' & Hall). simpl in *.
    exists (o1 :: new). rewrite Ho', Hcs', Hids', Hp', Hcs, Hids, Hp, Ho.
    rewrite <- !app_assoc. simpl. rewrite Hlen.
    repeat split; try done.
    + apply elem_of_cons in H as [->|Hin]; [exact Hcid|].
      apply Hall in Hin as [Hin _]. rewrite <- Hids. exact Hin.
    + apply elem_of_cons in H as [->|Hin]; [exact Hpid|].
      apply Hall in Hin as [_ Hin]. rewrite <- Hp. exact Hin.
Qed.

Lemma for_range_event_timestamps wall n : forall i w u w',
  for_range (fun _ => bind (generate_event_timestamp wall) (fun _ => ret tt)) i n w
  = Ok (u, w') -> same_tables w w'.
Proof.
  induction n as [|n IH]; intros i w u w' H; simpl in H.
  - injection H as <- <-. apply same_tables_refl.
  - apply bind_Ok in H as ([] & w1 & Hb & H).
    apply bind_Ok in Hb as (e & w0 & He & [= <-]).
    apply event_timestamp_Ok in He. apply IH in H.
    eapply same_tables_trans; eassumption.
Qed.

(** The tables at the end of a run. *)
Lemma generation_run_Ok wall seed n m file w u w' :
  generation_run wall seed n m file w = Ok (u, w') ->
  customer_ids w' = map Customer.customer_id (customers w')
  /\ length (customers w') = n /\ length (orders w') = m
  /\ product_ids w' = map Product.product_id file
  /\ forall o, o ∈ orders w' ->
       Order.customer_id o ∈ customer_ids w' /\ Order.product_id o ∈ product_ids w'.
Proof.
  intros H. unfold generation_run in H.
  apply bind_Ok in H as ([] & w1 & [= <-] & H).
  apply bind_Ok in H as (c0 & w2 & Hc0 & H).
  apply bind_Ok in H as ([] & w3 & Hcs & H).
  unfold cell_customers in Hcs.
  apply bind_Ok in Hcs as ([] & w2' & [= <-] & Hcs).
  apply for_range_append_customer in Hcs as (cs & Hcs & Hids & Hlen & _ & _).
  simpl in Hcs, Hids.
  apply bind_Ok in H as ([] & w4 & Hps & H).
  unfold cell_products in Hps.
  apply bind_Ok in Hps as ([] & w3' & Hts & [= <-]).
  apply for_range_event_timestamps in Hts as (Hcs3 & Hids3 & _ & _).
  apply bind_Ok in H as (o0 & w5 & Ho0 & H).
  apply generate_order_Ok in Ho0 as ((Hcs5 & Hids5 & Hp5 & _) & _). simpl in *.
  unfold cell_orders in H.
  apply bind_Ok in H as ([] & w5' & [= <-] & H).
  apply for_range_append_order in H as (os & Hos & Hlenm & Hcs6 & Hids6 & Hp6 & Hall).
  simpl in *.
  rewrite Hcs6, Hids6, Hp6, Hos, Hcs5, Hids5, Hp5, Hcs3, Hids3, Hcs, Hids.
  repeat split; try done.
  - apply Hall in H as [H _]. rewrite Hids5, Hids3, Hids in H. exact H.
  - apply Hall in H as [_ H]. rewrite Hp5 in H. exact H.
Qed.

(** ** A run returns its tables *)

Ltac chain_tables :=
  cbv beta in *;
  repeat first [ eassumption | eapply same_tables_trans; [eassumption|] ].

Lemma succeeds_mono {A} (m : M A) w (Q Q' : A -> World -> Prop) :
  succeeds m w Q -> (forall a w', Q a w' -> Q' a w') -> succeeds m w Q'.
Proof. intros (a & w' & Hm & HQ) Himp. exists a, w'. auto. Qed.

Lemma succeeds_bind {A B} (m : M A) (k : A -> M B) w (Q : B -> World -> Prop) :
  succeeds m w (fun a w1 => succeeds (k a) w1 Q) -> succeeds (bind m k) w Q.
Proof.
  intros (a & w1 & Hm & b & w' & Hk & HQ). exists b, w'.
  unfold bind. rewrite Hm. auto.
Qed.

Lemma succeeds_draw_mt {A} (f : mt_state -> A * mt_state) w :
  succeeds (draw_mt f) w (fun a w' => a = fst (f (mt w)) /\ same_tables w w').
Proof.
  unfold succeeds, draw_mt. destruct (f (mt w)) as [a g].
  eexists _, _. split; [reflexivity|]. repeat split.
Qed.

Lemma succeeds_draw_fk {A} (f : fk_state -> A * fk_state) w :
  succeeds (draw_fk f) w (fun _ w' => same_tables w w').
Proof.
  unfold succeeds, draw_fk. destruct (f (fk w)) as [a g].
  eexists _, _. split; [reflexivity|]. repeat split.
Qed.

Lemma succeeds_choice {A} (pool : list A) w :
  pool <> [] -> succeeds (choice pool) w (fun _ w' => same_tables w w').
Proof.
  intros Hne. destruct (choice_total pool w Hne) as (x & w' & H).
  exists x, w'. split; [exact H|]. apply choice_Ok in H as [_ H]. exact H.
Qed.

Lemma generate_customer_total wall i w :
  succeeds (generate_customer wall i) w (fun _ w' => same_tables w w').
Proof.
  unfold generate_customer, generate_timestamp, randint.
  apply succeeds_bind. eapply succeeds_mono; [apply succeeds_draw_fk|].
  intros p w1 H1. apply succeeds_bind. eapply succeeds_mono; [apply succeeds_draw_fk|].
  intros st w2 H2. apply succeeds_bind. apply succeeds_bind.
  eapply succeeds_mono; [apply succeeds_draw_mt|].
  intros k w3 [_ H3]. exists (18 + Z.of_nat k), w3. split; [reflexivity|].
  apply succeeds_bind. eapply succeeds_mono; [apply succeeds_draw_fk|].
  intros b w4 H4. apply succeeds_bind. eapply succeeds_mono; [apply succeeds_draw_fk|].
  intros t w5 H5. apply succeeds_bind.
  exists (wall (ticks w5)), (with_ticks (S (ticks w5)) w5). split; [reflexivity|].
  eexists _, _. split; [reflexivity|].
  assert (H6 : same_tables w5 (with_ticks (S (ticks w5)) w5)) by (repeat split).
  chain_tables.
Qed.

Lemma generate_order_total wall i w :
  customer_ids w <> [] -> product_ids w <> [] ->
  succeeds (generate_order wall i) w (fun _ w' => same_tables w w').
Proof.
  intros Hc Hp. unfold generate_order, generate_timestamp, randint, random_round2.
  apply succeeds_bind. exists (customer_ids w), w. split; [reflexivity|].
  apply succeeds_bind. eapply succeeds_mono; [apply succeeds_choice, Hc|].
  intros cid w1 H1. apply succeeds_bind.
  exists (product_ids w1), w1. split; [reflexivity|].
  apply succeeds_bind. eapply succeeds_mono.
  { apply succeeds_choice. destruct H1 as (_ & _ & -> & _). exact Hp. }
  intros pid w2 H2. apply succeeds_bind. apply succeeds_bind.
  eapply succeeds_mono; [apply succeeds_draw_mt|].
  intros k w3 [_ H3]. exists (1 + Z.of_nat k), w3. split; [reflexivity|].
  apply succeeds_bind. apply succeeds_bind.
  eapply succeeds_mono; [apply succeeds_draw_mt|].
  intros k53 w4 [_ H4]. eexists _, w4. split; [reflexivity|].
  apply succeeds_bind. eapply succeeds_mono; [apply (succeeds_choice reorder_choices); done|].
  intros r w5 H5. apply succeeds_bind. eapply succeeds_mono; [apply succeeds_draw_fk|].
  intros t w6 H6. apply succeeds_bind.
  exists (wall (ticks w6)), (with_ticks (S (ticks w6)) w6). split; [reflexivity|].
  eexists _, _. split; [reflexivity|].
  assert (H7 : same_tables w6 (with_ticks (S (ticks w6)) w6)) by (repeat split).
  chain_tables.
Qed.

Lemma for_range_append_customer_total wall n : forall i w,
  succeeds (for_range (append_customer wall) i n) w (fun _ _ => True).
Proof.
  induction n as [|n IH]; intros i w; simpl.
  - exists tt, w. done.
  - apply succeeds_bind. unfold append_customer at 1. apply succeeds_bind.
    eapply succeeds_mono; [apply generate_customer_total|].
    intros c w1 _. eexists tt, _. split; [reflexivity|]. apply IH.
Qed.

Lemma for_range_append_order_total wall n : forall i w,
  customer_ids w <> [] -> product_ids w <> [] ->
  succeeds (for_range (append_order wall) i n) w (fun _ _ => True).
Proof.
  induction n as [|n IH]; intros i w Hc Hp; simpl.
  - exists tt, w. done.
  - apply succeeds_bind. unfold append_order at 1. apply succeeds_bind.
    eapply succeeds_mono; [apply generate_order_total; assumption|].
    intros o w1 (_ & Hids & Hpids & _). eexists tt, _. split; [reflexivity|].
    apply IH; simpl; congruence.
Qed.

Lemma for_range_event_timestamps_total wall n : forall i w,
  succeeds (for_range (fun _ => bind (generate_event_timestamp wall) (fun _ => ret tt)) i n)
           w (fun _ _ => True).
Proof.
  induction n as [|n IH]; intros i w; simpl.
  - exists tt, w. done.
  - apply succeeds_bind. eexists tt, _. split; [reflexivity|]. apply IH.
Qed.

(** With at least one customer and one product a run returns its two
    tables, [n] customers and [m] orders. *)
Lemma generate_total wall seed n m file :
  (0 < n)%nat -> file <> [] ->
  exists cs os, generate wall seed n m file = Ok (cs, os)
    /\ length cs = n /\ length os = m.
Proof.
  intros Hn Hfile.
  assert (Hrun : succeeds (generation_run wall seed n m file) initial_world
                          (fun _ _ => True)).
  { unfold generation_run. apply succeeds_bind. eexists tt, _. split; [reflexivity|].
    apply succeeds_bind. eapply succeeds_mono; [apply generate_customer_total|].
    intros c0 w1 _. apply succeeds_bind.
    destruct (for_range_append_customer_total wall n 0%nat (with_customers [] [] w1))
      as ([] & w2 & Hcs & _).
    unfold cell_customers. apply succeeds_bind.
    eexists tt, _. split; [reflexivity|]. exists tt, w2. split; [exact Hcs|].
    apply for_range_append_customer in Hcs as (cs & _ & Hids & Hlen & _ & _).
    simpl in Hids. apply succeeds_bind.
    destruct (for_range_event_timestamps_total wall (length file) 0%nat w2)
      as ([] & w3 & Hts & _).
    unfold cell_products. apply succeeds_bind. exists tt, w3. split; [exact Hts|].
    eexists tt, _. split; [reflexivity|].
    apply for_range_event_timestamps in Hts as (_ & Hids3 & _ & _).
    assert (Hc : customer_ids (with_product_ids (map Product.product_id file) w3) <> []).
    { simpl. rewrite Hids3, Hids. destruct cs; [simpl in Hlen; lia | discriminate]. }
    assert (Hp : product_ids (with_product_ids (map Product.product_id file) w3) <> []).
    { simpl. destruct file; [done | discriminate]. }
    apply succeeds_bind. eapply succeeds_mono; [apply generate_order_total; assumption|].
    intros o0 w4 (_ & Hids4 & Hp4 & _).
    destruct (for_range_append_order_total wall m 0%nat (with_orders [] w4))
      as ([] & w5 & Hos & _); [simpl; congruence..|].
    unfold cell_orders. apply succeeds_bind.
    eexists tt, _. split; [reflexivity|]. exists tt, w5. split; [exact Hos | exact I]. }
  destruct Hrun as ([] & w & Hrun & _). unfold generate. rewrite Hrun.
  apply generation_run_Ok in Hrun as (_ & Hlc & Hlo & _).
  eauto.
Qed.

(** C3: in the tables a run produces, the customer of every order is one of
    the generated customers and its product is one of the products of the
    mapping file. *)
Theorem order_foreign_keys_resolve (wall : nat -> Z) (seed : Z) (n m : nat)
        (file : list Product.t) (cs : list Customer.t) (os : list Order.t)
        (o : Order.t) :
  generate wall seed n m file = Ok (cs, os) ->
  o ∈ os ->
  Order.customer_id o ∈ map Customer.customer_id cs
  /\ Order.product_id o ∈ map Product.product_id file.
Proof.
  unfold generate. intros Hgen Ho.
  destruct (generation_run wall seed n m file initial_world) as [[u w]|e] eqn:Hrun;
    [|discriminate].
  injection Hgen as <- <-.
  apply generation_run_Ok in Hrun as (Hids & _ & _ & Hpids & Hall).
  apply Hall in Ho as [Hc Hp]. rewrite <- Hids, <- Hpids. done.
Qed.

(** ** The reorder flag and the purchase amount *)

(** The generator state a draw leaves behind. *)
Lemma draw_mt_state {A} (f : mt_state -> A * mt_state) w a w' :
  draw_mt f w = Ok (a, w') ->
  a = fst (f (mt w)) /\ mt w' = snd (f (mt w)) /\ same_tables w w'.
Proof.
  unfold draw_mt. destruct (f (mt w)) as [a0 g]. intros [= <- <-].
  split; [reflexivity|]. split; [reflexivity | repeat split].
Qed.

(** [random.choice] returns the entry at the index it draws. *)
Lemma choice_draw {A} (pool : list A) w x w' :
  choice pool w = Ok (x, w') ->
  pool !! fst (randbelow (length pool) (mt w)) = Some x
  /\ mt w' = snd (randbelow (length pool) (mt w))
  /\ same_tables w w'.
Proof.
  unfold choice. destruct pool as [|y pool]; [discriminate|].
  intros H. apply bind_Ok in H as (i & w1 & Hi & H).
  apply draw_mt_state in Hi as (-> & Hmt & Hw).
  destruct ((y :: pool) !! _) as [z|] eqn:Hz; [|discriminate].
  injection H as <- <-. split; [reflexivity|]. split; [exact Hmt | exact Hw].
Qed.

Lemma randint_draw (a b : Z) w x w' :
  randint a b w = Ok (x, w') -> mt w' = snd (randbelow (Z.to_nat (b - a + 1)) (mt w)).
Proof.
  intros H. apply bind_Ok in H as (k & w1 & Hk & [= <- <-]).
  apply draw_mt_state in Hk as (_ & Hmt & _). exact Hmt.
Qed.

Lemma random_round2_draw w x w' :
  random_round2 w = Ok (x, w') -> mt w' = snd (random53 (mt w)).
Proof.
  intros H. apply bind_Ok in H as (k & w1 & Hk & [= <- <-]).
  apply draw_mt_state in Hk as (_ & Hmt & _). exact Hmt.
Qed.

(** The flag of a generated order is the entry of [1, 1, 0] at the index
    drawn for it. *)
Lemma generate_order_flag wall i w o w' :
  generate_order wall i w = Ok (o, w') ->
  reorder_choices !! reorder_index w = Some (Order.is_reordered o).
Proof.
  intros H. unfold generate_order in H.
  apply bind_Ok in H as (ids & w1 & [= <- <-] & H).
  apply bind_Ok in H as (cid & w2 & Hc & H).
  apply choice_draw in Hc as (_ & Hmt2 & (_ & _ & Hpids & _)).
  apply bind_Ok in H as (pids & w3 & [= <- <-] & H).
  apply bind_Ok in H as (pid & w4 & Hp & H).
  apply choice_draw in Hp as (_ & Hmt4 & _).
  apply bind_Ok in H as (n & w5 & Hn & H). apply randint_draw in Hn as Hmt5.
  apply bind_Ok in H as (frac & w6 & Hf & H). apply random_round2_draw in Hf as Hmt6.
  apply bind_Ok in H as (r & w7 & Hr & H). apply choice_draw in Hr as (Hflag & _).
  apply bind_Ok in H as (t & w8 & Ht & H).
  apply bind_Ok in H as (e & w9 & He & H).
  injection H as <- <-. cbn [Order.is_reordered].
  unfold reorder_index. rewrite <- Hpids, <- Hmt2, <- Hmt4, <- Hmt5, <- Hmt6.
  exact Hflag.
Qed.

(** The event "the flag is [v]" is the event "the index drawn is a position
    of [v]". *)
Lemma flag_favourable (pool : list Z) (k : nat) (flag v : Z) :
  pool !! k = Some flag -> (flag = v <-> k ∈ favourable pool v).
Proof.
  intros Hk. unfold favourable. rewrite list_elem_of_filter, elem_of_seq. split.
  - intros <-. split; [exact Hk|]. apply lookup_lt_Some in Hk. lia.
  - intros [Hv _]. congruence.
Qed.

(** C7: the reorder flag of a generated order is the entry of [1, 1, 0] at
    the index that [random.choice] draws for it, one of three positions:
    the flag is 1 when the index is 0 or 1 and 0 when it is 2, hence always
    0 or 1.  The event that the flag has a value is the event that the
    index is one of the positions of that value; with the index uniform on
    the three positions, the value 1 has probability 2/3, twice the
    probability 1/3 of 0. *)
Theorem reorder_flag_skewed (wall : nat -> Z) (i : nat) (w w' : World) (o : Order.t) :
  generate_order wall i w = Ok (o, w') ->
  Order.is_reordered o ∈ reorder_choices
  /\ (Order.is_reordered o = 0 \/ Order.is_reordered o = 1)
  /\ (reorder_index w < length reorder_choices)%nat
  /\ reorder_choices !! reorder_index w = Some (Order.is_reordered o)
  /\ (forall v, Order.is_reordered o = v
                <-> reorder_index w ∈ favourable reorder_choices v)
  /\ favourable reorder_choices 1 = [0; 1]%nat
  /\ favourable reorder_choices 0 = [2]%nat
  /\ length reorder_choices = 3%nat
  /\ (choice_prob reorder_choices 1 == 2 # 3)%Q
  /\ (choice_prob reorder_choices 0 == 1 # 3)%Q
  /\ (choice_prob reorder_choices 1 == 2 * choice_prob reorder_choices 0)%Q.
Proof.
  intros H. pose proof (generate_order_flag _ _ _ _ _ H) as Hflag.
  apply generate_order_Ok in H as (_ & _ & _ & _ & _ & Hr).
  split; [exact Hr|]. split.
  { unfold reorder_choices in Hr. rewrite !elem_of_cons in Hr.
    destruct Hr as [->|[->|[->|Hr]]]; [right|right|left|inversion Hr]; reflexivity. }
  split; [apply lookup_lt_Some in Hflag; exact Hflag|].
  split; [exact Hflag|].
  split; [intros v; apply flag_favourable, Hflag|].
  repeat split; vm_compute; reflexivity.
Qed.

Lemma forallb_seqZ (f : Z -> bool) (start len x : Z) :
  forallb f (seqZ start len) = true -> start <= x < start + len -> f x = true.
Proof.
  intros Hall Hx. rewrite forallb_forall in Hall.
  apply Hall, list_elem_of_In, elem_of_seqZ. exact Hx.
Qed.

Lemma amount_table :
  forallb (fun n => forallb (amount_ok n) (seqZ 0 101)) (seqZ 1 101) = true.
Proof. vm_compute. reflexivity. Qed.

Lemma amount_ok_range (n h : Z) :
  1 <= n <= 101 -> 0 <= h <= 100 -> amount_ok n h = true.
Proof.
  intros Hn Hh.
  apply (forallb_seqZ (amount_ok n) 0 101 h); [|lia].
  apply (forallb_seqZ (fun n => forallb (amount_ok n) (seqZ 0 101)) 1 101 n); [|lia].
  exact amount_table.
Qed.

(** C10 (amended): the purchase amount is the double sum of an integer in
    1..101 and a fraction that is the double of a two-decimal number in
    [0, 1]; it always lies in [1.0, 102.0]. *)
Theorem purchase_amount_range (wall : nat -> Z) (i : nat) (w w' : World) (o : Order.t) :
  generate_order wall i w = Ok (o, w') ->
  exists n h, 1 <= n <= 101 /\ 0 <= h <= 100
    /\ Order.purchase_amount o
       = B64.add (B64.of_Z n) (B64.div (B64.of_Z h) (B64.of_Z 100))
    /\ B64.two_decimals (B64.div (B64.of_Z h) (B64.of_Z 100)) = true
    /\ B64.leb (B64.of_Z 1) (Order.purchase_amount o) = true
    /\ B64.leb (Order.purchase_amount o) (B64.of_Z 102) = true.
Proof.
  intros H. apply generate_order_Ok in H as (_ & _ & _ & _ & (n & h & Hn & Hh & Ha) & _).
  exists n, h. pose proof (amount_ok_range n h Hn Hh) as Hok.
  unfold amount_ok in Hok. rewrite <- Ha in Hok.
  apply andb_prop in Hok as [Hok H3]. apply andb_prop in Hok as [H1 H2].
  done.
Qed.

End GeneratorFacts.

(** ** The generator on the scripted source *)

Example demo_generate :
  @generate demo_source demo_wall 123 2 2 demo_file
  = Ok (demo_customers, [demo_order1; demo_order2]).
Proof. vm_compute. reflexivity. Qed.

(** A later clock changes the event times and nothing else. *)
Example demo_generate_later :
  @generate demo_source (fun k => 5 + demo_wall k) 123 2 2 demo_file
  = Ok ([Customer.mk "C1" "bob ray" "M" "iowa" 48 false "2020-05-06 12:30:00" 1005;
         Customer.mk "C2" "eve fox" "M" "ohio" 91 false "2020-05-06 12:30:00" 2005],
        [Order.mk "O1" "C2" "P1" (S754_finite false 7247980650299392 (-47)) 0
                  "2017-03-04 10:00:00" 6005;
         Order.mk "O2" "C1" "P1" (S754_finite false 4503599627370496 (-52)) 1
                  "2017-03-04 10:00:00" 7005]).
Proof. vm_compute. reflexivity. Qed.

(** A run started in a used state gives the same attributes. *)
Example demo_generate_again :
  match @generation_run demo_source demo_wall 123 2 2 demo_file used_world with
  | Ok (_, w) =>
      map customer_attrs (customers w) = map customer_attrs demo_customers
      /\ map order_attrs (orders w) = map order_attrs [demo_order1; demo_order2]
  | Raise _ => False
  end.
Proof. vm_compute. split; reflexivity. Qed.

(** With no customer in the pool the sample order raises. *)
Example demo_generate_no_customer :
  @generate demo_source demo_wall 123 0 2 demo_file = Raise IndexError.
Proof. vm_compute. reflexivity. Qed.

Lemma order_foreign_keys_resolve_witness :
  @generate demo_source demo_wall 123 2 2 demo_file
  = Ok (demo_customers, [demo_order1; demo_order2])
  /\ demo_order1 ∈ [demo_order1; demo_order2]
  /\ Order.customer_id demo_order1 ∈ map Customer.customer_id demo_customers
  /\ Order.product_id demo_order1 ∈ map Product.product_id demo_file.
Proof.
  assert (Hgen : @generate demo_source demo_wall 123 2 2 demo_file
                 = Ok (demo_customers, [demo_order1; demo_order2]))
    by (vm_compute; reflexivity).
  assert (Hin : demo_order1 ∈ [demo_order1; demo_order2]) by left.
  split; [exact Hgen|]. split; [exact Hin|].
  exact (@order_foreign_keys_resolve demo_source demo_wall 123 2 2 demo_file
           demo_customers [demo_order1; demo_order2] demo_order1 Hgen Hin).
Defined.

Example skew_generate_order :
  @generate_order skew_source demo_wall 1 skew_world
  = Ok (skew_order, @mkWorld skew_source [] [] 1 [] ["C1"%string] ["P1"%string] []).
Proof. reflexivity. Qed.

(** Each of the three indices is drawn in some state, and gives its entry
    of [1, 1, 0]. *)
Example flags_of_indices :
  map (fun x => match @generate_order skew_source demo_wall 1 (flag_world x) with
                | Ok (o, _) => Some (@reorder_index skew_source (flag_world x),
                                     Order.is_reordered o)
                | Raise _ => None
                end) [0; 1; 2]
  = [Some (0%nat, 1); Some (1%nat, 1); Some (2%nat, 0)].
Proof. reflexivity. Qed.

Lemma reorder_flag_skewed_witness :
  (exists w', @generate_order skew_source demo_wall 1 skew_world = Ok (skew_order, w'))
  /\ Order.is_reordered skew_order ∈ reorder_choices
  /\ (Order.is_reordered skew_order = 0 \/ Order.is_reordered skew_order = 1)
  /\ (@reorder_index skew_source skew_world < length reorder_choices)%nat
  /\ reorder_choices !! @reorder_index skew_source skew_world
     = Some (Order.is_reordered skew_order)
  /\ (forall v, Order.is_reordered skew_order = v
                <-> @reorder_index skew_source skew_world ∈ favourable reorder_choices v)
  /\ favourable reorder_choices 1 = [0; 1]%nat
  /\ favourable reorder_choices 0 = [2]%nat
  /\ length reorder_choices = 3%nat
  /\ (choice_prob reorder_choices 1 == 2 # 3)%Q
  /\ (choice_prob reorder_choices 0 == 1 # 3)%Q
  /\ (choice_prob reorder_choices 1 == 2 * choice_prob reorder_choices 0)%Q.
Proof.
  assert (Hgen : @generate_order skew_source demo_wall 1 skew_world
                 = Ok (skew_order,
                       @mkWorld skew_source [] [] 1 [] ["C1"%string] ["P1"%string] []))
    by reflexivity.
  split; [eexists; exact Hgen|].
  exact (@reorder_flag_skewed skew_source demo_wall 1 skew_world _ skew_order Hgen).
Defined.

Lemma purchase_amount_range_witness :
  (exists w', @generate_order skew_source demo_wall 1 skew_world = Ok (skew_order, w'))
  /\ exists n h, 1 <= n <= 101 /\ 0 <= h <= 100
    /\ Order.purchase_amount skew_order
       = B64.add (B64.of_Z n) (B64.div (B64.of_Z h) (B64.of_Z 100))
    /\ B64.two_decimals (B64.div (B64.of_Z h) (B64.of_Z 100)) = true
    /\ B64.leb (B64.of_Z 1) (Order.purchase_amount skew_order) = true
    /\ B64.leb (Order.purchase_amount skew_order) (B64.of_Z 102) = true.
Proof.
  assert (Hgen : @generate_order skew_source demo_wall 1 skew_world
                 = Ok (skew_order,
                       @mkWorld skew_source [] [] 1 [] ["C1"%string] ["P1"%string] []))
    by reflexivity.
  split; [eexists; exact Hgen|].
  exact (@purchase_amount_range skew_source demo_wall 1 skew_world _ skew_order Hgen).
Defined.

(** C10 (as stated): the order drawn from [skew_world] has the amount
    1 + 0.14 = 1.1400000000000001, which lies in [1.0, 102.0] but is not the
    double of any two-decimal number: more than two digits follow its
    decimal point. *)
Lemma purchase_amount_not_two_decimals :
  ~ (forall (RS : RandomSource) (wall : nat -> Z) (i : nat) (w w' : World) (o : Order.t),
        generate_order wall i w = Ok (o, w') ->
        B64.leb (B64.of_Z 1) (Order.purchase_amount o) = true
        /\ B64.leb (Order.purchase_amount o) (B64.of_Z 102) = true
        /\ B64.two_decimals (Order.purchase_amount o) = true).
Proof.
  intros claim.
  assert (Hgen : @generate_order skew_source demo_wall 1 skew_world
                 = Ok (skew_order,
                       @mkWorld skew_source [] [] 1 [] ["C1"%string] ["P1"%string] []))
    by reflexivity.
  destruct (claim skew_source demo_wall 1%nat skew_world _ skew_order Hgen)
    as (_ & _ & Htwo).
  vm_compute in Htwo. discriminate Htwo.
Qed.

(** * Properties of the min-max scaling *)

(** The scaler fitted on a column that is not empty, and the scaled
    column: no step raises, whatever the arithmetic. *)
Lemma fit_cons {A} `{Ar : Arith A} (x : A) (l : list A) :
  exists sc, MinMaxScaler.fit (x :: l) = Ok sc
    /\ MinMaxScaler.fit_transform (x :: l) = Ok (MinMaxScaler.transform sc (x :: l))
    /\ MinMaxScaler.data_min_ sc = col_min (x :: l)
    /\ MinMaxScaler.data_max_ sc = col_max (x :: l)
    /\ MinMaxScaler.data_range_ sc = a_sub (col_max (x :: l)) (col_min (x :: l))
    /\ MinMaxScaler.scale_ sc
       = a_div (a_sub a_one a_zero)
           (MinMaxScaler.handle_zeros_in_scale (MinMaxScaler.data_range_ sc))
    /\ MinMaxScaler.min_ sc
       = a_sub a_zero (a_mul (MinMaxScaler.data_min_ sc) (MinMaxScaler.scale_ sc)).
Proof. eexists. repeat split. Qed.

Lemma nanmin_replicate {A} `{Ar : Arith A} (c : A) (n : nat) :
  a_ltb c c = false -> MinMaxScaler.nanmin c (replicate n c) = c.
Proof. intros E. induction n as [|n IH]; [reflexivity|]. simpl. rewrite E. exact IH. Qed.

Lemma nanmax_replicate {A} `{Ar : Arith A} (c : A) (n : nat) :
  a_ltb c c = false -> MinMaxScaler.nanmax c (replicate n c) = c.
Proof. intros E. induction n as [|n IH]; [reflexivity|]. simpl. rewrite E. exact IH. Qed.

Section ExactScaling.
Local Open Scope Q_scope.

Lemma Qltb_lt (x y : Q) : Qltb x y = true <-> x < y.
Proof.
  unfold Qltb. rewrite negb_true_iff. split.
  - intros H. apply Qnot_le_lt. intros Hle. apply Qle_bool_iff in Hle. congruence.
  - intros H. destruct (Qle_bool y x) eqn:E; [|reflexivity].
    apply Qle_bool_iff in E. exfalso. exact (Qlt_not_le _ _ H E).
Qed.

Lemma Qltb_ge (x y : Q) : Qltb x y = false <-> y <= x.
Proof.
  unfold Qltb. rewrite negb_false_iff. apply Qle_bool_iff.
Qed.

Lemma nanmin_Q (l : list Q) : forall x : Q,
  MinMaxScaler.nanmin x l ∈ x :: l
  /\ forall y, y ∈ x :: l -> MinMaxScaler.nanmin x l <= y.
Proof.
  induction l as [|z l IH]; intros x; simpl.
  - split; [left|]. intros y Hy. apply list_elem_of_singleton in Hy as ->. apply Qle_refl.
  - destruct (Qltb z x) eqn:E.
    + apply Qltb_lt in E. destruct (IH z) as [Hin Hle]. split.
      * right. exact Hin.
      * intros y Hy. apply elem_of_cons in Hy as [->|Hy]; [|apply Hle, Hy].
        apply Qle_trans with z; [apply Hle; left | apply Qlt_le_weak, E].
    + apply Qltb_ge in E. destruct (IH x) as [Hin Hle]. split.
      * apply elem_of_cons in Hin as [Hin|Hin]; [rewrite Hin; left | do 2 right; exact Hin].
      * intros y Hy. apply elem_of_cons in Hy as [->|Hy]; [apply Hle; left|].
        apply elem_of_cons in Hy as [->|Hy]; [|apply Hle; right; exact Hy].
        apply Qle_trans with x; [apply Hle; left | exact E].
Qed.

Lemma nanmax_Q (l : list Q) : forall x : Q,
  MinMaxScaler.nanmax x l ∈ x :: l
  /\ forall y, y ∈ x :: l -> y <= MinMaxScaler.nanmax x l.
Proof.
  induction l as [|z l IH]; intros x; simpl.
  - split; [left|]. intros y Hy. apply list_elem_of_singleton in Hy as ->. apply Qle_refl.
  - destruct (Qltb x z) eqn:E.
    + apply Qltb_lt in E. destruct (IH z) as [Hin Hle]. split.
      * right. exact Hin.
      * intros y Hy. apply elem_of_cons in Hy as [->|Hy]; [|apply Hle, Hy].
        apply Qle_trans with z; [apply Qlt_le_weak, E | apply Hle; left].
    + apply Qltb_ge in E. destruct (IH x) as [Hin Hle]. split.
      * apply elem_of_cons in Hin as [Hin|Hin]; [rewrite Hin; left | do 2 right; exact Hin].
      * intros y Hy. apply elem_of_cons in Hy as [->|Hy]; [apply Hle; left|].
        apply elem_of_cons in Hy as [->|Hy]; [|apply Hle; right; exact Hy].
        apply Qle_trans with x; [exact E | apply Hle; left].
Qed.

(** [col_min] and [col_max] are the least and the greatest value of a
    column of rationals. *)
Lemma col_min_max_Q (X : list Q) (x : Q) :
  x ∈ X -> col_min X ∈ X /\ col_max X ∈ X /\ col_min X <= x <= col_max X.
Proof.
  destruct X as [|x0 l]; [intros H; inversion H|]. intros Hx. simpl.
  destruct (nanmin_Q l x0) as [Hmin Hle], (nanmax_Q l x0) as [Hmax Hge]. auto.
Qed.

Lemma scaled_value_Q (x lo hi : Q) :
  lo < hi -> lo <= x <= hi ->
  let scale := (1 - 0) / (hi - lo) in
  let y := x * scale + (0 - lo * scale) in
  y == (x - lo) / (hi - lo) /\ 0 <= y <= 1.
Proof.
  intros Hlt [Hlo Hhi]. cbv zeta.
  assert (Hpos : 0 < hi - lo) by (unfold Qminus; rewrite <- Qlt_minus_iff; exact Hlt).
  assert (Hne : ~ hi - lo == 0).
  { intros E. rewrite E in Hpos. exact (Qlt_irrefl _ Hpos). }
  assert (Heq : x * ((1 - 0) / (hi - lo)) + (0 - lo * ((1 - 0) / (hi - lo)))
                == (x - lo) / (hi - lo)) by (field; exact Hne).
  split; [exact Heq|]. rewrite Heq. split.
  - apply Qle_shift_div_l; [exact Hpos|]. rewrite Qmult_0_l.
    unfold Qminus. rewrite <- Qle_minus_iff. exact Hlo.
  - apply Qle_shift_div_r; [exact Hpos|]. rewrite Qmult_1_l.
    unfold Qminus. apply Qplus_le_compat; [exact Hhi | apply Qle_refl].
Qed.

(** C4 (amended): in exact arithmetic every value of the scaled column of a
    column that is not constant is [(x - min) / (max - min)] and lies in
    [0, 1]. *)
Theorem min_max_scale_exact (X Y : list Q) (i : nat) (x y : Q) :
  MinMaxScaler.fit_transform X = Ok Y ->
  col_min X < col_max X ->
  X !! i = Some x -> Y !! i = Some y ->
  y == (x - col_min X) / (col_max X - col_min X) /\ 0 <= y <= 1.
Proof.
  intros Hfit Hlt Hx Hy.
  assert (Hin : x ∈ X) by (eapply list_elem_of_lookup_2, Hx).
  destruct (col_min_max_Q X x Hin) as (_ & _ & Hbounds).
  unfold MinMaxScaler.fit_transform in Hfit.
  destruct (MinMaxScaler.fit X) as [sc|e] eqn:Hsc; [|discriminate].
  assert (HY : Y = MinMaxScaler.transform sc X) by congruence. subst Y.
  unfold MinMaxScaler.transform in Hy.
  rewrite map_fmap, list_lookup_fmap, Hx in Hy.
  assert (Hyy : y = a_add (a_mul x (MinMaxScaler.scale_ sc)) (MinMaxScaler.min_ sc))
    by (cbn [fmap option_fmap option_map] in Hy; congruence).
  subst y. clear Hy.
  destruct X as [|x0 l]; [inversion Hin|].
  cbv [MinMaxScaler.fit] in Hsc.
  assert (Hs : MinMaxScaler.scale_ sc
               = a_div (a_sub a_one a_zero)
                   (MinMaxScaler.handle_zeros_in_scale
                      (a_sub (col_max (x0 :: l)) (col_min (x0 :: l)))))
    by (injection Hsc as <-; reflexivity).
  assert (Hm : MinMaxScaler.min_ sc
               = a_sub a_zero (a_mul (col_min (x0 :: l)) (MinMaxScaler.scale_ sc)))
    by (injection Hsc as <-; reflexivity).
  rewrite Hm, Hs. clear Hm Hs Hsc.
  set (lo := col_min (x0 :: l)) in *. set (hi := col_max (x0 :: l)) in *.
  unfold MinMaxScaler.handle_zeros_in_scale.
  cbn [a_eqb a_zero a_one a_add a_sub a_mul a_div Q_arith].
  destruct (Qeq_bool (hi - lo) 0) eqn:E.
  - apply Qeq_bool_iff in E. exfalso.
    assert (Hpos : 0 < hi - lo) by (unfold Qminus; rewrite <- Qlt_minus_iff; exact Hlt).
    rewrite E in Hpos. exact (Qlt_irrefl _ Hpos).
  - exact (scaled_value_Q x lo hi Hlt Hbounds).
Qed.

(** In exact arithmetic a constant column is scaled to zeros. *)
Lemma constant_column_Q (c : Q) (n : nat) (y : Q) :
  exists Y, MinMaxScaler.fit_transform (replicate (S n) c) = Ok Y
    /\ length Y = S n /\ (y ∈ Y -> y == 0).
Proof.
  destruct (fit_cons c (replicate n c)) as (sc & _ & HY & Hlo & Hhi & Hr & Hs & Hm).
  exists (MinMaxScaler.transform sc (replicate (S n) c)). split; [exact HY|].
  unfold MinMaxScaler.transform. split.
  - rewrite length_map, length_replicate. reflexivity.
  - rewrite map_fmap. intros Hy.
    apply list_elem_of_fmap in Hy as (x & -> & Hx).
    apply elem_of_replicate in Hx as [-> _].
    assert (E : Qltb c c = false) by (apply Qltb_ge, Qle_refl).
    rewrite Hm, Hs, Hr, Hlo. cbn [col_min col_max].
    rewrite (nanmin_replicate (Ar:=Q_arith) c n E), (nanmax_replicate (Ar:=Q_arith) c n E).
    unfold MinMaxScaler.handle_zeros_in_scale.
    cbn [a_eqb a_zero a_one a_add a_sub a_mul a_div Q_arith].
    assert (E0 : Qeq_bool (c - c) 0 = true) by (apply Qeq_bool_iff; ring).
    rewrite E0. field.
Qed.

End ExactScaling.

Lemma min_max_scale_exact_witness :
  MinMaxScaler.fit_transform [1; 6; 3]%Q = Ok [0 # 25; 25 # 25; 10 # 25]%Q
  /\ (col_min [1; 6; 3] < col_max [1; 6; 3])%Q
  /\ (10 # 25 == (3 - col_min [1; 6; 3]) / (col_max [1; 6; 3] - col_min [1; 6; 3]))%Q
  /\ (0 <= 10 # 25 <= 1)%Q.
Proof.
  assert (Hfit : MinMaxScaler.fit_transform [1; 6; 3]%Q = Ok [0 # 25; 25 # 25; 10 # 25]%Q)
    by (vm_compute; reflexivity).
  assert (Hlt : (col_min [1; 6; 3] < col_max [1; 6; 3])%Q) by (vm_compute; reflexivity).
  split; [exact Hfit|]. split; [exact Hlt|].
  exact (min_max_scale_exact [1; 6; 3]%Q [0 # 25; 25 # 25; 10 # 25]%Q 2%nat 3%Q (10 # 25)%Q
           Hfit Hlt eq_refl eq_refl).
Defined.

(** ** The scaling on doubles *)

Lemma B64_ltb_irrefl (c : B64.t) : B64.ltb c c = false.
Proof.
  unfold B64.ltb, SFltb, SFcompare.
  destruct c as [s|s| |s m e]; try reflexivity; try (destruct s; reflexivity).
  rewrite Z.compare_refl. change (Pos.compare_cont Eq m m) with (Pos.compare m m).
  rewrite Pos.compare_refl. destruct s; reflexivity.
Qed.

Lemma B64_sub_diag (c : B64.t) : is_finite c = true -> B64.sub c c = S754_zero false.
Proof.
  intros Hc. destruct c as [s|s| |s m e]; try discriminate.
  - destruct s; reflexivity.
  - unfold B64.sub, SFsub. rewrite Z.sub_diag. reflexivity.
Qed.

(** The divisor of [scale_] is never zero: a zero range has been replaced by
    one. *)
Lemma divisor_not_zero (r : B64.t) :
  B64.eqb (MinMaxScaler.handle_zeros_in_scale r) B64.zero = false.
Proof.
  unfold MinMaxScaler.handle_zeros_in_scale. cbn [a_eqb a_zero a_one B64_arith].
  destruct (B64.eqb r B64.zero) eqn:E; [reflexivity | exact E].
Qed.

(** The scaler fitted on a constant column of finite doubles. *)
Lemma constant_column_fit (c : B64.t) (n : nat) :
  is_finite c = true ->
  exists sc,
    MinMaxScaler.fit (replicate (S n) c) = Ok sc
    /\ MinMaxScaler.fit_transform (replicate (S n) c)
       = Ok (MinMaxScaler.transform sc (replicate (S n) c))
    /\ MinMaxScaler.data_min_ sc = c
    /\ MinMaxScaler.data_range_ sc = B64.zero
    /\ MinMaxScaler.scale_ sc = B64.one
    /\ MinMaxScaler.min_ sc = B64.sub B64.zero (B64.mul c B64.one).
Proof.
  intros Hc.
  destruct (fit_cons c (replicate n c)) as (sc & Hsc & HY & Hlo & Hhi & Hr & Hs & Hm).
  exists sc. cbn [col_min col_max] in Hlo, Hhi, Hr.
  rewrite (nanmin_replicate (Ar:=B64_arith) c n (B64_ltb_irrefl c)) in Hlo, Hr.
  rewrite (nanmax_replicate (Ar:=B64_arith) c n (B64_ltb_irrefl c)) in Hhi, Hr.
  assert (Hrange : MinMaxScaler.data_range_ sc = B64.zero).
  { rewrite Hr. exact (B64_sub_diag c Hc). }
  assert (Hscale : MinMaxScaler.scale_ sc = B64.one).
  { rewrite Hs, Hrange. reflexivity. }
  split; [exact Hsc|]. split; [exact HY|]. split; [exact Hlo|].
  split; [exact Hrange|]. split; [exact Hscale|].
  rewrite Hm, Hlo, Hscale. reflexivity.
Qed.

(** C5: scaling a constant column of doubles raises nothing.  The divisor
    used for [scale_] is never zero; for a constant column the range is zero
    and is replaced by one, so that [scale_] is one, and the scaled column
    is returned with one value per row. *)
Theorem constant_column_guarded (c : B64.t) (n : nat) :
  is_finite c = true ->
  (forall r : B64.t, B64.eqb (MinMaxScaler.handle_zeros_in_scale r) B64.zero = false)
  /\ exists sc Y,
       MinMaxScaler.fit (replicate (S n) c) = Ok sc
       /\ MinMaxScaler.data_range_ sc = B64.zero
       /\ MinMaxScaler.handle_zeros_in_scale (MinMaxScaler.data_range_ sc) = B64.one
       /\ MinMaxScaler.scale_ sc = B64.one
       /\ MinMaxScaler.fit_transform (replicate (S n) c) = Ok Y
       /\ length Y = S n.
Proof.
  intros Hc. split; [exact divisor_not_zero|].
  destruct (constant_column_fit c n Hc) as (sc & Hsc & HY & _ & Hrange & Hscale & _).
  exists sc, (MinMaxScaler.transform sc (replicate (S n) c)).
  split; [exact Hsc|]. split; [exact Hrange|].
  split; [rewrite Hrange; reflexivity|].
  split; [exact Hscale|]. split; [exact HY|].
  unfold MinMaxScaler.transform. rewrite length_map, length_replicate. reflexivity.
Qed.

Lemma constant_column_guarded_witness :
  is_finite (B64.of_Z 7) = true
  /\ MinMaxScaler.fit_transform (replicate 3 (B64.of_Z 7))
     = Ok [B64.zero; B64.zero; B64.zero]
  /\ (forall r : B64.t, B64.eqb (MinMaxScaler.handle_zeros_in_scale r) B64.zero = false)
  /\ exists sc Y,
       MinMaxScaler.fit (replicate 3 (B64.of_Z 7)) = Ok sc
       /\ MinMaxScaler.data_range_ sc = B64.zero
       /\ MinMaxScaler.handle_zeros_in_scale (MinMaxScaler.data_range_ sc) = B64.one
       /\ MinMaxScaler.scale_ sc = B64.one
       /\ MinMaxScaler.fit_transform (replicate 3 (B64.of_Z 7)) = Ok Y
       /\ length Y = 3%nat.
Proof.
  split; [reflexivity|]. split; [vm_compute; reflexivity|].
  exact (constant_column_guarded (B64.of_Z 7) 2 eq_refl).
Defined.

Lemma B64_add_opp (y : B64.t) :
  is_finite y = true -> B64.eqb (B64.add y (B64.sub B64.zero y)) B64.zero = true.
Proof.
  intros Hy. destruct y as [s|s| |s m e]; try discriminate.
  - destruct s; reflexivity.
  - change (B64.sub B64.zero (S754_finite s m e)) with (S754_finite (negb s) m e).
    unfold B64.add, SFadd.
    assert (E : forall a, cond_Zopp s a + cond_Zopp (negb s) a = 0)
      by (intros a; destruct s; simpl; lia).
    rewrite E. reflexivity.
Qed.

(** On doubles too the values of a scaled constant column are zero,
    provided the product of the constant with [scale_ = 1.0] is finite (as it
    is for every double). *)
Lemma constant_column_zeros (c : B64.t) (n : nat) (Y : list B64.t) (y : B64.t) :
  is_finite c = true -> is_finite (B64.mul c B64.one) = true ->
  MinMaxScaler.fit_transform (replicate (S n) c) = Ok Y ->
  y ∈ Y -> B64.eqb y B64.zero = true.
Proof.
  intros Hc Hmul HY Hy.
  destruct (constant_column_fit c n Hc) as (sc & _ & HY' & _ & _ & Hs & Hm).
  assert (Y = MinMaxScaler.transform sc (replicate (S n) c)) by congruence. subst Y.
  unfold MinMaxScaler.transform in Hy. rewrite map_fmap in Hy.
  apply list_elem_of_fmap in Hy as (x & -> & Hx).
  apply elem_of_replicate in Hx as [-> _].
  rewrite Hm, Hs. exact (B64_add_opp (B64.mul c B64.one) Hmul).
Qed.

(** A constant column of amounts such as 57.29 is scaled to zeros. *)
Example constant_amounts_scaled :
  MinMaxScaler.fit_transform (replicate 4 (B64.div (B64.of_Z 5729) (B64.of_Z 100)))
  = Ok (replicate 4 B64.zero).
Proof. vm_compute. reflexivity. Qed.

(** On doubles the column [1, 6] is scaled to [0, 1.0000000000000002]. *)
Example scaled_1_6 :
  MinMaxScaler.fit_transform [B64.of_Z 1; B64.of_Z 6]
  = Ok [S754_zero false; S754_finite false 4503599627370497 (-52)].
Proof. vm_compute. reflexivity. Qed.

(** C4 (as stated): on doubles the claim fails for the column [1, 6]: the
    scaled value of 6 is 1.0000000000000002, which exceeds 1 and differs
    from (6 - 1) / (6 - 1). *)
Lemma min_max_scale_exceeds_one :
  ~ (forall (X Y : list B64.t) (i : nat) (x y : B64.t),
        MinMaxScaler.fit_transform X = Ok Y ->
        B64.ltb (col_min X) (col_max X) = true ->
        X !! i = Some x -> Y !! i = Some y ->
        y = B64.div (B64.sub x (col_min X)) (B64.sub (col_max X) (col_min X))
        /\ B64.leb B64.zero y = true /\ B64.leb y B64.one = true).
Proof.
  intros claim.
  destruct (claim [B64.of_Z 1; B64.of_Z 6]
                  [S754_zero false; S754_finite false 4503599627370497 (-52)]
                  1%nat (B64.of_Z 6) (S754_finite false 4503599627370497 (-52))
                  scaled_1_6 eq_refl eq_refl eq_refl) as (_ & _ & Hle).
  vm_compute in Hle. discriminate Hle.
Qed.

(** * Properties of the label encoding *)

Section LabelEncoderFacts.
Context {A : Type} (R : relation A) `{!RelDecision R} `{!EqDecision A}.
Context `{!PartialOrder R} `{!Total R}.

Lemma elem_of_np_unique (y : list A) (x : A) : x ∈ np_unique R y <-> x ∈ y.
Proof. unfold np_unique. rewrite merge_sort_Permutation. apply elem_of_remove_dups. Qed.

Lemma NoDup_np_unique (y : list A) : NoDup (np_unique R y).
Proof.
  unfold np_unique. rewrite merge_sort_Permutation. apply NoDup_remove_dups.
Qed.

Lemma np_unique_sorted (y : list A) : StronglySorted R (np_unique R y).
Proof. unfold np_unique. apply StronglySorted_merge_sort; apply _. Qed.

(** The classes depend on the set of values only. *)
Lemma np_unique_same_set (y y' : list A) :
  (forall x, x ∈ y <-> x ∈ y') -> np_unique R y = np_unique R y'.
Proof.
  intros Hset. apply (StronglySorted_unique R); try apply np_unique_sorted.
  apply NoDup_Permutation; try apply NoDup_np_unique.
  intros x. rewrite !elem_of_np_unique. apply Hset.
Qed.

Lemma index_of_lookup (classes : list A) (x : A) :
  x ∈ classes -> classes !! index_of x classes = Some x.
Proof.
  induction classes as [|c classes IH]; intros Hx; [inversion Hx|]. simpl.
  destruct (decide (c = x)) as [->|Hne]; [reflexivity|].
  apply elem_of_cons in Hx as [->|Hx]; [done|]. simpl. apply IH, Hx.
Qed.

(** The code of a value is the number of classes strictly below it. *)
Lemma index_of_rank (classes : list A) (x : A) :
  StronglySorted R classes -> NoDup classes -> x ∈ classes ->
  index_of x classes = length (filter (fun c => R c x /\ c <> x) classes).
Proof.
  induction classes as [|c classes IH]; intros Hs Hnd Hx; [inversion Hx|].
  apply StronglySorted_inv in Hs as [Hs Hall].
  apply NoDup_cons in Hnd as [Hc Hnd]. simpl.
  destruct (decide (c = x)) as [->|Hne].
  - rewrite filter_cons_False by (intros [_ ?]; done).
    rewrite filter_none; [reflexivity|]. intros z Hz [Hzx Hne].
    rewrite Forall_forall in Hall. apply Hne.
    apply (anti_symm R); [exact Hzx | apply Hall, Hz].
  - apply elem_of_cons in Hx as [->|Hx]; [done|].
    rewrite Forall_forall in Hall.
    rewrite filter_cons_True by (split; [apply Hall, Hx | exact Hne]).
    simpl. f_equal. apply IH; assumption.
Qed.

(** C6: label encoding is stable.  Whatever the encoder was fitted on
    before, [fit_transform] gives the same codes and the same classes for the
    same sequence; the classes are the distinct values in sorted order, the
    code of a value is its position among them, that is the number of
    distinct values below it, and two sequences with the same set of values,
    in whatever order they appear, get the same classes. *)
Theorem label_encoding_stable (enc1 enc2 : LabelEncoder) (y : list A) :
  fit_transform R enc1 y = fit_transform R enc2 y
  /\ StronglySorted R (classes_ (fit_transform R enc1 y).2)
  /\ NoDup (classes_ (fit_transform R enc1 y).2)
  /\ (forall x, x ∈ classes_ (fit_transform R enc1 y).2 <-> x ∈ y)
  /\ (forall i x, y !! i = Some x ->
        exists k, (fit_transform R enc1 y).1 !! i = Some k
          /\ classes_ (fit_transform R enc1 y).2 !! k = Some x
          /\ k = length (filter (fun c => R c x /\ c <> x)
                           (classes_ (fit_transform R enc1 y).2)))
  /\ (forall (enc' : LabelEncoder) (y' : list A),
        (forall x, x ∈ y <-> x ∈ y') ->
        classes_ (fit_transform R enc' y').2 = classes_ (fit_transform R enc1 y).2).
Proof.
  unfold fit_transform, fit, transform. cbn [fst snd classes_].
  split; [reflexivity|]. split; [apply np_unique_sorted|].
  split; [apply NoDup_np_unique|]. split; [apply elem_of_np_unique|]. split.
  - intros i x Hx. exists (index_of x (np_unique R y)).
    assert (Hin : x ∈ np_unique R y).
    { apply elem_of_np_unique. eapply list_elem_of_lookup_2, Hx. }
    split; [rewrite map_fmap, list_lookup_fmap, Hx; reflexivity|].
    split; [apply index_of_lookup, Hin|].
    apply index_of_rank; [apply np_unique_sorted | apply NoDup_np_unique | exact Hin].
  - intros enc' y' Hset. symmetry. apply np_unique_same_set, Hset.
Qed.

End LabelEncoderFacts.

Global Instance bool_le_po : PartialOrder bool_le.
Proof.
  unfold bool_le. repeat split.
  - intros []; reflexivity.
  - intros [] [] []; simpl; congruence.
  - intros [] []; simpl; congruence.
Qed.

Global Instance bool_le_total : Total bool_le.
Proof. unfold bool_le. intros [] []; simpl; auto. Qed.

Example encode_sex :
  fit_transform String.le (mkLabelEncoder []) ["M"; "F"; "F"; "M"]%string
  = ([1; 0; 0; 1]%nat, mkLabelEncoder ["F"; "M"]%string).
Proof. vm_compute. reflexivity. Qed.

Example encode_is_married :
  fit_transform bool_le (mkLabelEncoder [true]) [true; false; true]
  = ([1; 0; 1]%nat, mkLabelEncoder [false; true]).
Proof. vm_compute. reflexivity. Qed.

Example encode_is_reordered :
  fit_transform Z.le (mkLabelEncoder []) [1; 1; 0]
  = ([1; 1; 0]%nat, mkLabelEncoder [0; 1]).
Proof. vm_compute. reflexivity. Qed.

Lemma label_encoding_stable_witness :
  fit_transform String.le (mkLabelEncoder []) ["M"; "F"; "M"]%string
  = fit_transform String.le (mkLabelEncoder ["x"; "y"]%string) ["M"; "F"; "M"]%string
  /\ classes_ (fit_transform String.le (mkLabelEncoder []) ["M"; "F"; "M"]%string).2
     = ["F"; "M"]%string.
Proof.
  split; [|vm_compute; reflexivity].
  exact (proj1 (label_encoding_stable String.le (mkLabelEncoder [])
                  (mkLabelEncoder ["x"; "y"]%string) ["M"; "F"; "M"]%string)).
Defined.

(** * Properties of the column move *)

Section FrameFacts.
Context {V : Type}.
Implicit Types (df rest : DataFrame.t V) (col : DataFrame.column V).

Lemma pop_Ok (item : string) df col rest :
  NoDup (DataFrame.columns df) ->
  DataFrame.pop item df = Ok (col, rest) ->
  (item, col) ∈ df
  /\ rest = filter (fun c => c.1 <> item) df
  /\ df ≡ₚ (item, col) :: rest.
Proof.
  revert col rest. induction df as [|[name c] df IH]; intros col rest Hnd H;
    [discriminate|].
  simpl in H. apply NoDup_cons in Hnd as [Hname Hnd].
  destruct (decide (name = item)) as [->|Hne].
  - injection H as <- <-. split; [left|]. split; [|reflexivity].
    rewrite filter_cons_False by (simpl; intros ?; done).
    symmetry. apply filter_all.
    intros [n' c'] Hin Heq. simpl in Heq. subst n'. apply Hname.
    change (item ∈ fst <$> df). apply list_elem_of_fmap.
    exists (item, c'). done.
  - destruct (DataFrame.pop item df) as [[c0 rest0]|e] eqn:E; [|discriminate].
    injection H as <- <-. destruct (IH c0 rest0 Hnd eq_refl) as (Hin & Hrest & Hperm).
    split; [right; exact Hin|]. split.
    + rewrite filter_cons_True by (simpl; exact Hne). rewrite Hrest. reflexivity.
    + rewrite Hperm. apply Permutation_swap.
Qed.

Lemma pop_total (item : string) df :
  item ∈ DataFrame.columns df -> exists col rest, DataFrame.pop item df = Ok (col, rest).
Proof.
  induction df as [|[name c] df IH]; intros Hin; [inversion Hin|]. simpl.
  destruct (decide (name = item)) as [->|Hne]; [eauto|].
  simpl in Hin. apply elem_of_cons in Hin as [->|Hin]; [done|].
  destruct (IH Hin) as (col & rest & ->). eauto.
Qed.

(** C9: the move of [is_reordered] succeeds on a frame that has the
    column; the column comes first with its values, every other column keeps
    its values and its place relative to the others, and the columns of the
    result are those of the frame. *)
Theorem move_target_first_frame df :
  NoDup (DataFrame.columns df) ->
  "is_reordered"%string ∈ DataFrame.columns df ->
  exists col,
    DataFrame.move_target_first df
    = Ok (("is_reordered"%string, col) :: filter (fun c => c.1 <> "is_reordered"%string) df)
    /\ ("is_reordered"%string, col) ∈ df
    /\ df ≡ₚ ("is_reordered"%string, col) :: filter (fun c => c.1 <> "is_reordered"%string) df.
Proof.
  intros Hnd Hin. destruct (pop_total _ _ Hin) as (col & rest & Hpop).
  destruct (pop_Ok _ _ _ _ Hnd Hpop) as (Hcol & Hrest & Hperm).
  exists col. unfold DataFrame.move_target_first. rewrite Hpop.
  unfold DataFrame.insert. subst rest.
  destruct (decide (_ ∈ _)) as [Hdup|_].
  - exfalso. unfold DataFrame.columns in Hdup. rewrite map_fmap in Hdup.
    apply list_elem_of_fmap in Hdup as ([n c] & Hn & Hc). simpl in Hn. subst n.
    apply list_elem_of_filter in Hc as [Hc _]. simpl in Hc. done.
  - destruct (decide (0 ≤ _)%nat) as [_|Hlt]; [|lia].
    rewrite take_0, drop_0. done.
Qed.

End FrameFacts.

Definition demo_frame : DataFrame.t Z :=
  [("purchase_amount", [10; 20]); ("is_reordered", [1; 0]); ("age_18-29", [0; 1])]%string.

Example demo_frame_moved :
  DataFrame.move_target_first demo_frame
  = Ok [("is_reordered", [1; 0]); ("purchase_amount", [10; 20]); ("age_18-29", [0; 1])]%string.
Proof. vm_compute. reflexivity. Qed.

Example frame_without_target :
  DataFrame.move_target_first [("purchase_amount"%string, [10; 20])] = Raise KeyError.
Proof. vm_compute. reflexivity. Qed.

Lemma move_target_first_frame_witness :
  NoDup (DataFrame.columns demo_frame)
  /\ "is_reordered"%string ∈ DataFrame.columns demo_frame
  /\ exists col,
    DataFrame.move_target_first demo_frame
    = Ok (("is_reordered"%string, col)
            :: filter (fun c => c.1 <> "is_reordered"%string) demo_frame)
    /\ ("is_reordered"%string, col) ∈ demo_frame
    /\ demo_frame ≡ₚ ("is_reordered"%string, col)
                       :: filter (fun c => c.1 <> "is_reordered"%string) demo_frame.
Proof.
  assert (Hnd : NoDup (DataFrame.columns demo_frame))
    by (apply (bool_decide_unpack _); vm_compute; exact I).
  assert (Hin : "is_reordered"%string ∈ DataFrame.columns demo_frame)
    by (apply (bool_decide_unpack _); vm_compute; exact I).
  split; [exact Hnd|]. split; [exact Hin|].
  exact (move_target_first_frame demo_frame Hnd Hin).
Defined.

(** * Properties of the ingestion check *)

Section IngestionFacts.
Context {Row : Type}.

(** C8: the ingestion step succeeds exactly when no row failed; when some
    row failed it raises an assertion error and the script does not log its
    completion. *)
Theorem ingestion_all_or_nothing (fg_ingest : list Row -> Ingestion.IngestionManagerPandas)
        (df : list Row) :
  (Ingestion.ingest_data fg_ingest df = Ok tt
   <-> length (Ingestion.failed_rows (fg_ingest df)) = O)
  /\ (Ingestion.ingest_data fg_ingest df = Raise AssertionError
      <-> length (Ingestion.failed_rows (fg_ingest df)) <> O)
  /\ (Ingestion.main fg_ingest df
      = (Ok tt, ["BATCH INGESTION - STARTED"; "BATCH INGESTION - COMPLETED"]%string)
      <-> length (Ingestion.failed_rows (fg_ingest df)) = O)
  /\ (Ingestion.main fg_ingest df
      = (Raise AssertionError, ["BATCH INGESTION - STARTED"%string])
      <-> length (Ingestion.failed_rows (fg_ingest df)) <> O).
Proof.
  unfold Ingestion.main, Ingestion.ingest_data, Ingestion.py_assert.
  case_bool_decide as E; simpl; repeat split; intros H;
    try done; try discriminate; try (exfalso; apply H, E).
Qed.

(** The per-row check of the Spark job: it succeeds exactly when every
    status is 200, and a failing row stops the partition after the rows
    before it have been written. *)
Lemma ingest_to_feature_store_Ok (put_record : Row -> Z) (rows : list Row) :
  (Ingestion.ingest_to_feature_store put_record rows).1 = Ok tt
  <-> Forall (fun row => put_record row = 200) rows.
Proof.
  induction rows as [|row rows IH]; simpl; [split; [constructor | reflexivity]|].
  unfold Ingestion.py_assert. case_bool_decide as E; simpl.
  - destruct (Ingestion.ingest_to_feature_store put_record rows) as [r written].
    simpl in *. rewrite IH. split; [intros H; constructor; assumption|].
    intros H. apply Forall_cons in H as [_ H]. exact H.
  - split; [discriminate|]. intros H. apply Forall_cons in H as [H _]. done.
Qed.

End IngestionFacts.

Example ingest_with_failed_rows :
  Ingestion.main (fun _ : list Z => Ingestion.mkResponse [3%nat]) [1; 2; 3; 4]
  = (Raise AssertionError, ["BATCH INGESTION - STARTED"%string]).
Proof. reflexivity. Qed.

Example ingest_without_failed_rows :
  Ingestion.main (fun _ : list Z => Ingestion.mkResponse []) [1; 2; 3; 4]
  = (Ok tt, ["BATCH INGESTION - STARTED"; "BATCH INGESTION - COMPLETED"]%string).
Proof. reflexivity. Qed.

Example spark_partition_stops :
  Ingestion.ingest_to_feature_store (fun row : Z => if row =? 3 then 500 else 200)
    [1; 2; 3; 4]
  = (Raise AssertionError, [1; 2]).
Proof. reflexivity. Qed.

(** * More on the generator: identifiers, field ranges, failing runs *)

Lemma fmt_id_inj (prefix : string) (i j : nat) : fmt_id prefix i = fmt_id prefix j -> i = j.
Proof.
  unfold fmt_id. intros H. apply (String.app_inj prefix) in H.
  apply Unsigned.to_uint_inj.
  pose proof (NilEmpty.usu (Nat.to_uint i)) as Hi.
  pose proof (NilEmpty.usu (Nat.to_uint j)) as Hj.
  rewrite H in Hi. congruence.
Qed.

Lemma NoDup_fmt_ids (prefix : string) (start len : nat) :
  NoDup (map (fmt_id prefix) (seq start len)).
Proof.
  rewrite map_fmap. apply NoDup_fmap_2; [|apply NoDup_seq].
  intros i j. apply fmt_id_inj.
Qed.

Lemma lower_ascii_idem (c : Ascii.ascii) : lower_ascii (lower_ascii c) = lower_ascii c.
Proof.
  destruct c as [[] [] [] [] [] [] [] []]; vm_compute; reflexivity.
Qed.

Lemma lower_idem (s : string) : lower (lower s) = lower s.
Proof.
  induction s as [|c s IH]; [reflexivity|]. simpl. rewrite lower_ascii_idem, IH. reflexivity.
Qed.

Section GeneratorMore.
Context `{RS : RandomSource}.

(** The fields of a generated customer. *)
Lemma generate_customer_fields wall i w c w' :
  generate_customer wall i w = Ok (c, w') ->
  Customer.customer_id c = fmt_id "C" i
  /\ 18 <= Customer.age c <= 91
  /\ lower (Customer.name c) = Customer.name c
  /\ lower (Customer.state c) = Customer.state c
  /\ Customer.event_time c = wall (ticks w)
  /\ ticks w' = S (ticks w).
Proof.
  unfold generate_customer, generate_timestamp, randint, bind, draw_fk, draw_mt,
    generate_event_timestamp, ret.
  destruct (faker_profile (fk w)) as [p g1]. cbn [fk mt ticks with_fk with_mt].
  destruct (faker_state g1) as [st g2]. cbn [fk mt ticks with_fk with_mt].
  pose proof (randbelow_lt (Z.to_nat (91 - 18 + 1)) (mt w)) as Hk.
  destruct (randbelow (Z.to_nat (91 - 18 + 1)) (mt w)) as [k g3].
  cbn [fk mt ticks with_fk with_mt].
  destruct (faker_boolean g2) as [b g4]. cbn [fk mt ticks with_fk with_mt].
  destruct (faker_date_time_between _ _ g4) as [t g5].
  cbn [fk mt ticks with_fk with_mt with_ticks].
  intros [= <- <-]. cbn. rewrite !lower_idem. simpl in Hk. repeat split; lia.
Qed.

Lemma for_range_append_customer_fields wall n : forall i w u w',
  for_range (append_customer wall) i n w = Ok (u, w') ->
  exists new, customers w' = customers w ++ new
    /\ map Customer.customer_id new = map (fmt_id "C") (seq (i + 1) n)
    /\ Forall (fun c => 18 <= Customer.age c <= 91
                        /\ lower (Customer.name c) = Customer.name c
                        /\ lower (Customer.state c) = Customer.state c) new.
Proof.
  induction n as [|n IH]; intros i w u w' H; simpl in H.
  - injection H as <- <-. exists []. rewrite app_nil_r. done.
  - apply bind_Ok in H as ([] & w1 & Hb & H).
    unfold append_customer in Hb.
    apply bind_Ok in Hb as (c & w0 & Hc & [= <-]).
    pose proof Hc as Hc'. apply generate_customer_Ok in Hc' as ((Hcw & _) & _).
    apply generate_customer_fields in Hc as (Hid & Hage & Hname & Hstate & _).
    apply IH in H as (new & Hcs & Hids & Hall). simpl in Hcs.
    exists (c :: new). rewrite Hcs, Hcw, <- app_assoc. split; [reflexivity|]. split.
    + simpl. rewrite Hid, Hids. reflexivity.
    + constructor; [done | exact Hall].
Qed.

Lemma for_range_append_order_ids wall n : forall i w u w',
  for_range (append_order wall) i n w = Ok (u, w') ->
  exists new, orders w' = orders w ++ new
    /\ map Order.order_id new = map (fmt_id "O") (seq (i + 1) n).
Proof.
  induction n as [|n IH]; intros i w u w' H; simpl in H.
  - injection H as <- <-. exists []. rewrite app_nil_r. done.
  - apply bind_Ok in H as ([] & w1 & Hb & H).
    unfold append_order in Hb.
    apply bind_Ok in Hb as (o & w0 & Ho & [= <-]).
    apply generate_order_Ok in Ho as ((_ & _ & _ & How) & Hid & _).
    apply IH in H as (new & Hos & Hids). simpl in Hos.
    exists (o :: new). rewrite Hos, How, <- app_assoc. split; [reflexivity|].
    simpl. rewrite Hid, Hids. reflexivity.
Qed.

(** The customers and the orders of a run, as the loops leave them. *)
Lemma generate_tables wall seed n m file cs os :
  generate wall seed n m file = Ok (cs, os) ->
  map Customer.customer_id cs = map (fmt_id "C") (seq 1 n)
  /\ map Order.order_id os = map (fmt_id "O") (seq 1 m)
  /\ Forall (fun c => 18 <= Customer.age c <= 91
                      /\ lower (Customer.name c) = Customer.name c
                      /\ lower (Customer.state c) = Customer.state c) cs.
Proof.
  unfold generate. intros Hgen.
  destruct (generation_run wall seed n m file initial_world) as [[u w]|e] eqn:H;
    [|discriminate].
  injection Hgen as <- <-. unfold generation_run in H.
  apply bind_Ok in H as ([] & w1 & _ & H).
  apply bind_Ok in H as (c0 & w2 & _ & H).
  apply bind_Ok in H as ([] & w3 & Hcs & H).
  unfold cell_customers in Hcs.
  apply bind_Ok in Hcs as ([] & w2' & [= <-] & Hcs).
  apply for_range_append_customer_fields in Hcs as (cs & Hcs & Hids & Hall).
  simpl in Hcs.
  apply bind_Ok in H as ([] & w4 & Hps & H).
  unfold cell_products in Hps.
  apply bind_Ok in Hps as ([] & w3' & Hts & [= <-]).
  apply for_range_event_timestamps in Hts as (Hcs3 & _).
  apply bind_Ok in H as (o0 & w5 & Ho0 & H).
  apply generate_order_Ok in Ho0 as ((Hcs5 & _) & _). simpl in Hcs5.
  unfold cell_orders in H.
  apply bind_Ok in H as ([] & w5' & [= <-] & H).
  pose proof H as H'.
  apply for_range_append_order in H' as (_ & _ & _ & Hcs6 & _).
  apply for_range_append_order_ids in H as (os & Hos & Hoids). simpl in *.
  rewrite Hcs6, Hcs5, Hcs3, Hcs, Hos. done.
Qed.

(** X1: the customers of a run carry the identifiers C1, ..., Cn and its
    orders O1, ..., Om, in the order of generation; no identifier occurs
    twice in its table. *)
Theorem generated_ids_unique (wall : nat -> Z) (seed : Z) (n m : nat)
        (file : list Product.t) (cs : list Customer.t) (os : list Order.t) :
  generate wall seed n m file = Ok (cs, os) ->
  map Customer.customer_id cs = map (fmt_id "C") (seq 1 n)
  /\ map Order.order_id os = map (fmt_id "O") (seq 1 m)
  /\ NoDup (map Customer.customer_id cs)
  /\ NoDup (map Order.order_id os).
Proof.
  intros H. apply generate_tables in H as (Hc & Ho & _).
  rewrite Hc, Ho. repeat split; apply NoDup_fmt_ids.
Qed.

(** X2: every customer of a run has an age between 18 and 91, and a name
    and a state without upper-case letters (lowering them again changes
    nothing). *)
Theorem generated_customer_fields (wall : nat -> Z) (seed : Z) (n m : nat)
        (file : list Product.t) (cs : list Customer.t) (os : list Order.t)
        (c : Customer.t) :
  generate wall seed n m file = Ok (cs, os) ->
  c ∈ cs ->
  18 <= Customer.age c <= 91
  /\ lower (Customer.name c) = Customer.name c
  /\ lower (Customer.state c) = Customer.state c.
Proof.
  intros H Hc. apply generate_tables in H as (_ & _ & Hall).
  rewrite Forall_forall in Hall. apply Hall, Hc.
Qed.

Lemma bind_step {A B} (m : M A) (k : A -> M B) w a w1 :
  m w = Ok (a, w1) -> bind m k w = k a w1.
Proof. intros Hm. unfold bind. rewrite Hm. reflexivity. Qed.

Lemma generate_order_no_customer wall i w :
  customer_ids w = [] -> generate_order wall i w = Raise IndexError.
Proof. intros H. unfold generate_order, bind, gets. rewrite H. reflexivity. Qed.

Lemma generate_order_no_product wall i w :
  product_ids w = [] -> generate_order wall i w = Raise IndexError.
Proof.
  intros H. unfold generate_order.
  destruct (customer_ids w) as [|c0 ids] eqn:E;
    [apply generate_order_no_customer, E|].
  rewrite (bind_step (gets customer_ids) _ w (customer_ids w) w eq_refl). rewrite E.
  destruct (choice_total (c0 :: ids) w ltac:(discriminate)) as (x & w1 & Hx).
  rewrite (bind_step _ _ _ _ _ Hx).
  apply choice_Ok in Hx as [_ (_ & _ & Hp & _)].
  rewrite (bind_step (gets product_ids) _ w1 (product_ids w1) w1 eq_refl).
  rewrite Hp, H. reflexivity.
Qed.

(** With no customer or with an empty product file the sample order
    generated before the loop fails on the empty pool. *)
Lemma generate_raises (wall : nat -> Z) (seed : Z) (n m : nat) (file : list Product.t) :
  n = O \/ file = [] ->
  generate wall seed n m file = Raise IndexError.
Proof.
  intros Hempty. unfold generate.
  assert (Hrun : generation_run wall seed n m file initial_world = Raise IndexError);
    [|rewrite Hrun; reflexivity].
  unfold generation_run.
  rewrite (bind_step (cell_seed seed) _ initial_world tt _ eq_refl).
  destruct (generate_customer_total wall 1 (with_fk (seed_instance seed)
              (with_mt (random_seed seed) initial_world))) as (c0 & w1 & Hc0 & _).
  rewrite (bind_step _ _ _ _ _ Hc0).
  destruct (for_range_append_customer_total wall n 0%nat (with_customers [] [] w1))
    as ([] & w2 & Hcs & _).
  assert (Hcell : cell_customers wall n w1 = Ok (tt, w2)) by exact Hcs.
  rewrite (bind_step _ _ _ _ _ Hcell).
  apply for_range_append_customer in Hcs as (cs & _ & Hids & Hlen & _ & _).
  simpl in Hids.
  destruct (for_range_event_timestamps_total wall (length file) 0%nat w2)
    as ([] & w3 & Hts & _).
  assert (Hprod : cell_products wall file w2
                  = Ok (tt, with_product_ids (map Product.product_id file) w3)).
  { unfold cell_products. rewrite (bind_step _ _ _ _ _ Hts). reflexivity. }
  rewrite (bind_step _ _ _ _ _ Hprod).
  apply for_range_event_timestamps in Hts as (_ & Hids3 & _ & _).
  assert (Hord : generate_order wall 1 (with_product_ids (map Product.product_id file) w3)
                 = Raise IndexError).
  { destruct Hempty as [-> | ->].
    - apply generate_order_no_customer. simpl. rewrite Hids3, Hids.
      destruct cs; [reflexivity | discriminate].
    - apply generate_order_no_product. reflexivity. }
  unfold bind. rewrite Hord. reflexivity.
Qed.

(** X3: a run raises [IndexError] exactly when it is asked for no customer
    or its product file is empty, whatever the number of orders; every other
    run returns its two tables, with [n] customers and [m] orders. *)
Theorem generate_empty_pool (wall : nat -> Z) (seed : Z) (n m : nat)
        (file : list Product.t) :
  (n = O \/ file = [] -> generate wall seed n m file = Raise IndexError)
  /\ (n <> O -> file <> [] ->
      exists cs os, generate wall seed n m file = Ok (cs, os)
        /\ length cs = n /\ length os = m).
Proof.
  split; [apply generate_raises|].
  intros Hn Hfile. apply generate_total; [lia | exact Hfile].
Qed.

End GeneratorMore.

Lemma generated_ids_unique_witness :
  @generate demo_source demo_wall 123 2 2 demo_file
  = Ok (demo_customers, [demo_order1; demo_order2])
  /\ map Customer.customer_id demo_customers = map (fmt_id "C") (seq 1 2)
  /\ map Order.order_id [demo_order1; demo_order2] = map (fmt_id "O") (seq 1 2)
  /\ NoDup (map Customer.customer_id demo_customers)
  /\ NoDup (map Order.order_id [demo_order1; demo_order2]).
Proof.
  assert (Hgen : @generate demo_source demo_wall 123 2 2 demo_file
                 = Ok (demo_customers, [demo_order1; demo_order2]))
    by (vm_compute; reflexivity).
  split; [exact Hgen|].
  exact (@generated_ids_unique demo_source demo_wall 123 2 2 demo_file
           demo_customers [demo_order1; demo_order2] Hgen).
Defined.

Lemma generated_customer_fields_witness :
  @generate demo_source demo_wall 123 2 2 demo_file
  = Ok (demo_customers, [demo_order1; demo_order2])
  /\ Customer.mk "C2" "eve fox" "M" "ohio" 91 false "2020-05-06 12:30:00" 2000
     ∈ demo_customers
  /\ 18 <= 91 <= 91
  /\ lower "eve fox" = "eve fox"%string
  /\ lower "ohio" = "ohio"%string.
Proof.
  assert (Hgen : @generate demo_source demo_wall 123 2 2 demo_file
                 = Ok (demo_customers, [demo_order1; demo_order2]))
    by (vm_compute; reflexivity).
  assert (Hin : Customer.mk "C2" "eve fox" "M" "ohio" 91 false "2020-05-06 12:30:00" 2000
                ∈ demo_customers)
    by (unfold demo_customers; right; left).
  split; [exact Hgen|]. split; [exact Hin|].
  exact (@generated_customer_fields demo_source demo_wall 123 2 2 demo_file
           demo_customers [demo_order1; demo_order2] _ Hgen Hin).
Defined.

(** * The waiting loops *)

Lemma poll_first {X} (observe : nat -> X) (finished : X -> bool) (n : nat) :
  forall fuel k,
  (forall j, (k <= j < k + n)%nat -> finished (observe j) = false) ->
  finished (observe (k + n)%nat) = true ->
  (n <= fuel)%nat ->
  poll observe finished fuel k = Some (observe (k + n)%nat, (k + n)%nat).
Proof.
  induction n as [|n IH]; intros fuel k Hbusy Hdone Hfuel.
  - rewrite Nat.add_0_r in *. destruct fuel; simpl; rewrite Hdone; reflexivity.
  - destruct fuel as [|fuel]; [lia|]. simpl.
    rewrite (Hbusy k) by lia.
    replace (k + S n)%nat with (S k + n)%nat in * by lia.
    apply IH; [|exact Hdone|lia]. intros j Hj. apply Hbusy. lia.
Qed.

Lemma poll_never {X} (observe : nat -> X) (finished : X -> bool) :
  forall fuel k,
  (forall j, (k <= j <= k + fuel)%nat -> finished (observe j) = false) ->
  poll observe finished fuel k = None.
Proof.
  induction fuel as [|fuel IH]; intros k Hbusy; simpl.
  - rewrite (Hbusy k) by lia. reflexivity.
  - rewrite (Hbusy k) by lia. apply IH. intros j Hj. apply Hbusy. lia.
Qed.

Lemma poll_Some {X} (observe : nat -> X) (finished : X -> bool) :
  forall fuel k x n,
  poll observe finished fuel k = Some (x, n) ->
  x = observe n /\ finished x = true /\ (k <= n <= k + fuel)%nat
  /\ forall j, (k <= j < n)%nat -> finished (observe j) = false.
Proof.
  induction fuel as [|fuel IH]; intros k x n H; simpl in H.
  - destruct (finished (observe k)) eqn:E; [|discriminate].
    injection H as <- <-. repeat split; try done; try lia; intros j Hj; lia.
  - destruct (finished (observe k)) eqn:E.
    + injection H as <- <-. repeat split; try done; try lia; intros j Hj; lia.
    + apply IH in H as (-> & Hf & Hn & Hbusy). repeat split; try done; try lia.
      intros j Hj. destruct (decide (j = k)) as [->|Hne]; [exact E|].
      apply Hbusy. lia.
Qed.

(** X4: when the feature group is reported ['Creating'] [n] times and then
    something else, the wait sleeps [n] times; it returns if that status is
    ['Created'] and exits with the status otherwise. *)
Theorem wait_for_feature_group_first_status (describe : nat -> string) (n fuel : nat) :
  (forall j, (j < n)%nat -> describe j = "Creating"%string) ->
  describe n <> "Creating"%string ->
  (n <= fuel)%nat ->
  wait_for_feature_group_creation_complete describe fuel
  = Some (if decide (describe n = "Created"%string) then Returned
          else SystemExit (describe n), n).
Proof.
  intros Hbusy Hdone Hfuel. unfold wait_for_feature_group_creation_complete.
  rewrite (poll_first describe _ n fuel 0%nat).
  - simpl. destruct (decide (describe n = "Created"%string)) as [E|E].
    + rewrite bool_decide_eq_false_2 by (intros H; exact (H E)). reflexivity.
    + rewrite bool_decide_eq_true_2 by exact E. reflexivity.
  - intros j Hj. simpl. apply bool_decide_eq_false_2. intros H. apply H, Hbusy. lia.
  - simpl. apply bool_decide_eq_true_2, Hdone.
  - exact Hfuel.
Qed.

(** X5: the wait for the feature group has no timeout: as long as the
    status stays ['Creating'] it keeps sleeping. *)
Theorem wait_for_feature_group_no_timeout (describe : nat -> string) (fuel : nat) :
  (forall j, (j <= fuel)%nat -> describe j = "Creating"%string) ->
  wait_for_feature_group_creation_complete describe fuel = None.
Proof.
  intros Hbusy. unfold wait_for_feature_group_creation_complete.
  rewrite poll_never; [reflexivity|].
  intros j Hj. apply bool_decide_eq_false_2. intros H. apply H, Hbusy. lia.
Qed.

(** X6: the wait for the pipeline execution ends with the first status
    that is not ['Executing'] and never raises: a failed execution is
    waited for and passed over like a successful one. *)
Theorem wait_for_pipeline_any_status (describe : nat -> string) (n fuel : nat) :
  (forall j, (j < n)%nat -> describe j = "Executing"%string) ->
  describe n <> "Executing"%string ->
  (n <= fuel)%nat ->
  wait_for_pipeline_execution describe fuel = Some (describe n, n).
Proof.
  intros Hbusy Hdone Hfuel. unfold wait_for_pipeline_execution.
  rewrite (poll_first describe _ n fuel 0%nat); [reflexivity| | |exact Hfuel].
  - intros j Hj. simpl. apply bool_decide_eq_false_2. intros H. apply H, Hbusy. lia.
  - simpl. apply bool_decide_eq_true_2, Hdone.
Qed.

(** X7: when the wait for the offline store ends, each of the three counts
    read last has reached its expected number, the value kept is the count of
    the orders, and no earlier reading had all three counts reached. *)
Theorem wait_for_offline_store_counts (customers_count products_count orders_count : Z)
        (get_counts : nat -> Z * Z * Z) (fuel : nat) (o : Z) (sleeps : nat) :
  wait_for_offline_store customers_count products_count orders_count get_counts fuel
  = Some (o, sleeps) ->
  (exists c p, get_counts sleeps = (c, p, o)
     /\ customers_count <= c /\ products_count <= p /\ orders_count <= o)
  /\ forall j, (j < sleeps)%nat ->
       offline_store_ready customers_count products_count orders_count (get_counts j)
       = false.
Proof.
  unfold wait_for_offline_store. intros H.
  destruct (poll get_counts _ fuel 0) as [[[[c p] o'] n]|] eqn:E; [|discriminate].
  injection H as <- <-.
  apply poll_Some in E as (Hx & Hready & _ & Hbusy). split.
  - exists c, p. split; [symmetry; exact Hx|].
    unfold offline_store_ready in Hready.
    apply andb_prop in Hready as [Hready Ho]. apply andb_prop in Hready as [Hc Hp].
    apply Z.leb_le in Hc, Hp, Ho. done.
  - intros j Hj. apply Hbusy. lia.
Qed.

Lemma wait_for_feature_group_first_status_witness :
  (forall j, (j < 2)%nat -> demo_describe "CreateFailed" j = "Creating"%string)
  /\ demo_describe "CreateFailed" 2 <> "Creating"%string
  /\ (2 <= 5)%nat
  /\ wait_for_feature_group_creation_complete (demo_describe "CreateFailed") 5
     = Some (if decide (demo_describe "CreateFailed" 2 = "Created"%string) then Returned
             else SystemExit (demo_describe "CreateFailed" 2), 2%nat).
Proof.
  assert (Hbusy : forall j, (j < 2)%nat -> demo_describe "CreateFailed" j = "Creating"%string).
  { intros j Hj. unfold demo_describe.
    destruct (Nat.ltb_spec j 2); [reflexivity | lia]. }
  assert (Hdone : demo_describe "CreateFailed" 2 <> "Creating"%string)
    by (vm_compute; discriminate).
  assert (Hfuel : (2 <= 5)%nat) by lia.
  split; [exact Hbusy|]. split; [exact Hdone|]. split; [exact Hfuel|].
  exact (wait_for_feature_group_first_status (demo_describe "CreateFailed") 2 5
           Hbusy Hdone Hfuel).
Defined.

Lemma wait_for_feature_group_no_timeout_witness :
  (forall j, (j <= 7)%nat -> (fun _ : nat => "Creating"%string) j = "Creating"%string)
  /\ wait_for_feature_group_creation_complete (fun _ => "Creating"%string) 7 = None.
Proof.
  assert (Hbusy : forall j, (j <= 7)%nat
                            -> (fun _ : nat => "Creating"%string) j = "Creating"%string)
    by (intros j _; reflexivity).
  split; [exact Hbusy|].
  exact (wait_for_feature_group_no_timeout (fun _ => "Creating"%string) 7 Hbusy).
Defined.

Lemma wait_for_pipeline_any_status_witness :
  (forall j, (j < 3)%nat -> demo_execution j = "Executing"%string)
  /\ demo_execution 3 <> "Executing"%string
  /\ (3 <= 3)%nat
  /\ wait_for_pipeline_execution demo_execution 3 = Some (demo_execution 3, 3%nat).
Proof.
  assert (Hbusy : forall j, (j < 3)%nat -> demo_execution j = "Executing"%string).
  { intros j Hj. unfold demo_execution.
    destruct (Nat.ltb_spec j 3); [reflexivity | lia]. }
  assert (Hdone : demo_execution 3 <> "Executing"%string) by (vm_compute; discriminate).
  assert (Hfuel : (3 <= 3)%nat) by lia.
  split; [exact Hbusy|]. split; [exact Hdone|]. split; [exact Hfuel|].
  exact (wait_for_pipeline_any_status demo_execution 3 3 Hbusy Hdone Hfuel).
Defined.

Lemma wait_for_offline_store_counts_witness :
  wait_for_offline_store 10 3 12 demo_counts 9 = Some (15, 3%nat)
  /\ (exists c p, demo_counts 3 = (c, p, 15) /\ 10 <= c /\ 3 <= p /\ 12 <= 15)
  /\ forall j, (j < 3)%nat -> offline_store_ready 10 3 12 (demo_counts j) = false.
Proof.
  assert (Hwait : wait_for_offline_store 10 3 12 demo_counts 9 = Some (15, 3%nat))
    by (vm_compute; reflexivity).
  split; [exact Hwait|].
  exact (wait_for_offline_store_counts 10 3 12 demo_counts 9 15 3 Hwait).
Defined.

(** * More on the transformer *)

(** X8: for every integer age, the bins of the transformer are closed on
    the right: ages 18..30 fall in the first bucket, 31..40 in the second and
    so on up to 71..90; exactly one bucket column is 1 for the ages from 18
    to 90, and none for any other age. *)
Theorem age_bucket_of_every_age (age : Z) :
  pd_cut bins true age
  = (if (age <? 18) || (90 <? age) then None
     else if age <=? 30 then Some 0%nat
     else if age <=? 40 then Some 1%nat
     else if age <=? 50 then Some 2%nat
     else if age <=? 60 then Some 3%nat
     else if age <=? 70 then Some 4%nat
     else Some 5%nat)
  /\ bucket_sum (age_columns age) = (if (18 <=? age) && (age <=? 90) then 1 else 0).
Proof.
  assert (Hcut : pd_cut bins true age
                 = (if (age <? 18) || (90 <? age) then None
                    else if age <=? 30 then Some 0%nat
                    else if age <=? 40 then Some 1%nat
                    else if age <=? 50 then Some 2%nat
                    else if age <=? 60 then Some 3%nat
                    else if age <=? 70 then Some 4%nat
                    else Some 5%nat)).
  { destruct (decide (age = 18)) as [->|Hlow]; [reflexivity|].
    unfold pd_cut, bins. cbn [searchsorted_left head length andb].
    rewrite (bool_decide_eq_false_2 (Some age = Some 18)) by congruence.
    repeat match goal with
           | |- context [?a <? ?b] => destruct (Z.ltb_spec a b); try lia
           | |- context [?a <=? ?b] => destruct (Z.leb_spec a b); try lia
           end; reflexivity. }
  split; [exact Hcut|]. unfold age_columns. rewrite Hcut.
  repeat match goal with
         | |- context [?a <? ?b] => destruct (Z.ltb_spec a b); try lia
         | |- context [?a <=? ?b] => destruct (Z.leb_spec a b); try lia
         end; reflexivity.
Qed.

Section LabelEncoderMore.
Context {A : Type} (R : relation A) `{!RelDecision R} `{!EqDecision A}.
Context `{!PartialOrder R} `{!Total R}.

Lemma index_of_lt (classes : list A) (x : A) :
  x ∈ classes -> (index_of x classes < length classes)%nat.
Proof.
  induction classes as [|c classes IH]; intros Hx; [inversion Hx|]. simpl.
  destruct (decide (c = x)) as [->|Hne]; [lia|].
  apply elem_of_cons in Hx as [->|Hx]; [done|]. apply IH in Hx. lia.
Qed.

(** X9: every code of [fit_transform] is below the number of distinct
    values of the column, and two values of the column get the same code only
    if they are equal. *)
Theorem label_codes_injective (enc : LabelEncoder) (y : list A) (i j : nat) (x x' : A)
        (k k' : nat) :
  y !! i = Some x -> y !! j = Some x' ->
  (fit_transform R enc y).1 !! i = Some k ->
  (fit_transform R enc y).1 !! j = Some k' ->
  (k < length (remove_dups y))%nat /\ (k = k' -> x = x').
Proof.
  unfold fit_transform, fit, transform. cbn [fst snd classes_].
  rewrite !map_fmap, !list_lookup_fmap. intros Hx Hx'. rewrite Hx, Hx'.
  intros [= <-] [= <-].
  assert (Hin : x ∈ np_unique R y).
  { apply (elem_of_np_unique R). eapply list_elem_of_lookup_2, Hx. }
  assert (Hin' : x' ∈ np_unique R y).
  { apply (elem_of_np_unique R). eapply list_elem_of_lookup_2, Hx'. }
  split.
  - replace (length (remove_dups y)) with (length (np_unique R y)).
    + apply index_of_lt, Hin.
    + unfold np_unique. apply Permutation_length, merge_sort_Permutation.
  - intros Heq. apply index_of_lookup in Hin, Hin'. congruence.
Qed.

(** X10: a column that holds a single value is encoded to zeros, whatever
    the value is. *)
Theorem label_constant_column (enc : LabelEncoder) (v : A) (n : nat) :
  (fit_transform R enc (replicate (S n) v)).1 = replicate (S n) O
  /\ classes_ (fit_transform R enc (replicate (S n) v)).2 = [v].
Proof.
  unfold fit_transform, fit, transform. cbn [fst snd classes_].
  assert (Hu : np_unique R (replicate (S n) v) = [v]).
  { rewrite (np_unique_same_set R (replicate (S n) v) [v]); [reflexivity|].
    intros x. rewrite elem_of_replicate, list_elem_of_singleton.
    split; [intros [-> _]; reflexivity | intros ->; split; [reflexivity | lia]]. }
  rewrite Hu. split; [|reflexivity].
  rewrite map_fmap, fmap_replicate. simpl.
  destruct (decide (v = v)); [reflexivity | done].
Qed.

End LabelEncoderMore.

Lemma label_codes_injective_witness :
  ["M"; "F"; "M"]%string !! 0%nat = Some "M"%string
  /\ ["M"; "F"; "M"]%string !! 1%nat = Some "F"%string
  /\ (fit_transform String.le (mkLabelEncoder []) ["M"; "F"; "M"]%string).1 !! 0%nat
     = Some 1%nat
  /\ (fit_transform String.le (mkLabelEncoder []) ["M"; "F"; "M"]%string).1 !! 1%nat
     = Some 0%nat
  /\ (1 < length (remove_dups ["M"; "F"; "M"]%string))%nat
  /\ (1%nat = 0%nat -> "M"%string = "F"%string).
Proof.
  assert (Hx : ["M"; "F"; "M"]%string !! 0%nat = Some "M"%string) by reflexivity.
  assert (Hx' : ["M"; "F"; "M"]%string !! 1%nat = Some "F"%string) by reflexivity.
  assert (Hk : (fit_transform String.le (mkLabelEncoder []) ["M"; "F"; "M"]%string).1
               !! 0%nat = Some 1%nat) by (vm_compute; reflexivity).
  assert (Hk' : (fit_transform String.le (mkLabelEncoder []) ["M"; "F"; "M"]%string).1
                !! 1%nat = Some 0%nat) by (vm_compute; reflexivity).
  split; [exact Hx|]. split; [exact Hx'|]. split; [exact Hk|]. split; [exact Hk'|].
  exact (label_codes_injective String.le (mkLabelEncoder []) ["M"; "F"; "M"]%string
           0 1 "M"%string "F"%string 1 0 Hx Hx' Hk Hk').
Defined.

Lemma label_constant_column_witness :
  (fit_transform String.le (mkLabelEncoder []) (replicate 3 "F"%string)).1 = replicate 3 O
  /\ classes_ (fit_transform String.le (mkLabelEncoder []) (replicate 3 "F"%string)).2
     = ["F"%string].
Proof.
  exact (label_constant_column String.le (mkLabelEncoder []) "F"%string 2).
Defined.

(** X11: on a column of zeros and ones in which both values occur, the
    label encoding of [is_reordered] changes nothing: 0 stays 0 and 1
    stays 1. *)
Theorem label_encoding_of_flags (enc : LabelEncoder) (y : list Z) :
  0 ∈ y -> 1 ∈ y -> (forall x, x ∈ y -> x = 0 \/ x = 1) ->
  (fit_transform Z.le enc y).1 = map Z.to_nat y
  /\ classes_ (fit_transform Z.le enc y).2 = [0; 1].
Proof.
  intros H0 H1 Hall. unfold fit_transform, fit, transform. cbn [fst snd classes_].
  assert (Hu : np_unique Z.le y = [0; 1]).
  { rewrite (np_unique_same_set Z.le y [0; 1]); [reflexivity|].
    intros x. rewrite !elem_of_cons, elem_of_nil. split.
    - intros Hx. destruct (Hall x Hx) as [->| ->]; auto.
    - intros [->|[->|[]]]; assumption. }
  rewrite Hu. split; [|reflexivity].
  apply map_ext_in. intros x Hx. apply list_elem_of_In in Hx.
  destruct (Hall x Hx) as [->| ->]; reflexivity.
Qed.

Lemma label_encoding_of_flags_witness :
  0 ∈ [1; 1; 0] /\ 1 ∈ [1; 1; 0]
  /\ (forall x, x ∈ [1; 1; 0] -> x = 0 \/ x = 1)
  /\ (fit_transform Z.le (mkLabelEncoder []) [1; 1; 0]).1 = map Z.to_nat [1; 1; 0]
  /\ classes_ (fit_transform Z.le (mkLabelEncoder []) [1; 1; 0]).2 = [0; 1].
Proof.
  assert (H0 : 0 ∈ [1; 1; 0]) by (apply (bool_decide_unpack _); vm_compute; exact I).
  assert (H1 : 1 ∈ [1; 1; 0]) by (apply (bool_decide_unpack _); vm_compute; exact I).
  assert (Hall : forall x, x ∈ [1; 1; 0] -> x = 0 \/ x = 1).
  { intros x Hx. rewrite !elem_of_cons, elem_of_nil in Hx. tauto. }
  split; [exact H0|]. split; [exact H1|]. split; [exact Hall|].
  exact (label_encoding_of_flags (mkLabelEncoder []) [1; 1; 0] H0 H1 Hall).
Defined.

(** * More on the ingestion of a partition *)

Section IngestionMore.
Context {Row : Type}.

(** X12: the per-row ingestion writes the rows of the partition in order
    and stops at the first row whose status is not 200: the rows before it
    are written, that row and the rows after it are not, and the assertion
    error is raised exactly in that case. *)
Theorem ingest_to_feature_store_prefix (put_record : Row -> Z) (rows : list Row) :
  exists rest,
    rows = (Ingestion.ingest_to_feature_store put_record rows).2 ++ rest
    /\ Forall (fun row => put_record row = 200)
              (Ingestion.ingest_to_feature_store put_record rows).2
    /\ match rest with
       | [] => (Ingestion.ingest_to_feature_store put_record rows).1 = Ok tt
       | row :: _ =>
           put_record row <> 200
           /\ (Ingestion.ingest_to_feature_store put_record rows).1 = Raise AssertionError
       end.
Proof.
  induction rows as [|row rows IH]; simpl.
  - exists []. done.
  - unfold Ingestion.py_assert. case_bool_decide as E; simpl.
    + destruct IH as (rest & Hrows & Hall & Hres).
      destruct (Ingestion.ingest_to_feature_store put_record rows) as [r written].
      simpl in *. exists rest. split; [congruence|]. split; [constructor; assumption|].
      exact Hres.
    + exists (row :: rows). done.
Qed.

End IngestionMore.

(** * More on the frames of modules 2 and 3 *)

Section FrameMore.
Context {V : Type}.
Implicit Types (df rest : DataFrame.t V) (col : DataFrame.column V).

Lemma pop_Raise (item : string) df e :
  DataFrame.pop item df = Raise e -> e = KeyError /\ item ∉ DataFrame.columns df.
Proof.
  induction df as [|[name c] df IH]; simpl.
  - intros [= <-]. split; [reflexivity | apply not_elem_of_nil].
  - destruct (decide (name = item)) as [->|Hne]; [discriminate|].
    destruct (DataFrame.pop item df) as [[c0 rest0]|e0]; [discriminate|].
    intros [= <-]. destruct (IH eq_refl) as [-> Hnot]. split; [reflexivity|].
    apply not_elem_of_cons. split; [congruence | exact Hnot].
Qed.

Lemma move_target_first_Ok df df' :
  DataFrame.move_target_first df = Ok df' ->
  exists col rest,
    DataFrame.pop "is_reordered" df = Ok (col, rest)
    /\ ("is_reordered"%string ∉ DataFrame.columns rest)
    /\ df' = ("is_reordered"%string, col) :: rest.
Proof.
  unfold DataFrame.move_target_first.
  destruct (DataFrame.pop "is_reordered" df) as [[col rest]|e]; [|discriminate].
  unfold DataFrame.insert.
  destruct (decide (_ ∈ _)) as [|Hnot]; [discriminate|].
  destruct (decide (0 ≤ _)%nat); [|discriminate].
  rewrite take_0, drop_0. intros [= <-]. eauto.
Qed.

(** A successful [pop] takes one of the columns of that name away. *)
Lemma pop_count (item : string) df col rest :
  DataFrame.pop item df = Ok (col, rest) ->
  length (filter (eq item) (DataFrame.columns df))
  = S (length (filter (eq item) (DataFrame.columns rest))).
Proof.
  revert col rest. induction df as [|[name c] df IH]; intros col rest H; [discriminate|].
  simpl in H. destruct (decide (name = item)) as [->|Hne].
  - injection H as <- <-. simpl. rewrite filter_cons_True by reflexivity. reflexivity.
  - destruct (DataFrame.pop item df) as [[c0 r0]|e0]; [|discriminate].
    injection H as <- <-. simpl.
    rewrite !filter_cons_False by congruence. exact (IH _ _ eq_refl).
Qed.

Lemma count_pos (item : string) (l : list string) :
  item ∈ l <-> (0 < length (filter (eq item) l))%nat.
Proof.
  split.
  - intros Hin. assert (Hf : item ∈ filter (eq item) l)
      by (apply list_elem_of_filter; split; [reflexivity | exact Hin]).
    destruct (filter (eq item) l); [inversion Hf | simpl; lia].
  - intros Hlen. destruct (filter (eq item) l) as [|x f] eqn:E; [simpl in Hlen; lia|].
    assert (Hx : x ∈ filter (eq item) l) by (rewrite E; left).
    apply list_elem_of_filter in Hx as [-> Hx]. exact Hx.
Qed.

Lemma count_NoDup (item : string) (l : list string) :
  NoDup l -> (length (filter (eq item) l) <= 1)%nat.
Proof.
  induction 1 as [|x l Hx Hnd IH]; [simpl; lia|].
  destruct (decide (item = x)) as [->|Hne].
  - rewrite filter_cons_True by reflexivity. simpl.
    apply (proj2 (Nat.succ_le_mono _ _)).
    destruct (Nat.eq_0_gt_0_cases (length (filter (eq x) l))) as [->|Hpos]; [lia|].
    apply count_pos in Hpos. done.
  - rewrite filter_cons_False by exact Hne. exact IH.
Qed.

(** X13: the move of the target raises [KeyError] exactly when the frame
    has no column [is_reordered] and [ValueError] exactly when it has more
    than one; it returns exactly when the frame has one such column, and it
    raises no other error.  On a frame whose column names are distinct
    [KeyError] is the only error. *)
Theorem move_target_first_errors df :
  (DataFrame.move_target_first df = Raise KeyError
   <-> "is_reordered"%string ∉ DataFrame.columns df)
  /\ (DataFrame.move_target_first df = Raise ValueError
      <-> (2 <= length (filter (eq "is_reordered"%string) (DataFrame.columns df)))%nat)
  /\ ((exists df', DataFrame.move_target_first df = Ok df')
      <-> length (filter (eq "is_reordered"%string) (DataFrame.columns df)) = 1%nat)
  /\ (forall e, DataFrame.move_target_first df = Raise e -> e = KeyError \/ e = ValueError)
  /\ (NoDup (DataFrame.columns df) ->
      forall e, DataFrame.move_target_first df = Raise e -> e = KeyError)
  /\ DataFrame.move_target_first df <> Raise IndexError
  /\ DataFrame.move_target_first df <> Raise AssertionError.
Proof.
  pose proof (count_pos "is_reordered" (DataFrame.columns df)) as Hpos.
  pose proof (count_NoDup "is_reordered" (DataFrame.columns df)) as Hnd.
  unfold DataFrame.move_target_first.
  destruct (DataFrame.pop "is_reordered" df) as [[col rest]|e] eqn:E.
  - pose proof (pop_count _ _ _ _ E) as Hcount.
    pose proof (count_pos "is_reordered" (DataFrame.columns rest)) as Hrest.
    unfold DataFrame.insert.
    destruct (decide ("is_reordered"%string ∈ DataFrame.columns rest)) as [Hin|Hnot].
    + apply Hrest in Hin.
      split; [split; [discriminate | intros Hn; exfalso; apply Hn, Hpos; lia]|].
      split; [split; [intros _; lia | reflexivity]|].
      split; [split; [intros [df' ?]; discriminate | lia]|].
      split; [intros e [= <-]; right; reflexivity|].
      split; [intros Hd; specialize (Hnd Hd); lia|].
      split; discriminate.
    + assert (Hzero : length (filter (eq "is_reordered"%string) (DataFrame.columns rest))
                      = 0%nat).
      { destruct (Nat.eq_0_gt_0_cases
                    (length (filter (eq "is_reordered"%string) (DataFrame.columns rest))))
          as [Hz|Hgt]; [exact Hz|]. apply Hrest in Hgt. done. }
      destruct (decide (0 ≤ length rest)%nat) as [_|Hlt]; [|lia].
      split; [split; [discriminate | intros Hn; exfalso; apply Hn, Hpos; lia]|].
      split; [split; [discriminate | lia]|].
      split; [split; [lia | eauto]|].
      split; [discriminate|]. split; [discriminate|]. split; discriminate.
  - apply pop_Raise in E as [-> Hnot].
    assert (Hzero : length (filter (eq "is_reordered"%string) (DataFrame.columns df))
                    = 0%nat).
    { destruct (Nat.eq_0_gt_0_cases
                  (length (filter (eq "is_reordered"%string) (DataFrame.columns df))))
        as [Hz|Hgt]; [exact Hz|]. apply Hpos in Hgt. done. }
    split; [split; [intros _; exact Hnot | reflexivity]|].
    split; [split; [discriminate | lia]|].
    split; [split; [intros [df' ?]; discriminate | lia]|].
    split; [intros e [= <-]; left; reflexivity|].
    split; [intros _ e [= <-]; reflexivity|]. split; discriminate.
Qed.

(** Two columns of the name make the move raise [ValueError]. *)
Example frame_with_two_targets :
  DataFrame.move_target_first
    [("is_reordered"%string, [1; 0]); ("is_reordered"%string, [0; 1])]
  = Raise ValueError.
Proof. vm_compute. reflexivity. Qed.

(** X14: moving the target a second time changes nothing. *)
Theorem move_target_first_idempotent df df' :
  DataFrame.move_target_first df = Ok df' ->
  DataFrame.move_target_first df' = Ok df'.
Proof.
  intros H. apply move_target_first_Ok in H as (col & rest & _ & Hnot & ->).
  unfold DataFrame.move_target_first. simpl. unfold DataFrame.insert.
  rewrite decide_False by exact Hnot. rewrite decide_True by lia.
  rewrite take_0, drop_0. reflexivity.
Qed.

(** X15: in a frame whose target has been moved to the front, the payload
    of a row, its values from the second on, holds the values of the other
    columns in their original order and not the target. *)
Theorem payload_without_target df df' (i : nat) :
  NoDup (DataFrame.columns df) ->
  DataFrame.move_target_first df = Ok df' ->
  Frame.payload (Frame.record_values df' i)
  = Frame.record_values (filter (fun c => c.1 <> "is_reordered"%string) df) i
  /\ exists col, ("is_reordered"%string, col) ∈ df
       /\ head (Frame.record_values df' i) = Some (col !! i).
Proof.
  intros Hnd H. apply move_target_first_Ok in H as (col & rest & Hpop & _ & ->).
  apply pop_Ok in Hpop as (Hin & -> & _); [|exact Hnd].
  split; [reflexivity|]. exists col. split; [exact Hin | reflexivity].
Qed.

Lemma NoDup_columns_filter (P : string * list V -> Prop) `{!forall c, Decision (P c)} df :
  NoDup (DataFrame.columns df) -> NoDup (DataFrame.columns (filter P df)).
Proof.
  unfold DataFrame.columns. rewrite !map_fmap.
  induction df as [|c df IH]; intros Hnd; [constructor|].
  rewrite fmap_cons in Hnd. apply NoDup_cons in Hnd as [Hc Hnd].
  destruct (decide (P c)) as [HP|HP].
  - rewrite filter_cons_True by exact HP. rewrite fmap_cons. apply NoDup_cons.
    split; [|apply IH, Hnd]. intros Hin. apply Hc.
    apply list_elem_of_fmap in Hin as (c' & -> & Hc').
    apply list_elem_of_fmap. exists c'. split; [reflexivity|].
    apply list_elem_of_filter in Hc' as [_ Hc']. exact Hc'.
  - rewrite filter_cons_False by exact HP. apply IH, Hnd.
Qed.

(** X16: a joined frame with distinct column names that has all the
    columns module 2 drops, and the column [is_reordered], gives a
    training table: the target first, then the columns that were not dropped
    in the order of the joined frame. *)
Theorem training_table_columns (joined_df : DataFrame.t V) :
  NoDup (DataFrame.columns joined_df) ->
  Forall (fun l => l ∈ DataFrame.columns joined_df) dropped_columns ->
  "is_reordered"%string ∈ DataFrame.columns joined_df ->
  exists col,
    ("is_reordered"%string, col) ∈ joined_df
    /\ training_table joined_df
       = Ok (("is_reordered"%string, col)
               :: filter (fun c => c.1 ∉ "is_reordered"%string :: dropped_columns)
                         joined_df).
Proof.
  intros Hnd Hall Hin. unfold training_table, Frame.drop_columns.
  rewrite decide_True by exact Hall.
  set (model_df := filter (fun c => c.1 ∉ dropped_columns) joined_df).
  assert (Hnd' : NoDup (DataFrame.columns model_df)) by (apply NoDup_columns_filter, Hnd).
  assert (Hin' : "is_reordered"%string ∈ DataFrame.columns model_df).
  { unfold DataFrame.columns in *. rewrite map_fmap in *.
    apply list_elem_of_fmap in Hin as ([n c] & Hn & Hc). simpl in Hn. subst n.
    apply list_elem_of_fmap. exists ("is_reordered"%string, c). split; [reflexivity|].
    apply list_elem_of_filter. split; [|exact Hc].
    simpl. apply (bool_decide_unpack _). vm_compute. exact I. }
  destruct (pop_total _ _ Hin') as (col & rest & Hpop).
  destruct (pop_Ok _ _ _ _ Hnd' Hpop) as (Hcol & Hrest & _).
  exists col. split.
  { apply list_elem_of_filter in Hcol as [_ Hcol]. exact Hcol. }
  unfold DataFrame.move_target_first. rewrite Hpop. unfold DataFrame.insert.
  destruct (decide (_ ∈ _)) as [Hdup|_].
  - exfalso. subst rest. unfold DataFrame.columns in Hdup. rewrite map_fmap in Hdup.
    apply list_elem_of_fmap in Hdup as ([n c] & Hn & Hc). simpl in Hn. subst n.
    apply list_elem_of_filter in Hc as [Hc _]. simpl in Hc. done.
  - destruct (decide (0 ≤ _)%nat); [|lia]. rewrite take_0, drop_0.
    subst rest model_df. simpl. do 2 f_equal. rewrite list_filter_filter.
    apply list_filter_iff. intros [n c]. simpl. rewrite not_elem_of_cons. tauto.
Qed.

End FrameMore.

Lemma move_target_first_idempotent_witness :
  DataFrame.move_target_first demo_frame
  = Ok [("is_reordered", [1; 0]); ("purchase_amount", [10; 20]); ("age_18-29", [0; 1])]%string
  /\ DataFrame.move_target_first
       [("is_reordered", [1; 0]); ("purchase_amount", [10; 20]); ("age_18-29", [0; 1])]%string
     = Ok [("is_reordered", [1; 0]); ("purchase_amount", [10; 20]);
           ("age_18-29", [0; 1])]%string.
Proof.
  assert (Hmove : DataFrame.move_target_first demo_frame
                  = Ok [("is_reordered", [1; 0]); ("purchase_amount", [10; 20]);
                        ("age_18-29", [0; 1])]%string) by (vm_compute; reflexivity).
  split; [exact Hmove|].
  exact (move_target_first_idempotent demo_frame _ Hmove).
Defined.

Lemma payload_without_target_witness :
  NoDup (DataFrame.columns demo_frame)
  /\ DataFrame.move_target_first demo_frame
     = Ok [("is_reordered", [1; 0]); ("purchase_amount", [10; 20]);
           ("age_18-29", [0; 1])]%string
  /\ Frame.payload
       (Frame.record_values
          [("is_reordered", [1; 0]); ("purchase_amount", [10; 20]);
           ("age_18-29", [0; 1])]%string 1)
     = Frame.record_values (filter (fun c => c.1 <> "is_reordered"%string) demo_frame) 1
  /\ exists col, ("is_reordered"%string, col) ∈ demo_frame
       /\ head (Frame.record_values
                  [("is_reordered", [1; 0]); ("purchase_amount", [10; 20]);
                   ("age_18-29", [0; 1])]%string 1)
          = Some (col !! 1%nat).
Proof.
  assert (Hnd : NoDup (DataFrame.columns demo_frame))
    by (apply (bool_decide_unpack _); vm_compute; exact I).
  assert (Hmove : DataFrame.move_target_first demo_frame
                  = Ok [("is_reordered", [1; 0]); ("purchase_amount", [10; 20]);
                        ("age_18-29", [0; 1])]%string) by (vm_compute; reflexivity).
  split; [exact Hnd|]. split; [exact Hmove|].
  exact (payload_without_target demo_frame _ 1 Hnd Hmove).
Defined.

Lemma training_table_columns_witness :
  NoDup (DataFrame.columns demo_joined)
  /\ Forall (fun l => l ∈ DataFrame.columns demo_joined) dropped_columns
  /\ "is_reordered"%string ∈ DataFrame.columns demo_joined
  /\ exists col,
       ("is_reordered"%string, col) ∈ demo_joined
       /\ training_table demo_joined
          = Ok (("is_reordered"%string, col)
                  :: filter (fun c => c.1 ∉ "is_reordered"%string :: dropped_columns)
                            demo_joined).
Proof.
  assert (Hnd : NoDup (DataFrame.columns demo_joined))
    by (apply (bool_decide_unpack _); vm_compute; exact I).
  assert (Hall : Forall (fun l => l ∈ DataFrame.columns demo_joined) dropped_columns)
    by (apply (bool_decide_unpack _); vm_compute; exact I).
  assert (Hin : "is_reordered"%string ∈ DataFrame.columns demo_joined)
    by (apply (bool_decide_unpack _); vm_compute; exact I).
  split; [exact Hnd|]. split; [exact Hall|]. split; [exact Hin|].
  exact (training_table_columns demo_joined Hnd Hall Hin).
Defined.

Example demo_training_table :
  training_table demo_joined
  = Ok [("is_reordered", [1]); ("age_18-29", [0]); ("sex", [1])]%string.
Proof. vm_compute. reflexivity. Qed.

(** * The split into train, validation and test sets *)

Lemma forallb_from_spec (f : Z -> bool) (k : nat) : forall n x,
  forallb_from f k n = true -> n <= x < n + Z.of_nat k -> f x = true.
Proof.
  induction k as [|k IH]; intros n x H Hx; [lia|]. simpl in H.
  apply andb_prop in H as [Hn H].
  destruct (decide (x = n)) as [->|Hne]; [exact Hn|].
  apply (IH (n + 1)); [exact H | lia].
Qed.

Lemma split_table : forallb_from split_points_ok (Z.to_nat (max_rows + 1)) 0 = true.
Proof. vm_cast_no_check (eq_refl true). Qed.

Lemma split_points_bounds (n : Z) :
  0 <= n <= max_rows ->
  exists i1 i2, split_points n = Some (i1, i2)
    /\ 0 <= i1 <= i2 /\ i2 <= n /\ i2 = 9 * n / 10
    /\ (i1 = 7 * n / 10 \/ i1 + 1 = 7 * n / 10).
Proof.
  intros Hn.
  assert (Hok : split_points_ok n = true).
  { apply (forallb_from_spec split_points_ok (Z.to_nat (max_rows + 1)) 0 n);
      [exact split_table | unfold max_rows in *; lia]. }
  unfold split_points_ok in Hok.
  destruct (split_points n) as [[i1 i2]|]; [|discriminate].
  exists i1, i2. split; [reflexivity|].
  rewrite !andb_true_iff, orb_true_iff, !Z.leb_le, !Z.eqb_eq in Hok.
  destruct Hok as ((((H0 & H1) & H2) & H9) & H7). repeat split; assumption.
Qed.

Lemma np_split_pieces {A} (l : list A) (i1 i2 : nat) :
  (i1 <= i2 <= length l)%nat ->
  exists a b c, np_split l i1 i2 = (a, b, c)
    /\ a ++ b ++ c = l
    /\ length a = i1 /\ length b = (i2 - i1)%nat /\ length c = (length l - i2)%nat.
Proof.
  intros Hi. unfold np_split, py_slice. eexists _, _, _. split; [reflexivity|].
  rewrite Nat.sub_0_r, drop_0.
  rewrite (take_ge (drop i2 l)) by (rewrite length_drop; lia).
  replace (drop i2 l) with (drop (i2 - i1) (drop i1 l))
    by (rewrite drop_drop; f_equal; lia).
  rewrite (take_drop (i2 - i1)), take_drop.
  rewrite !length_take, !length_drop. repeat split; lia.
Qed.

(** X17: for a frame of at most [max_rows] rows the three sets are
    consecutive pieces of the shuffled frame: together they hold every row
    exactly once; validation and test have 90% and 10% of the rows (rounded
    down, and the rest), and the training set has 70% rounded down or one row
    less, because [.7 * len(df)] is computed on doubles (62 rows of 90). *)
Theorem split_partitions_rows `{Sampler} {A} (df : list A) :
  Z.of_nat (length df) <= max_rows ->
  exists train validation test,
    train_validation_test df = Some (train, validation, test)
    /\ train ++ validation ++ test = sample A df
    /\ train ++ validation ++ test ≡ₚ df
    /\ Z.of_nat (length train + length validation) = 9 * Z.of_nat (length df) / 10
    /\ (length test = length df - (length train + length validation))%nat
    /\ (Z.of_nat (length train) = 7 * Z.of_nat (length df) / 10
        \/ Z.of_nat (length train) + 1 = 7 * Z.of_nat (length df) / 10).
Proof.
  intros Hlen. unfold train_validation_test.
  destruct (split_points_bounds (Z.of_nat (length df)) ltac:(lia))
    as (i1 & i2 & -> & Hi1 & Hi2 & H9 & H7).
  assert (Hls : length (sample A df) = length df)
    by (apply Permutation_length, sample_perm).
  destruct (np_split_pieces (sample A df) (Z.to_nat i1) (Z.to_nat i2))
    as (a & b & c & -> & Happ & Ha & Hb & Hc); [lia|].
  exists a, b, c. split; [reflexivity|]. split; [exact Happ|].
  split; [rewrite Happ; apply sample_perm|].
  rewrite Ha, Hb, Hc, Hls. repeat split; lia.
Qed.

Example split_points_90 : split_points 90 = Some (62, 81).
Proof. vm_compute. reflexivity. Qed.

Lemma split_partitions_rows_witness :
  Z.of_nat (length (seq 0 90)) <= max_rows
  /\ exists train validation test,
    @train_validation_test reverse_sampler nat (seq 0 90) = Some (train, validation, test)
    /\ train ++ validation ++ test = @sample reverse_sampler nat (seq 0 90)
    /\ train ++ validation ++ test ≡ₚ seq 0 90
    /\ Z.of_nat (length train + length validation) = 9 * Z.of_nat (length (seq 0 90)) / 10
    /\ (length test = length (seq 0 90) - (length train + length validation))%nat
    /\ (Z.of_nat (length train) = 7 * Z.of_nat (length (seq 0 90)) / 10
        \/ Z.of_nat (length train) + 1 = 7 * Z.of_nat (length (seq 0 90)) / 10).
Proof.
  assert (Hlen : Z.of_nat (length (seq 0 90)) <= max_rows) by (vm_compute; discriminate).
  split; [exact Hlen|].
  exact (@split_partitions_rows reverse_sampler nat (seq 0 90) Hlen).
Defined.

(** * The partitions of the orders *)

Lemma append_String (c : Ascii.ascii) (a b : string) :
  String c a +:+ b = String c (a +:+ b).
Proof. reflexivity. Qed.

Lemma append_empty (b : string) : "" +:+ b = b.
Proof. reflexivity. Qed.

Lemma string_of_uint_dash (d1 d2 : Decimal.uint) (s1 s2 : string) :
  NilEmpty.string_of_uint d1 +:+ "-" +:+ s1 = NilEmpty.string_of_uint d2 +:+ "-" +:+ s2 ->
  d1 = d2 /\ s1 = s2.
Proof.
  revert d2. induction d1 as [|d1 IH|d1 IH|d1 IH|d1 IH|d1 IH|d1 IH|d1 IH|d1 IH|d1 IH|d1 IH];
    intros [|d2|d2|d2|d2|d2|d2|d2|d2|d2|d2] H; cbn in H; try discriminate;
    rewrite ?append_String, ?append_empty in H; injection H as H;
    first [ destruct (IH d2 H) as [-> ->]; split; reflexivity
          | subst; split; reflexivity ].
Qed.

(** X18: the name of a partition determines the year and the month: two
    orders are written to the same directory only if they were purchased in
    the same month of the same year. *)
Theorem year_month_name_inj (y1 m1 y2 m2 : nat) :
  year_month_name y1 m1 = year_month_name y2 m2 -> y1 = y2 /\ m1 = m2.
Proof.
  unfold year_month_name, py_str. intros H.
  apply string_of_uint_dash in H as [Hy Hm]. split.
  - apply Unsigned.to_uint_inj, Hy.
  - apply Unsigned.to_uint_inj.
    pose proof (NilEmpty.usu (Nat.to_uint m1)) as H1.
    pose proof (NilEmpty.usu (Nat.to_uint m2)) as H2.
    rewrite Hm in H1. congruence.
Qed.

Example year_month_name_2021_5 : year_month_name 2021 5 = "2021-5"%string.
Proof. reflexivity. Qed.

Lemma year_month_name_inj_witness :
  year_month_name 2021 5 = year_month_name 2021 5
  /\ 2021%nat = 2021%nat /\ 5%nat = 5%nat.
Proof.
  assert (H : year_month_name 2021 5 = year_month_name 2021 5) by reflexivity.
  split; [exact H|].
  exact (year_month_name_inj 2021 5 2021 5 H).
Defined.

Section PartitionFacts.
Context {Row : Type} (key : Row -> string).

Lemma concat_groups_cons (row : Row) (df : list Row) (ks : list string) :
  NoDup ks ->
  concat (map (fun k => filter (fun r => key r = k) (row :: df)) ks)
  ≡ₚ (if decide (key row ∈ ks) then [row] else [])
     ++ concat (map (fun k => filter (fun r => key r = k) df) ks).
Proof.
  induction ks as [|k ks IH]; intros Hnd; [reflexivity|].
  apply NoDup_cons in Hnd as [Hk Hnd]. specialize (IH Hnd). simpl.
  destruct (decide (key row = k)) as [E|E].
  - rewrite filter_cons_True by exact E. rewrite IH.
    destruct (decide (key row ∈ ks)) as [Hin|_]; [rewrite E in Hin; done|].
    destruct (decide (key row ∈ k :: ks)) as [_|Hout]; [reflexivity|].
    exfalso. apply Hout. rewrite E. left.
  - rewrite filter_cons_False by exact E. rewrite IH.
    destruct (decide (key row ∈ ks)) as [Hin|Hin];
      destruct (decide (key row ∈ k :: ks)) as [Hin'|Hin'].
    + simpl. symmetry. apply Permutation_middle.
    + exfalso. apply Hin'. right. exact Hin.
    + exfalso. inversion Hin'; subst; done.
    + reflexivity.
Qed.

Lemma concat_groups (df : list Row) (ks : list string) :
  NoDup ks -> (forall row, row ∈ df -> key row ∈ ks) ->
  concat (map (fun k => filter (fun r => key r = k) df) ks) ≡ₚ df.
Proof.
  intros Hnd. induction df as [|row df IH]; intros Hks.
  - clear. induction ks as [|k ks IH]; [reflexivity | exact IH].
  - rewrite concat_groups_cons by exact Hnd.
    rewrite decide_True by (apply Hks; left). simpl. constructor.
    apply IH. intros r Hr. apply Hks. right. exact Hr.
Qed.

Lemma groupby_keys (df : list Row) :
  map fst (groupby key df) = np_unique String.le (map key df).
Proof. unfold groupby. rewrite map_map. simpl. apply map_id. Qed.

Lemma elem_of_groupby (df : list Row) (k : string) (g : list Row) :
  (k, g) ∈ groupby key df
  <-> (exists row, row ∈ df /\ key row = k) /\ g = filter (fun row => key row = k) df.
Proof.
  unfold groupby. rewrite map_fmap, list_elem_of_fmap.
  setoid_rewrite (elem_of_np_unique String.le). setoid_rewrite map_fmap.
  setoid_rewrite list_elem_of_fmap. split.
  - intros (k' & [= -> ->] & row & -> & Hrow). eauto.
  - intros [(row & Hrow & <-) ->]. eauto.
Qed.

(** X19: the groups of [groupby] split the frame: their keys are distinct
    and sorted, no group is empty, a group holds exactly the rows with its
    key, in the order of the frame, and all groups together hold every row
    of the frame once. *)
Theorem groupby_partitions (df : list Row) :
  NoDup (map fst (groupby key df))
  /\ StronglySorted String.le (map fst (groupby key df))
  /\ (forall k g, (k, g) ∈ groupby key df ->
        g <> [] /\ g = filter (fun row => key row = k) df)
  /\ (forall row, row ∈ df ->
        (key row, filter (fun r => key r = key row) df) ∈ groupby key df)
  /\ concat (map snd (groupby key df)) ≡ₚ df.
Proof.
  rewrite groupby_keys.
  split; [apply (NoDup_np_unique String.le)|].
  split; [apply (np_unique_sorted String.le)|]. split; [|split].
  - intros k g Hg. apply elem_of_groupby in Hg as [(row & Hrow & Hkey) ->].
    split; [|reflexivity]. intros Hnil.
    assert (Hin : row ∈ filter (fun r => key r = k) df)
      by (apply list_elem_of_filter; auto).
    rewrite Hnil in Hin. inversion Hin.
  - intros row Hrow. apply elem_of_groupby. eauto.
  - unfold groupby. rewrite map_map. simpl.
    apply concat_groups; [apply (NoDup_np_unique String.le)|].
    intros row Hrow. apply (elem_of_np_unique String.le).
    rewrite map_fmap. apply list_elem_of_fmap. eauto.
Qed.

End PartitionFacts.

Section PartitionFiles.
Context {Row : Type}.

Lemma write_partition_lookup (fs : partitions_dir Row) (g : string * list Row)
      (name : string) :
  write_partition fs g !! name
  = if decide (name = g.1) then Some {[ "partition.csv"%string := g.2 ]} else fs !! name.
Proof.
  unfold write_partition. destruct g as [k rows]. simpl.
  destruct (decide (name = k)) as [->|Hne].
  - rewrite lookup_insert_eq, lookup_insert_eq. simpl. reflexivity.
  - rewrite !lookup_insert_ne by congruence.
    destruct (decide (is_Some (fs !! k))); [|reflexivity].
    rewrite lookup_delete_ne by congruence. reflexivity.
Qed.

Lemma write_partitions_lookup (groups : list (string * list Row)) :
  forall (fs : partitions_dir Row) (name : string),
  NoDup (map fst groups) ->
  foldl write_partition fs groups !! name
  = match list_find (fun g => g.1 = name) groups with
    | Some (_, g) => Some {[ "partition.csv"%string := g.2 ]}
    | None => fs !! name
    end.
Proof.
  induction groups as [|g groups IH]; intros fs name Hnd; [reflexivity|].
  simpl in Hnd. apply NoDup_cons in Hnd as [Hg Hnd]. simpl.
  rewrite IH by exact Hnd. cbn [list_find].
  destruct (decide (g.1 = name)) as [E|E].
  - destruct (list_find _ groups) as [[i g']|] eqn:F.
    + exfalso. apply list_find_Some in F as (Hi & Hg' & _). apply Hg.
      rewrite map_fmap. apply list_elem_of_fmap. exists g'. split; [congruence|].
      eapply list_elem_of_lookup_2, Hi.
    + rewrite write_partition_lookup. rewrite decide_True by congruence. reflexivity.
  - destruct (list_find _ groups) as [[i g']|]; simpl; [reflexivity|].
    rewrite write_partition_lookup. rewrite decide_False by congruence. reflexivity.
Qed.

(** X20: after the loop, the directory of every month that occurs in the
    frame holds the single file [partition.csv] with the orders of that
    month, whatever it held before; the directory of a month that does not
    occur is left as it was. *)
Theorem write_partitions_result (purchased_in : Row -> nat * nat)
        (fs : partitions_dir Row) (df : list Row) (name : string) :
  write_partitions purchased_in fs df !! name
  = if decide (Exists (fun row => year_month purchased_in row = name) df)
    then Some {[ "partition.csv"%string
                 := filter (fun row => year_month purchased_in row = name) df ]}
    else fs !! name.
Proof.
  unfold write_partitions.
  rewrite write_partitions_lookup
    by (rewrite groupby_keys; apply (NoDup_np_unique String.le)).
  destruct (list_find _ _) as [[i g]|] eqn:F.
  - apply list_find_Some in F as (Hi & Hname & _).
    apply list_elem_of_lookup_2 in Hi. destruct g as [k rows]. simpl in Hname. subst k.
    apply elem_of_groupby in Hi as [(row & Hrow & Hk) ->]. simpl.
    rewrite decide_True; [reflexivity|]. apply Exists_exists. eauto.
  - rewrite decide_False; [reflexivity|]. intros Hex.
    apply Exists_exists in Hex as (row & Hrow & Hk).
    assert (Hin : (name, filter (fun r => year_month purchased_in r = name) df)
                  ∈ groupby (year_month purchased_in) df)
      by (apply elem_of_groupby; eauto).
    apply list_elem_of_lookup_1 in Hin as [i Hi].
    eapply list_find_None in F. rewrite Forall_forall in F.
    apply (F _ (list_elem_of_lookup_2 _ _ _ Hi)). reflexivity.
Qed.

End PartitionFiles.

(** * The input files of the ingestion script *)

Lemma ends_with_app (suffix a b : string) :
  ends_with suffix b = true -> ends_with suffix (a +:+ b) = true.
Proof.
  intros H. induction a as [|c a IH]; [exact H|]. simpl.
  rewrite IH. apply orb_true_r.
Qed.

Lemma path_join_ends_with (suffix a b : string) :
  ends_with suffix b = true -> ends_with suffix (path_join a b) = true.
Proof.
  intros H. unfold path_join.
  destruct (starts_with "/" b); [exact H|].
  destruct (bool_decide (a = ""%string) || ends_with "/" a).
  - apply ends_with_app, H.
  - apply ends_with_app, (ends_with_app suffix "/" b), H.
Qed.

(** X21: [get_file_paths] returns the CSV files and nothing else: every
    path it returns ends with [.csv] and is the path of a file of the walk
    whose name ends with [.csv], and every such file is returned. *)
Theorem get_file_paths_csv (directory : string) (t : tree) :
  (forall file_path, file_path ∈ get_file_paths directory t ->
     ends_with ".csv" file_path = true
     /\ exists root dirs files file_name,
          (root, dirs, files) ∈ walk directory t /\ file_name ∈ files
          /\ ends_with ".csv" file_name = true
          /\ file_path = path_join root file_name)
  /\ (forall root dirs files file_name,
        (root, dirs, files) ∈ walk directory t -> file_name ∈ files ->
        ends_with ".csv" file_name = true ->
        path_join root file_name ∈ get_file_paths directory t).
Proof.
  unfold get_file_paths. split.
  - intros p Hp.
    apply list_elem_of_In, in_flat_map in Hp as ([[root dirs] files] & Hentry & Hp).
    unfold csv_paths in Hp. apply list_elem_of_In in Hp. rewrite map_fmap in Hp.
    apply list_elem_of_fmap in Hp as (f & -> & Hf).
    apply list_elem_of_filter in Hf as [Hcsv Hf].
    split; [apply path_join_ends_with, Hcsv|].
    exists root, dirs, files, f. apply list_elem_of_In in Hentry. done.
  - intros root dirs files f Hentry Hf Hcsv. apply list_elem_of_In, in_flat_map.
    exists (root, dirs, files). split; [apply list_elem_of_In, Hentry|].
    apply list_elem_of_In. unfold csv_paths. rewrite map_fmap.
    apply list_elem_of_fmap. exists f. split; [reflexivity|].
    apply list_elem_of_filter. auto.
Qed.

Example demo_get_file_paths :
  get_file_paths "/opt/ml/processing/input/" demo_tree
  = ["/opt/ml/processing/input/2021-5/partition.csv";
     "/opt/ml/processing/input/2021-6/partition.csv";
     "/opt/ml/processing/input/2021-6/old/b.csv"]%string.
Proof. vm_compute. reflexivity. Qed.

(** * The days-since features *)

Lemma n_days_same_day (t : Z) (col : list datetime) : forall today : nat -> Z,
  (forall i, today i = t) ->
  n_days today col = map (fun x => t - date x) col.
Proof.
  unfold n_days, get_delta_in_days.
  induction col as [|x col IH]; intros today Ht; [reflexivity|].
  simpl. rewrite Ht. f_equal. apply (IH (today ∘ S)). intros i. apply Ht.
Qed.

Section DaysScaling.
Local Open Scope Q_scope.

Lemma Qltb_shift (c x x' y y' : Q) :
  x' == x + c -> y' == y + c -> Qltb x' y' = Qltb x y.
Proof.
  intros Hx Hy. destruct (Qltb x y) eqn:E.
  - apply Qltb_lt. apply Qltb_lt in E. rewrite Hx, Hy.
    apply Qplus_lt_l. exact E.
  - apply Qltb_ge. apply Qltb_ge in E. rewrite Hx, Hy.
    apply Qplus_le_l. exact E.
Qed.

Lemma nanmin_shift (c : Q) (l l' : list Q) :
  Forall2 (fun a b => b == a + c) l l' ->
  forall x x', x' == x + c ->
  MinMaxScaler.nanmin x' l' == MinMaxScaler.nanmin x l + c.
Proof.
  induction 1 as [|a b l l' Hab _ IH]; intros x x' Hx; [exact Hx|]. simpl.
  rewrite (Qltb_shift c a b x x' Hab Hx).
  destruct (Qltb a x); apply IH; assumption.
Qed.

Lemma nanmax_shift (c : Q) (l l' : list Q) :
  Forall2 (fun a b => b == a + c) l l' ->
  forall x x', x' == x + c ->
  MinMaxScaler.nanmax x' l' == MinMaxScaler.nanmax x l + c.
Proof.
  induction 1 as [|a b l l' Hab _ IH]; intros x x' Hx; [exact Hx|]. simpl.
  rewrite (Qltb_shift c x x' a b Hx Hab).
  destruct (Qltb x a); apply IH; assumption.
Qed.

Lemma handle_zeros_Qeq (r r' : Q) :
  r == r' ->
  MinMaxScaler.handle_zeros_in_scale r == MinMaxScaler.handle_zeros_in_scale r'.
Proof.
  intros Hr. unfold MinMaxScaler.handle_zeros_in_scale.
  cbn [a_eqb a_zero a_one Q_arith].
  assert (E : Qeq_bool r 0 = Qeq_bool r' 0).
  { destruct (Qeq_bool r' 0) eqn:E'.
    - apply Qeq_bool_iff. apply Qeq_bool_iff in E'. rewrite Hr. exact E'.
    - destruct (Qeq_bool r 0) eqn:E; [|reflexivity].
      apply Qeq_bool_iff in E. rewrite Hr in E. apply Qeq_bool_iff in E. congruence. }
  rewrite E. destruct (Qeq_bool r' 0); [reflexivity | exact Hr].
Qed.

(** Shifting a column by a constant does not change its scaled values. *)
Lemma fit_transform_shift (c : Q) (X X' : list Q) :
  Forall2 (fun a b => b == a + c) X X' ->
  match MinMaxScaler.fit_transform X, MinMaxScaler.fit_transform X' with
  | Ok Y, Ok Y' => Forall2 Qeq Y Y'
  | Raise e, Raise e' => e = e'
  | _, _ => False
  end.
Proof.
  intros HX. destruct HX as [|x x' l l' Hx Hl]; [reflexivity|].
  destruct (fit_cons x l) as (sc & _ & -> & Hlo & _ & Hr & Hs & Hm).
  destruct (fit_cons x' l') as (sc' & _ & -> & Hlo' & _ & Hr' & Hs' & Hm').
  assert (Elo : MinMaxScaler.data_min_ sc' == MinMaxScaler.data_min_ sc + c).
  { rewrite Hlo, Hlo'. apply nanmin_shift; assumption. }
  assert (Er : MinMaxScaler.data_range_ sc' == MinMaxScaler.data_range_ sc).
  { rewrite Hr, Hr'. cbn [col_min col_max a_sub Q_arith].
    rewrite (nanmin_shift c l l' Hl x x' Hx), (nanmax_shift c l l' Hl x x' Hx). ring. }
  assert (Es : MinMaxScaler.scale_ sc' == MinMaxScaler.scale_ sc).
  { rewrite Hs, Hs'. cbn [a_div a_sub a_one a_zero Q_arith].
    rewrite (handle_zeros_Qeq _ _ Er). reflexivity. }
  assert (Hall : Forall2 (fun a b => b == a + c) (x :: l) (x' :: l'))
    by (constructor; assumption).
  unfold MinMaxScaler.transform. rewrite !map_fmap. apply Forall2_fmap.
  eapply Forall2_impl; [exact Hall|]. intros a b Hab. simpl.
  rewrite Hm, Hm'. cbn [a_add a_sub a_mul a_zero Q_arith].
  rewrite Es, Elo, Hab. ring.
Qed.

(** X22: in exact arithmetic the scaled days-since column does not depend
    on the day of the run: two runs during which the date does not change
    give the same scaled column, whatever their dates, and an empty column
    is rejected by both. *)
Theorem n_days_scaled_any_day (today today' : nat -> Z) (t t' : Z)
        (col : list datetime) :
  (forall i, today i = t) -> (forall i, today' i = t') ->
  match n_days_scaled inject_Z today col, n_days_scaled inject_Z today' col with
  | Ok Y, Ok Y' => Forall2 Qeq Y Y'
  | Raise e, Raise e' => e = e'
  | _, _ => False
  end.
Proof.
  intros Ht Ht'. unfold n_days_scaled.
  rewrite (n_days_same_day t col today Ht), (n_days_same_day t' col today' Ht').
  apply (fit_transform_shift (inject_Z (t' - t))).
  rewrite !map_fmap. apply Forall2_fmap, Forall2_fmap, Forall_Forall2_diag.
  apply Forall_forall. intros x _. simpl.
  rewrite <- inject_Z_plus. apply inject_Z_injective. lia.
Qed.

End DaysScaling.

Lemma n_days_scaled_any_day_witness :
  (forall i : nat, (fun _ : nat => 737100) i = 737100)
  /\ (forall i : nat, (fun _ : nat => 737101) i = 737101)
  /\ match n_days_scaled inject_Z (fun _ => 737100) demo_dates,
           n_days_scaled inject_Z (fun _ => 737101) demo_dates with
     | Ok Y, Ok Y' => Forall2 Qeq Y Y'
     | Raise e, Raise e' => e = e'
     | _, _ => False
     end.
Proof.
  assert (Ht : forall i : nat, (fun _ : nat => 737100) i = 737100) by (intros i; reflexivity).
  assert (Ht' : forall i : nat, (fun _ : nat => 737101) i = 737101) by (intros i; reflexivity).
  split; [exact Ht|]. split; [exact Ht'|].
  exact (n_days_scaled_any_day (fun _ => 737100) (fun _ => 737101) 737100 737101
           demo_dates Ht Ht').
Defined.

(** On doubles the scaled column depends on the day of the run in its last
    digits: the middle value is 0.5714285714... on both days, with
    different roundings. *)
Example n_days_scaled_doubles :
  n_days_scaled B64.of_Z (fun _ => 100) [mkDatetime 0 0; mkDatetime 3 0; mkDatetime 7 0]
  <> n_days_scaled B64.of_Z (fun _ => 101) [mkDatetime 0 0; mkDatetime 3 0; mkDatetime 7 0].
Proof. vm_compute. discriminate. Qed.

(** * The ordinal encoding of the PySpark script *)

Global Instance frequency_desc_po (y : list string) : PartialOrder (frequency_desc y).
Proof.
  unfold frequency_desc. split; [split|].
  - intros a. right. split; reflexivity.
  - intros a b c [Hab|[Hab Hle]] [Hbc|[Hbc Hle']]; [left; lia..|].
    right. split; [lia | etrans; eassumption].
  - intros a b [Hab|[Hab Hle]] [Hba|[Hba Hle']]; try lia.
    apply (anti_symm String.le); assumption.
Qed.

Global Instance frequency_desc_total (y : list string) : Total (frequency_desc y).
Proof.
  intros a b. unfold frequency_desc.
  destruct (lt_eq_lt_dec (count_of a y) (count_of b y)) as [[Hlt|Heq]|Hgt].
  - right. left. exact Hlt.
  - destruct (total String.le a b) as [Hle|Hle]; [left | right]; right; split;
      auto using eq_sym.
  - left. left. exact Hgt.
Qed.

Lemma count_of_zero (x : string) (y : list string) : x ∉ y -> count_of x y = 0%nat.
Proof.
  intros Hx. unfold count_of. rewrite filter_none; [reflexivity|].
  intros z Hz ->. exact (Hx Hz).
Qed.

(** X23: when the value ["1"] occurs more often than ["0"] in a column of
    flags, the ordinal encoding of the PySpark script inverts the flag:
    every ["1"] becomes 0 and every ["0"] becomes 1. *)
Theorem ordinal_encode_col_inverts_flags (y : list string) :
  (forall x, x ∈ y -> x = "0"%string \/ x = "1"%string) ->
  (count_of "0" y < count_of "1" y)%nat ->
  ordinal_encode_col y = map (fun x => if decide (x = "1"%string) then 0%nat else 1%nat) y.
Proof.
  intros Hall Hfreq. unfold ordinal_encode_col, string_indexer_fit.
  assert (H1 : "1"%string ∈ y).
  { destruct (decide ("1"%string ∈ y)) as [H|H]; [exact H|].
    rewrite (count_of_zero "1" y H) in Hfreq. lia. }
  assert (Hlabels : np_unique (frequency_desc y) y
                    = if decide ("0"%string ∈ y) then ["1"; "0"]%string else ["1"%string]).
  { destruct (decide ("0"%string ∈ y)) as [H0|H0].
    - rewrite (np_unique_same_set (frequency_desc y) y ["1"; "0"]%string).
      + unfold np_unique. 
        assert (Hord : frequency_desc y "1" "0") by (left; exact Hfreq).
        assert (Hord' : ~ frequency_desc y "0" "1").
        { intros [H|[H _]]; lia. }
        vm_compute remove_dups. unfold merge_sort. simpl.
        rewrite decide_True by exact Hord. reflexivity.
      + intros x. rewrite !elem_of_cons, elem_of_nil. split.
        * intros Hx. destruct (Hall x Hx) as [->| ->]; auto.
        * intros [->|[->|[]]]; assumption.
    - rewrite (np_unique_same_set (frequency_desc y) y ["1"%string]); [reflexivity|].
      intros x. rewrite list_elem_of_singleton. split.
      + intros Hx. destruct (Hall x Hx) as [->| ->]; [done | reflexivity].
      + intros ->. exact H1. }
  rewrite Hlabels. apply map_ext_in. intros x Hx. apply list_elem_of_In in Hx.
  destruct (Hall x Hx) as [->| ->].
  - rewrite decide_True by exact Hx. reflexivity.
  - destruct (decide ("0"%string ∈ y)); reflexivity.
Qed.

Lemma ordinal_encode_col_inverts_flags_witness :
  (forall x, x ∈ ["1"; "0"; "1"]%string -> x = "0"%string \/ x = "1"%string)
  /\ (count_of "0" ["1"; "0"; "1"]%string < count_of "1" ["1"; "0"; "1"]%string)%nat
  /\ ordinal_encode_col ["1"; "0"; "1"]%string
     = map (fun x => if decide (x = "1"%string) then 0%nat else 1%nat)
           ["1"; "0"; "1"]%string.
Proof.
  assert (Hall : forall x, x ∈ ["1"; "0"; "1"]%string -> x = "0"%string \/ x = "1"%string).
  { intros x Hx. rewrite !elem_of_cons, elem_of_nil in Hx. tauto. }
  assert (Hfreq : (count_of "0" ["1"; "0"; "1"]%string
                   < count_of "1" ["1"; "0"; "1"]%string)%nat)
    by (vm_compute; lia).
  split; [exact Hall|]. split; [exact Hfreq|].
  exact (ordinal_encode_col_inverts_flags ["1"; "0"; "1"]%string Hall Hfreq).
Defined.

Example ordinal_encode_flags :
  ordinal_encode_col ["1"; "0"; "1"]%string = [0; 1; 0]%nat.
Proof. vm_compute. reflexivity. Qed.

(** * The scaling of the PySpark script *)

(** X24: [scale_col] turns a constant column of finite doubles into a
    column of 0.5, whatever the constant is. *)
Theorem scale_col_constant (c : B64.t) (n : nat) :
  is_finite c = true ->
  scale_col c (replicate n c) = replicate (S n) b64_half.
Proof.
  intros Hc. unfold scale_col, spark_min_max_scaler. cbn [col_min col_max].
  rewrite (nanmin_replicate (Ar:=B64_arith) c n (B64_ltb_irrefl c)).
  rewrite (nanmax_replicate (Ar:=B64_arith) c n (B64_ltb_irrefl c)).
  rewrite (B64_sub_diag c Hc).
  change (c :: replicate n c) with (replicate (S n) c).
  rewrite !map_fmap, !fmap_replicate. f_equal.
Qed.

Lemma scale_col_constant_witness :
  is_finite (B64.of_Z 7) = true
  /\ scale_col (B64.of_Z 7) (replicate 2 (B64.of_Z 7)) = replicate 3 b64_half.
Proof.
  assert (Hc : is_finite (B64.of_Z 7) = true) by reflexivity.
  split; [exact Hc|].
  exact (scale_col_constant (B64.of_Z 7) 2 Hc).
Defined.
